(** * UnipolMoveClient: the movement fetch / filter / report pipeline

    A shallow embedding of [unipolmove_client.py].  Python objects that the
    client shares and mutates (movement dictionaries, lists of movements)
    live in an explicit heap; the remote service, the UUID generator and the
    file system are part of the state the methods thread through.

    The methods of [UnipolMoveClient] are embedded under their own names:
    [login], [fetch_movements], [fetch_all_movements], [generate_pdf_report],
    [filter_movements_by_date], with the helpers [_get_headers] and
    [_get_cookies], and the constructor as [__init__].

    What is taken from libraries is modelled by what the client observes of
    it: [response.cookies] is the cookie jar of [requests], a list of named
    cookies with the jar's own lookup ([KeyError] on a cookie without a
    value or with an empty one, [CookieConflictError] on a name that comes
    twice); writing a file may raise [OSError]; [datetime.strptime] and
    [datetime.fromisoformat] are functions from strings to dates that may
    fail; [uuid.uuid4()] draws from a stream. *)

From Stdlib Require Import ZArith String Ascii List Bool Lia DecimalString.
From Stdlib Require Import DecimalNat DecimalFacts.
From stdpp Require Import base option list gmap strings fin_maps.

Local Open Scope string_scope.
Local Open Scope Z_scope.

(** ** Python values

    Values decoded from JSON, which is where every movement record comes
    from.  A float is kept as mantissa and binary exponent.  Python [str] is
    modelled by [string]. *)

#[warnings="-register-all"]
Inductive json : Type :=
  | JNull
  | JBool (b : bool)
  | JInt (z : Z)
  | JFloat (m e : Z)
  | JStr (s : string)
  | JArr (l : list json)
  | JObj (o : list (string * json)).

(** A [dict]: keys in insertion order, each key once. *)
Definition dict : Type := list (string * json).

(** [d.get(k)] / [k in d] *)
Fixpoint dict_get (k : string) (d : dict) : option json :=
  match d with
  | [] => None
  | (k', v) :: d' => if String.eqb k k' then Some v else dict_get k d'
  end.

(** [d[k] = v]: an existing key keeps its place, a new key goes last. *)
Fixpoint dict_set (k : string) (v : json) (d : dict) : dict :=
  match d with
  | [] => [(k, v)]
  | (k', v') :: d' =>
      if String.eqb k k' then (k', v) :: d' else (k', v') :: dict_set k v d'
  end.

(** Truth value of an object, as [if x:], [not x] and [x or y] take it. *)
Definition truthy (v : json) : bool :=
  match v with
  | JNull => false
  | JBool b => b
  | JInt z => negb (z =? 0)
  | JFloat m _ => negb (m =? 0)
  | JStr s => negb (String.eqb s "")
  | JArr l => match l with [] => false | _ => true end
  | JObj o => match o with [] => false | _ => true end
  end.

(** [x or y] *)
Definition py_or (x y : json) : json := if truthy x then x else y.

(** Exceptions the client can meet. *)
Inductive exn : Type :=
  | TypeError
  | AttributeError
  | ValueError
  | KeyError
  | HTTPError (status : Z)
  | ConnectionError
  | InvalidReference
  | CookieConflictError
  | OSError.

Inductive result (A : Type) : Type :=
  | Ok (a : A)
  | Raise (e : exn).
Arguments Ok {A} a.
Arguments Raise {A} e.

(** The character [c] occurs in [s]. *)
Fixpoint str_contains_char (c : ascii) (s : string) : bool :=
  match s with
  | EmptyString => false
  | String c' s' => Ascii.eqb c c' || str_contains_char c s'
  end.

Definition is_str (s : string) (v : json) : bool :=
  match v with JStr s' => String.eqb s s' | _ => false end.

(** ["T" in x].  On a [str] it is a substring test, on a list a membership
    test, on a dict a key test; numbers, booleans and [None] are not
    containers. *)
Definition py_contains_T (x : json) : result bool :=
  match x with
  | JStr s => Ok (str_contains_char "T"%char s)
  | JArr l => Ok (existsb (is_str "T") l)
  | JObj o => Ok (bool_decide (is_Some (dict_get "T" o)))
  | JNull | JBool _ | JInt _ | JFloat _ _ => Raise TypeError
  end.

(** [s.replace("Z", "+00:00")] on a [str]. *)
Fixpoint str_replace_Z (s : string) : string :=
  match s with
  | EmptyString => EmptyString
  | String c s' =>
      if Ascii.eqb c "Z"%char then "+00:00" ++ str_replace_Z s'
      else String c (str_replace_Z s')
  end.

(** [x.replace("Z", "+00:00")]: only [str] has the method. *)
Definition py_replace_Z (x : json) : result string :=
  match x with
  | JStr s => Ok (str_replace_Z s)
  | _ => Raise AttributeError
  end.

(** Iterating a value, as [list.extend] does. *)
Definition py_iter (x : json) : result (list json) :=
  match x with
  | JArr l => Ok l
  | JStr s => Ok (map (fun c => JStr (String c EmptyString)) (list_ascii_of_string s))
  | JObj o => Ok (map (fun kv => JStr (fst kv)) o)
  | JNull | JBool _ | JInt _ | JFloat _ _ => Raise TypeError
  end.

(** [len(x)] *)
Definition py_len (x : json) : result Z :=
  match x with
  | JArr l => Ok (Z.of_nat (length l))
  | JStr s => Ok (Z.of_nat (String.length s))
  | JObj o => Ok (Z.of_nat (length o))
  | JNull | JBool _ | JInt _ | JFloat _ _ => Raise TypeError
  end.

(** [x.get(k, default)]: only a dict has the method. *)
Definition py_get (x : json) (k : string) (dflt : json) : result json :=
  match x with
  | JObj o => Ok (default dflt (dict_get k o))
  | _ => Raise AttributeError
  end.

(** [str(n)] for a non-negative [int]. *)
Definition py_str (n : nat) : string := NilZero.string_of_uint (Nat.to_uint n).

(** ** Dates

    [datetime.date] and [datetime.datetime], and the two parsers of the
    standard library that the filter calls.  The parsers are not code of the
    client: the development is generic in them. *)

Record date : Type := mkdate { year : Z; month : Z; day : Z }.

(** [a <= b] on dates: year, then month, then day. *)
Definition date_leb (a b : date) : bool :=
  (year a <? year b)
  || ((year a =? year b)
      && ((month a <? month b)
          || ((month a =? month b) && (day a <=? day b)))).

Record datetime : Type := mkdatetime {
  dt_date : date;            (* what [.date()] returns *)
  dt_hour : Z;
  dt_minute : Z;
  dt_second : Z;
  dt_microsecond : Z;
  dt_utcoffset : option Z    (* the [tzinfo] offset in microseconds *)
}.

(** The library functions used on strings; [None] stands for the
    [ValueError] they raise on a string they do not accept. *)
Class DatetimeLib : Type := {
  (** [datetime.strptime(s, "%Y-%m-%d")] *)
  strptime_ymd : string -> option datetime;
  (** [datetime.fromisoformat(s)] *)
  fromisoformat : string -> option datetime
}.

(** *** A reference instance of the library

    [%Y-%m-%d] follows the regular expression that [_strptime] builds for
    the format.  [fromisoformat] depends on the interpreter: the instance
    has the grammar that Python 3.7 to 3.10 document,
    [YYYY-MM-DD[*HH[:MM[:SS[.fff[fff]]]][+HH:MM[:SS[.ffffff]]]]].  From
    Python 3.11 on the function accepts more strings and gives the same
    result on these.  No property below depends on the instance: it only
    serves to run the filter on sample data. *)

Definition is_leap (y : Z) : bool :=
  (y mod 4 =? 0) && (negb (y mod 100 =? 0) || (y mod 400 =? 0)).

Definition days_in_month (y m : Z) : Z :=
  if m =? 2 then (if is_leap y then 29 else 28)
  else if (m =? 4) || (m =? 6) || (m =? 9) || (m =? 11) then 30
  else 31.

(** The check of the [date] constructor. *)
Definition valid_date (y m d : Z) : bool :=
  (1 <=? y) && (y <=? 9999) && (1 <=? m) && (m <=? 12)
  && (1 <=? d) && (d <=? days_in_month y m).

Definition in_range (lo hi : ascii) (c : ascii) : bool :=
  (nat_of_ascii lo <=? nat_of_ascii c)%nat && (nat_of_ascii c <=? nat_of_ascii hi)%nat.

Definition digit_val (c : ascii) : Z := Z.of_nat (nat_of_ascii c - 48).

(** Exactly [n] decimal digits. *)
Fixpoint take_digits (n : nat) (acc : Z) (s : string) : option (Z * string) :=
  match n with
  | O => Some (acc, s)
  | S n' =>
      match s with
      | String c s' =>
          if in_range "0" "9" c then take_digits n' (10 * acc + digit_val c) s'
          else None
      | EmptyString => None
      end
  end.

Definition expect (c : ascii) (s : string) : option string :=
  match s with
  | String c' s' => if Ascii.eqb c c' then Some s' else None
  | EmptyString => None
  end.

(** One alternative of a regular expression: two characters, or one. *)
Definition alt2 (p1 p2 : ascii -> bool) (s : string) : list (Z * string) :=
  match s with
  | String a (String b r) =>
      if p1 a && p2 b then [(10 * digit_val a + digit_val b, r)] else []
  | _ => []
  end.

Definition alt1 (p : ascii -> bool) (s : string) : list (Z * string) :=
  match s with
  | String a r => if p a then [(digit_val a, r)] else []
  | EmptyString => []
  end.

Definition alt_space (p : ascii -> bool) (s : string) : list (Z * string) :=
  match s with
  | String a (String b r) =>
      if Ascii.eqb a " " && p b then [(digit_val b, r)] else []
  | _ => []
  end.

(** [1[0-2]|0[1-9]|[1-9]] *)
Definition re_month (s : string) : list (Z * string) :=
  alt2 (Ascii.eqb "1") (in_range "0" "2") s
  ++ alt2 (Ascii.eqb "0") (in_range "1" "9") s
  ++ alt1 (in_range "1" "9") s.

(** [3[0-1]|[1-2]\d|0[1-9]|[1-9]| [1-9]] *)
Definition re_day (s : string) : list (Z * string) :=
  alt2 (Ascii.eqb "3") (in_range "0" "1") s
  ++ alt2 (in_range "1" "2") (in_range "0" "9") s
  ++ alt2 (Ascii.eqb "0") (in_range "1" "9") s
  ++ alt1 (in_range "1" "9") s
  ++ alt_space (in_range "1" "9") s.

Definition midnight (d : date) : datetime := mkdatetime d 0 0 0 0 None.

(** The first way the whole expression matches a prefix; the match has to
    reach the end of the string and the fields have to form a date. *)
Definition cpython_strptime_ymd (s : string) : option datetime :=
  match take_digits 4 0 s with
  | Some (y, s1) =>
      match expect "-" s1 with
      | Some s2 =>
          let matches :=
            flat_map (fun '(m, s3) =>
              match expect "-" s3 with
              | Some s4 => map (fun '(d, rest) => (m, d, rest)) (re_day s4)
              | None => []
              end) (re_month s2) in
          match matches with
          | (m, d, rest) :: _ =>
              if String.eqb rest "" && valid_date y m d
              then Some (midnight (mkdate y m d)) else None
          | [] => None
          end
      | None => None
      end
  | None => None
  end.

(** [HH[:MM[:SS[.fff[fff]]]]]: hour, minute, second, microsecond and what
    follows. *)
Definition parse_fraction (s : string) : option (Z * string) :=
  match take_digits 6 0 s with
  | Some r => Some r
  | None =>
      match take_digits 3 0 s with
      | Some (ms, rest) => Some (1000 * ms, rest)
      | None => None
      end
  end.

Definition parse_hh_mm_ss_ff (s : string) : option (Z * Z * Z * Z * string) :=
  match take_digits 2 0 s with
  | None => None
  | Some (h, String ":" s1) =>
      match take_digits 2 0 s1 with
      | None => None
      | Some (mi, String ":" s2) =>
          match take_digits 2 0 s2 with
          | None => None
          | Some (sec, String "." s3) =>
              match parse_fraction s3 with
              | Some (us, rest) => Some (h, mi, sec, us, rest)
              | None => None
              end
          | Some (sec, rest) => Some (h, mi, sec, 0, rest)
          end
      | Some (mi, rest) => Some (h, mi, 0, 0, rest)
      end
  | Some (h, rest) => Some (h, 0, 0, 0, rest)
  end.

Definition valid_time (h mi sec : Z) : bool :=
  (h <? 24) && (mi <? 60) && (sec <? 60).

(** [+HH:MM[:SS[.ffffff]]], up to the end of the string. *)
Definition parse_utcoffset (s : string) : option (option Z) :=
  match s with
  | EmptyString => Some None
  | String sign s1 =>
      if Ascii.eqb sign "+" || Ascii.eqb sign "-" then
        match parse_hh_mm_ss_ff s1 with
        | Some (h, mi, sec, us, EmptyString) =>
            let n := String.length s1 in
            let off := ((h * 60 + mi) * 60 + sec) * 1000000 + us in
            if ((n =? 5) || (n =? 8) || (n =? 15))%nat && (off <? 86400000000)
            then Some (Some (if Ascii.eqb sign "-" then - off else off))
            else None
        | _ => None
        end
      else None
  end.

Definition fromisoformat_3_7_to_3_10 (s : string) : option datetime :=
  match take_digits 4 0 s with
  | Some (y, String "-" s1) =>
      match take_digits 2 0 s1 with
      | Some (m, String "-" s2) =>
          match take_digits 2 0 s2 with
          | Some (d, rest) =>
              if valid_date y m d then
                match rest with
                | EmptyString => Some (midnight (mkdate y m d))
                | String _ t =>
                    match parse_hh_mm_ss_ff t with
                    | Some (h, mi, sec, us, tz) =>
                        match parse_utcoffset tz with
                        | Some off =>
                            if valid_time h mi sec
                            then Some (mkdatetime (mkdate y m d) h mi sec us off)
                            else None
                        | None => None
                        end
                    | None => None
                    end
                end
              else None
          | None => None
          end
      | _ => None
      end
  | _ => None
  end.

Definition CPython : DatetimeLib :=
  {| strptime_ymd := cpython_strptime_ymd;
     fromisoformat := fromisoformat_3_7_to_3_10 |}.

(** ** The world the client runs in *)

(** References to Python objects.  The objects the client shares with its
    caller are movement dictionaries and lists of them. *)
Definition loc : Type := positive.

Inductive obj : Type :=
  | ODict (d : dict)
  | OList (l : list loc).

(** The instance attributes of [UnipolMoveClient]. *)
Record client : Type := mkclient {
  contract_id : string;
  mrh_session : option string;
  last_mrh_session : option string;
  session_id : string;
  movements_client_id : string;
  movements_client_secret : string;
  pdf_client_id : string;
  pdf_client_secret : string
}.

Inductive http_method : Type := GET | POST.

Inductive body : Type :=
  | NoBody
  | FormBody (data : list (string * string))
  | JsonBody (j : json).

Record request : Type := mkrequest {
  req_method : http_method;
  req_url : string;
  req_headers : list (string * string);
  req_cookies : list (string * option string);
  req_params : list (string * json);
  req_body : body
}.

(** [requests.Response].  [cookies] is the jar of the cookies the response
    set, in the order in which the jar yields them: several cookies can
    have the same name (for different paths or domains), and a cookie set
    without [=] has no value.  [json()] fails when the body is not JSON. *)
Record response : Type := mkresponse {
  status_code : Z;
  resp_cookies : list (string * option string);
  resp_json : option json;
  resp_content : list Byte.byte
}.

Inductive reply : Type :=
  | NoReply                 (* the transport failed *)
  | Reply (r : response).

(** What becomes of [with open(name, 'wb') as f: f.write(content)]: the
    file is written; or [open] raises and nothing changes; or the file is
    opened, and so created or emptied, and the write raises, leaving what
    got through. *)
Inductive write_outcome : Type :=
  | Written
  | Refused
  | Broken (stored : list Byte.byte).

Record state : Type := mkstate {
  self : client;                       (* the client instance *)
  heap : gmap loc obj;                 (* dictionaries and lists *)
  net : nat -> reply;                  (* the service's reply to the n-th request *)
  sent : list request;                 (* requests issued so far, oldest first *)
  uuids : nat -> string;               (* what [uuid.uuid4()] yields *)
  drawn : nat;                         (* how many UUIDs were drawn *)
  files : gmap string (list Byte.byte); (* the file system *)
  disk : string -> list Byte.byte -> write_outcome
                                       (* how the file system takes a write *)
}.

Definition set_self (c : client) (st : state) : state :=
  mkstate c (heap st) (net st) (sent st) (uuids st) (drawn st) (files st) (disk st).

Definition set_heap (h : gmap loc obj) (st : state) : state :=
  mkstate (self st) h (net st) (sent st) (uuids st) (drawn st) (files st) (disk st).

Definition set_sent (l : list request) (st : state) : state :=
  mkstate (self st) (heap st) (net st) l (uuids st) (drawn st) (files st) (disk st).

Definition set_drawn (n : nat) (st : state) : state :=
  mkstate (self st) (heap st) (net st) (sent st) (uuids st) n (files st) (disk st).

Definition set_files (f : gmap string (list Byte.byte)) (st : state) : state :=
  mkstate (self st) (heap st) (net st) (sent st) (uuids st) (drawn st) f (disk st).

(** *** State and exceptions

    A computation runs from a state to a result or an exception, and to the
    state it leaves: what was mutated before an exception stays mutated. *)
Definition M (A : Type) : Type := state -> result A * state.

Definition ret {A} (a : A) : M A := fun st => (Ok a, st).

Definition raise {A} (e : exn) : M A := fun st => (Raise e, st).

Definition bind {A B} (m : M A) (k : A -> M B) : M B :=
  fun st =>
    match m st with
    | (Ok a, st') => k a st'
    | (Raise e, st') => (Raise e, st')
    end.

Notation "'let*' x ':=' m 'in' k" := (bind m (fun x => k))
  (at level 10, x pattern, m at level 200, k at level 200).

Definition lift {A} (r : result A) : M A := fun st => (r, st).

(** [None] of a library parser is its [ValueError]. *)
Definition lift_value {A} (o : option A) : M A :=
  match o with
  | Some a => ret a
  | None => raise ValueError
  end.

(** [try: m except (ValueError, AttributeError): pass] *)
Definition try_except_pass (m : M unit) : M unit :=
  fun st =>
    match m st with
    | (Raise ValueError, st') => (Ok tt, st')
    | (Raise AttributeError, st') => (Ok tt, st')
    | r => r
    end.

Definition get_self : M client := fun st => (Ok (self st), st).

(** *** Objects *)

(** A new object, at a reference not in use. *)
Definition alloc (o : obj) : M loc :=
  fun st =>
    let l := fresh (dom (heap st)) in
    (Ok l, set_heap (<[l := o]> (heap st)) st).

Definition read (l : loc) : M obj :=
  fun st =>
    match heap st !! l with
    | Some o => (Ok o, st)
    | None => (Raise InvalidReference, st)
    end.

Definition write (l : loc) (o : obj) : M unit :=
  fun st => (Ok tt, set_heap (<[l := o]> (heap st)) st).

(** [d.copy()].  A list has the method too. *)
Definition obj_copy (l : loc) : M loc :=
  let* o := read l in alloc o.

(** [d[k] = v].  On a list a [str] index is a [TypeError]. *)
Definition obj_setitem (l : loc) (k : string) (v : json) : M unit :=
  let* o := read l in
  match o with
  | ODict d => write l (ODict (dict_set k v d))
  | OList _ => raise TypeError
  end.

(** [l.append(x)] *)
Definition list_append (l : loc) (x : loc) : M unit :=
  let* o := read l in
  match o with
  | OList xs => write l (OList (xs ++ [x]))
  | ODict _ => raise AttributeError
  end.

(** *** The network, the UUID generator, the file system *)

Definition uuid4 : M string :=
  fun st => (Ok (uuids st (drawn st)), set_drawn (S (drawn st)) st).

(** [requests.get] / [requests.post]: the request goes out and the service's
    next reply comes back. *)
Definition requests_send (r : request) : M response :=
  fun st =>
    let st' := set_sent (sent st ++ [r]) st in
    match net st (length (sent st)) with
    | Reply resp => (Ok resp, st')
    | NoReply => (Raise ConnectionError, st')
    end.

(** [response.raise_for_status()] *)
Definition raise_for_status (r : response) : M unit :=
  if (400 <=? status_code r) && (status_code r <? 600)
  then raise (HTTPError (status_code r))
  else ret tt.

(** [response.json()] *)
Definition response_json (r : response) : M json :=
  lift_value (resp_json r).

(** [with open(name, 'wb') as f: f.write(content)] *)
Definition write_file (name : string) (content : list Byte.byte) : M unit :=
  fun st =>
    match disk st name content with
    | Written => (Ok tt, set_files (<[name := content]> (files st)) st)
    | Refused => (Raise OSError, st)
    | Broken stored => (Raise OSError, set_files (<[name := stored]> (files st)) st)
    end.

(** ** The client *)

Definition BASE_URL : string := "https://www.unipolmove.it".

Definition ENV_ENDPOINT : string := "/app/config/environment.json".

(** [MOVEMENTS_ENDPOINT.format(contract_id=c)] *)
Definition MOVEMENTS_ENDPOINT (c : string) : string :=
  "/api/ut/prv/unipolmove/portale-tlpd/servizi-mobilita/v6/contratti/" ++ c ++ "/movimenti".

(** [PDF_ENDPOINT.format(contract_id=c)] *)
Definition PDF_ENDPOINT (c : string) : string :=
  "/api/us/prv/tpd/telepedaggio-us/post-vendita/v1/contratti/" ++ c ++ "/movimenti/stampa".

Definition LOGIN_ENDPOINT : string := "/login".

Definition USER_AGENT : string :=
  "Mozilla/5.0 (X11; Linux x86_64; rv:144.0) Gecko/20100101 Firefox/144.0".

Definition MOVEMENTS_REFERER : string :=
  "https://www.unipolmove.it/app/post-vendita/homepage/movements".

Definition _get_headers (client_id client_secret : string) (referer : option string)
  : M (list (string * string)) :=
  let* request_id := uuid4 in
  let* c := get_self in
  let headers :=
    [ ("Accept", "application/json");
      ("Accept-Language", "it-IT,it;q=0.8,en-US;q=0.5,en;q=0.3");
      ("X-UNIPOL-REQUESTID", request_id);
      ("X-UNIPOL-SEQUENCEID", "0");
      ("X-UNIPOL-SESSIONID", session_id c);
      ("x-ibm-client-id", client_id);
      ("x-ibm-client-secret", client_secret);
      ("X-UNIPOL-CANALE", "WEB");
      ("User-Agent", USER_AGENT) ] in
  match referer with
  | Some r => if String.eqb r "" then ret headers else ret (headers ++ [("Referer", r)])%list
  | None => ret headers
  end.

Definition _get_cookies : M (list (string * option string)) :=
  let* c := get_self in
  ret [ ("MRHSession", mrh_session c);
        ("LastMRH_Session", last_mrh_session c);
        ("isLogged", Some "true") ].

(** [RequestsCookieJar._find_no_duplicates(name)], its loop over the
    cookies of the jar: a second cookie of the name, once one with a value
    was seen, is a [CookieConflictError]. *)
Fixpoint find_no_duplicates (name : string) (jar : list (string * option string))
    (toReturn : option string) : result (option string) :=
  match jar with
  | [] => Ok toReturn
  | (k, v) :: jar' =>
      if String.eqb k name then
        match toReturn with
        | Some _ => Raise CookieConflictError
        | None => find_no_duplicates name jar' v
        end
      else find_no_duplicates name jar' toReturn
  end.

(** [cookies[name]]: after the loop, [if toReturn: return toReturn], and
    [KeyError] otherwise. *)
Definition jar_getitem (name : string) (jar : list (string * option string))
  : result string :=
  match find_no_duplicates name jar None with
  | Ok (Some v) => if String.eqb v "" then Raise KeyError else Ok v
  | Ok None => Raise KeyError
  | Raise e => Raise e
  end.

(** [name in cookies]: the lookup succeeds, or fails with a conflict;
    [KeyError] is the answer [False]. *)
Definition jar_contains (name : string) (jar : list (string * option string)) : bool :=
  match jar_getitem name jar with
  | Ok _ => true
  | Raise CookieConflictError => true
  | Raise _ => false
  end.

Definition set_mrh_session (v : string) : M unit :=
  fun st =>
    let c := self st in
    (Ok tt,
     set_self (mkclient (contract_id c) (Some v) (last_mrh_session c) (session_id c)
                 (movements_client_id c) (movements_client_secret c)
                 (pdf_client_id c) (pdf_client_secret c)) st).

Definition set_last_mrh_session (v : string) : M unit :=
  fun st =>
    let c := self st in
    (Ok tt,
     set_self (mkclient (contract_id c) (mrh_session c) (Some v) (session_id c)
                 (movements_client_id c) (movements_client_secret c)
                 (pdf_client_id c) (pdf_client_secret c)) st).

Definition login (username password : string) : M bool :=
  let login_url := BASE_URL ++ LOGIN_ENDPOINT in
  let* request_id := uuid4 in
  let* c := get_self in
  let headers :=
    [ ("Accept", "application/json, text/plain, */*");
      ("Accept-Language", "it-IT,it;q=0.8,en-US;q=0.5,en;q=0.3");
      ("X-UNIPOL-REQUESTID", request_id);
      ("X-UNIPOL-SEQUENCEID", "0");
      ("X-UNIPOL-SESSIONID", session_id c);
      ("Content-Type", "application/x-www-form-urlencoded");
      ("User-Agent", USER_AGENT);
      ("Referer", "https://www.unipolmove.it/app/login") ] in
  let data := [ ("username", username); ("password", password) ] in
  let* response :=
    requests_send (mkrequest POST login_url headers [] [] (FormBody data)) in
  let* _ := raise_for_status response in
  let cookies := resp_cookies response in
  if jar_contains "MRHSession" cookies && jar_contains "LastMRH_Session" cookies then
    let* v := lift (jar_getitem "MRHSession" cookies) in
    let* _ := set_mrh_session v in
    let* v' := lift (jar_getitem "LastMRH_Session" cookies) in
    let* _ := set_last_mrh_session v' in
    ret true
  else
    ret false.

Definition fetch_movements (offset limit : Z) (interval order_by payment_status : string)
  : M json :=
  let* c := get_self in
  let url := BASE_URL ++ MOVEMENTS_ENDPOINT (contract_id c) in
  let params :=
    [ ("offset", JInt offset);
      ("limite", JInt limit);
      ("intervallo", JStr interval);
      ("ordinaPer", JStr order_by);
      ("statoPagamento", JStr payment_status) ] in
  let* headers :=
    _get_headers (movements_client_id c) (movements_client_secret c)
      (Some MOVEMENTS_REFERER) in
  let* cookies := _get_cookies in
  let* response := requests_send (mkrequest GET url headers cookies params NoBody) in
  let* _ := raise_for_status response in
  response_json response.

(** [all_movements.extend(movements)] *)
Definition list_extend (all_movements : list json) (movements : json) : M (list json) :=
  let* items := lift (py_iter movements) in
  ret (all_movements ++ items)%list.

(** The [while True] loop of [fetch_all_movements], run for at most [fuel]
    rounds: [Some] is the list the method returns, [None] says that the
    loop was still going. *)
Fixpoint fetch_all_loop (fuel : nat) (batch_size : Z) (interval : string)
    (all_movements : list json) (offset : Z) : M (option (list json)) :=
  match fuel with
  | O => ret None
  | S fuel' =>
      let* response := fetch_movements offset batch_size interval "date-D" "0,1,3,4" in
      let* movements := lift (py_get response "listaMovimenti" (JArr [])) in
      if negb (truthy movements) then ret (Some all_movements)
      else
        let* all_movements' := list_extend all_movements movements in
        let* n := lift (py_len movements) in
        if n <? batch_size then ret (Some all_movements')
        else fetch_all_loop fuel' batch_size interval all_movements' (offset + batch_size)
  end.

Definition fetch_all_movements (fuel : nat) (batch_size : Z) (interval : string)
  : M (option (list json)) :=
  fetch_all_loop fuel batch_size interval [] 1.

(** *** [generate_pdf_report] *)

(** The body of [for idx, movement in enumerate(movements)]. *)
Fixpoint pdf_loop (movements_with_check : loc) (idx : nat) (movements : list loc)
  : M unit :=
  match movements with
  | [] => ret tt
  | movement :: rest =>
      let* movement_copy := obj_copy movement in
      let* _ := obj_setitem movement_copy "checked" (JBool true) in
      let* _ := obj_setitem movement_copy "id" (JStr (py_str idx)) in
      let* _ := list_append movements_with_check movement_copy in
      pdf_loop movements_with_check (S idx) rest
  end.

(** What [json=payload] puts on the wire for a list of dictionaries: the
    dictionaries as they are when the request is made. *)
Fixpoint dump_dicts (ls : list loc) : M (list json) :=
  match ls with
  | [] => ret []
  | l :: ls' =>
      let* o := read l in
      match o with
      | ODict d => let* js := dump_dicts ls' in ret (JObj d :: js)
      | OList _ => raise TypeError
      end
  end.

Definition dump_list (l : loc) : M (list json) :=
  let* o := read l in
  match o with
  | OList ls => dump_dicts ls
  | ODict _ => raise TypeError
  end.

(** Iterating the argument: a list yields its elements.  A dictionary would
    yield its keys, and a key has no [copy] or [get] method. *)
Definition iter_movements (movements : loc) (body : list loc -> M unit) : M unit :=
  let* o := read movements in
  match o with
  | OList ms => body ms
  | ODict [] => ret tt
  | ODict (_ :: _) => raise AttributeError
  end.

Definition generate_pdf_report (movements : loc) (intestatario : string)
    (output_filename : option string) : M (list Byte.byte) :=
  let* c := get_self in
  let url := BASE_URL ++ PDF_ENDPOINT (contract_id c) in
  let* movements_with_check := alloc (OList []) in
  let* _ := iter_movements movements (pdf_loop movements_with_check 0) in
  let* headers :=
    _get_headers (pdf_client_id c) (pdf_client_secret c) (Some MOVEMENTS_REFERER) in
  let* cookies := _get_cookies in
  let* lista := dump_list movements_with_check in
  let payload :=
    JObj [ ("intestatario", JStr intestatario); ("listaMovimenti", JArr lista) ] in
  let* response :=
    requests_send (mkrequest POST url headers cookies [] (JsonBody payload)) in
  let* _ := raise_for_status response in
  let* _ :=
    match output_filename with
    | Some name =>
        if String.eqb name "" then ret tt else write_file name (resp_content response)
    | None => ret tt
    end in
  ret (resp_content response).

(** *** [filter_movements_by_date] *)

Section Filter.
Context {lib : DatetimeLib}.

(** [movement.get("dataIngresso") or movement.get("dataUscita", "")] *)
Definition movement_date_str (d : dict) : json :=
  py_or (default JNull (dict_get "dataIngresso" d))
        (default (JStr "") (dict_get "dataUscita" d)).

(** [datetime.strptime(x, "%Y-%m-%d")]: the argument has to be a [str]. *)
Definition py_strptime_ymd (x : json) : M datetime :=
  match x with
  | JStr s => lift_value (strptime_ymd s)
  | _ => raise TypeError
  end.

(** The statements under [try]. *)
Definition filter_try (start_date end_date : date)
    (filtered_movements movement : loc) (date_str : json) : M unit :=
  let* has_T := lift (py_contains_T date_str) in
  let* movement_date :=
    if has_T : bool then
      let* s := lift (py_replace_Z date_str) in
      let* dt := lift_value (fromisoformat s) in
      ret (dt_date dt)
    else
      let* dt := py_strptime_ymd date_str in
      ret (dt_date dt) in
  if date_leb start_date movement_date && date_leb movement_date end_date
  then list_append filtered_movements movement
  else ret tt.

(** The body of [for movement in movements]. *)
Fixpoint filter_loop (start_date end_date : date) (filtered_movements : loc)
    (movements : list loc) : M unit :=
  match movements with
  | [] => ret tt
  | movement :: rest =>
      let* o := read movement in
      match o with
      | ODict d =>
          let date_str := movement_date_str d in
          let* _ :=
            if truthy date_str
            then try_except_pass
                   (filter_try start_date end_date filtered_movements movement date_str)
            else ret tt in
          filter_loop start_date end_date filtered_movements rest
      | OList _ => raise AttributeError
      end
  end.

Definition filter_movements_by_date (movements : loc) (start_date end_date : date)
  : M loc :=
  let* filtered_movements := alloc (OList []) in
  let* _ :=
    iter_movements movements (filter_loop start_date end_date filtered_movements) in
  ret filtered_movements.

End Filter.

(** ** What the methods are expected to compute *)

(** A state that differs from [st] in the heap only. *)
Definition same_but_heap (st st' : state) : Prop :=
  st' = set_heap (heap st') st.

(** The references [ls] point to the dictionaries [ds], in order. *)
Definition dicts_at (h : gmap loc obj) (ls : list loc) (ds : list dict) : Prop :=
  Forall2 (fun l d => h !! l = Some (ODict d)) ls ds.

(** The content of the list object at [l]. *)
Definition list_at (h : gmap loc obj) (l : loc) : option (list loc) :=
  match h !! l with
  | Some (OList ls) => Some ls
  | _ => None
  end.

(** The dictionary at [l], if [l] is one. *)
Definition dict_at (h : gmap loc obj) (l : loc) : option dict :=
  match h !! l with
  | Some (ODict d) => Some d
  | _ => None
  end.

(** *** Frames *)

(** [preserves f m]: running [m] leaves the component [f] of the state as
    it was, whether [m] returns or raises. *)
Definition preserves {A B} (f : state -> B) (m : M A) : Prop :=
  forall st, f (snd (m st)) = f st.

(** [guards h0 m Q]: run from a heap that contains [h0], the computation [m]
    leaves every object of [h0] as it is, and what it returns satisfies
    [Q]. *)
Definition guards {A} (h0 : gmap loc obj) (m : M A) (Q : A -> Prop) : Prop :=
  forall st, h0 ⊆ heap st ->
    h0 ⊆ heap (snd (m st)) /\ forall a, fst (m st) = Ok a -> Q a.

(** The state after [filtered_movements.append(m)]. *)
Definition appended (out m : loc) (acc : list loc) (st : state) : state :=
  set_heap (<[out := OList (acc ++ [m])]> (heap st)) st.

(** *** The report payload *)

(** A movement with the two fields the report service wants. *)
Definition stamp (idx : nat) (d : dict) : dict :=
  dict_set "id" (JStr (py_str idx)) (dict_set "checked" (JBool true) d).

(** The movements stamped with their positions, counted from [idx]. *)
Fixpoint stamped (idx : nat) (ds : list dict) : list dict :=
  match ds with
  | [] => []
  | d :: ds' => stamp idx d :: stamped (S idx) ds'
  end.

(** The JSON bodies of the requests made from state [st] on. *)
Definition json_bodies_since (st st' : state) : list json :=
  omap (fun r => match req_body r with JsonBody j => Some j | _ => None end)
       (drop (length (sent st)) (sent st')).

(** The integer parameter [name] of a request. *)
Definition int_param (name : string) (r : request) : option Z :=
  match dict_get name (req_params r) with
  | Some (JInt z) => Some z
  | _ => None
  end.

(** *** The date filter *)

Section FilterSpec.
Context {lib : DatetimeLib}.

(** The date a non-empty date string stands for: a string with a [T] is a
    timestamp, any other a plain date. *)
Definition parse_movement_date (s : string) : option date :=
  if str_contains_char "T" s
  then dt_date <$> fromisoformat (str_replace_Z s)
  else dt_date <$> strptime_ymd s.

Definition in_date_range (start_date end_date d : date) : bool :=
  date_leb start_date d && date_leb d end_date.

(** The date field of a movement: the entry field, or the exit field when
    the entry field is absent or falsy ([None], [""], [0], [False], an
    empty container); the empty string when the exit field is absent. *)
Definition date_field (d : dict) : json :=
  let exit_field := default (JStr "") (dict_get "dataUscita" d) in
  match dict_get "dataIngresso" d with
  | Some v => if truthy v then v else exit_field
  | None => exit_field
  end.

(** The date of a movement: what its date field parses to, when the field
    is a non-empty string that parses. *)
Definition resolved_date (d : dict) : option date :=
  match date_field d with
  | JStr s => if String.eqb s "" then None else parse_movement_date s
  | _ => None
  end.

Definition keeps (start_date end_date : date) (d : dict) : bool :=
  match resolved_date d with
  | Some md => in_date_range start_date end_date md
  | None => false
  end.

(** The date field of a movement is text, or is falsy. *)
Definition textual_date (d : dict) : Prop :=
  match date_field d with
  | JStr _ => True
  | v => truthy v = false
  end.

(** The movements among [ls] that the filter is to keep. *)
Definition kept_movements (h : gmap loc obj) (start_date end_date : date)
    (ls : list loc) : list loc :=
  List.filter (fun l =>
    match dict_at h l with
    | Some d => keeps start_date end_date d
    | None => false
    end) ls.

(** The claim read to the letter: the exit field is consulted only when
    the entry field is absent from the record. *)
Definition spec_resolved_date (d : dict) : option date :=
  match dict_get "dataIngresso" d with
  | Some v => match v with JStr s => parse_movement_date s | _ => None end
  | None =>
      match dict_get "dataUscita" d with
      | Some (JStr s) => parse_movement_date s
      | _ => None
      end
  end.

Definition spec_kept_movements (h : gmap loc obj) (start_date end_date : date)
    (ls : list loc) : list loc :=
  List.filter (fun l =>
    match dict_at h l with
    | Some d =>
        match spec_resolved_date d with
        | Some md => in_date_range start_date end_date md
        | None => false
        end
    | None => false
    end) ls.

(** The list of movements a call returns, when it returns one. *)
Definition filter_output (st : state) (movements : loc) (start_date end_date : date)
  : option (list loc) :=
  match filter_movements_by_date movements start_date end_date st with
  | (Ok out, st') => list_at (heap st') out
  | (Raise _, _) => None
  end.

End FilterSpec.

(** *** Pages *)

(** The records a reply carries in [listaMovimenti]; a reply without the
    field, or that is no page at all, carries none. *)
Definition page_records (r : reply) : list json :=
  match r with
  | Reply resp =>
      match resp_json resp with
      | Some (JObj o) =>
          match dict_get "listaMovimenti" o with
          | Some v => match py_iter v with Ok items => items | Raise _ => [] end
          | None => []
          end
      | _ => []
      end
  | NoReply => []
  end.

(** A page: a reply that is no HTTP error and whose body is a JSON object
    with an array [listaMovimenti], or without the field. *)
Definition is_page (r : reply) : Prop :=
  match r with
  | Reply resp =>
      ((400 <=? status_code resp) && (status_code resp <? 600) = false)
      /\ match resp_json resp with
         | Some (JObj o) =>
             match dict_get "listaMovimenti" o with
             | Some (JArr _) | None => True
             | Some _ => False
             end
         | _ => False
         end
  | NoReply => False
  end.

(** The [n] replies the service gives from state [st] on. *)
Definition replies_from (st : state) (n : nat) : list reply :=
  map (net st) (seq (length (sent st)) n).

(** A page with at least [b] records, and one with fewer. *)
Definition full_page (b : Z) (r : reply) : Prop :=
  is_page r /\ b <= Z.of_nat (length (page_records r)).

Definition short_page (b : Z) (r : reply) : Prop :=
  is_page r /\ Z.of_nat (length (page_records r)) < b.

(** The request that [fetch_movements] makes. *)
Definition movements_request (c : client) (request_id : string) (offset limit : Z)
    (interval order_by payment_status : string) : request :=
  mkrequest GET (BASE_URL ++ MOVEMENTS_ENDPOINT (contract_id c))
    [ ("Accept", "application/json");
      ("Accept-Language", "it-IT,it;q=0.8,en-US;q=0.5,en;q=0.3");
      ("X-UNIPOL-REQUESTID", request_id);
      ("X-UNIPOL-SEQUENCEID", "0");
      ("X-UNIPOL-SESSIONID", session_id c);
      ("x-ibm-client-id", movements_client_id c);
      ("x-ibm-client-secret", movements_client_secret c);
      ("X-UNIPOL-CANALE", "WEB");
      ("User-Agent", USER_AGENT);
      ("Referer", MOVEMENTS_REFERER) ]
    [ ("MRHSession", mrh_session c);
      ("LastMRH_Session", last_mrh_session c);
      ("isLogged", Some "true") ]
    [ ("offset", JInt offset);
      ("limite", JInt limit);
      ("intervallo", JStr interval);
      ("ordinaPer", JStr order_by);
      ("statoPagamento", JStr payment_status) ]
    NoBody.

(** The state once a request went out: one more request, one more UUID. *)
Definition after_request (st : state) (r : request) : state :=
  set_sent (sent st ++ [r])%list (set_drawn (S (drawn st)) st).

(** What a reply makes of [fetch_movements]. *)
Definition page_outcome (r : reply) : result json :=
  match r with
  | NoReply => Raise ConnectionError
  | Reply resp =>
      if (400 <=? status_code resp) && (status_code resp <? 600)
      then Raise (HTTPError (status_code resp))
      else match resp_json resp with
           | Some j => Ok j
           | None => Raise ValueError
           end
  end.

(** The requests issued between [st] and [st']. *)
Definition requests_since (st st' : state) : list request :=
  drop (length (sent st)) (sent st').

(** The offsets [first, first+b, first+2b, ...] of [n] successive pages. *)
Definition page_offsets (first b : Z) (n : nat) : list Z :=
  map (fun i => first + Z.of_nat i * b) (seq 0 n).

(** *** Login *)

Definition is_2xx (r : response) : Prop := 200 <= status_code r < 300.

(** The response carries a cookie called [name]. *)
Definition has_cookie (name : string) (r : response) : Prop :=
  exists v, In (name, v) (resp_cookies r).

Definition both_cookies (r : response) : Prop :=
  has_cookie "MRHSession" r /\ has_cookie "LastMRH_Session" r.

(** The values of the cookies called [name], in the order of the jar. *)
Definition values_named (name : string) (jar : list (string * option string))
  : list (option string) :=
  map snd (List.filter (fun c => String.eqb (fst c) name) jar).

(** The jar has the value [v] for [name]: one cookie of that name has a
    value, the value is [v] and is not empty, and the only other cookies
    of that name are cookies without a value that come before it. *)
Definition usable_cookie (name : string) (jar : list (string * option string))
    (v : string) : Prop :=
  v <> "" /\ exists n, values_named name jar = (repeat None n ++ [Some v])%list.

(** The reply to the next request. *)
Definition next_reply (st : state) : reply := net st (length (sent st)).

(** ** Sample data *)

Module Sample.

Definition the_client : client :=
  mkclient "P000000000" None None "session-0"
    "movements-id" "movements-secret" "pdf-id" "pdf-secret".

Definition march_5 : dict :=
  [ ("dataIngresso", JStr "2024-03-05"); ("saldo", JStr "2.50") ].

Definition april_1 : dict :=
  [ ("dataIngresso", JStr "2024-04-01"); ("saldo", JStr "1.10") ].

(** The entry field is there and is empty; the exit field has the date. *)
Definition empty_entry : dict :=
  [ ("dataIngresso", JStr ""); ("dataUscita", JStr "2024-03-05") ].

(** The entry date came as a number. *)
Definition numeric_entry : dict :=
  [ ("dataIngresso", JInt 20240305) ].

(** Not a date at all. *)
Definition garbled_entry : dict :=
  [ ("dataIngresso", JStr "05/03/2024") ].

(** Half past midnight in Rome, still the day before in UTC. *)
Definition past_midnight : dict :=
  [ ("dataIngresso", JStr "2024-03-01T00:30:00+02:00") ].

(** A timestamp in UTC, written with [Z]. *)
Definition zulu_entry : dict :=
  [ ("dataUscita", JStr "2024-03-31T23:59:59Z") ].

(** A movement that already has the two report fields. *)
Definition already_stamped : dict :=
  [ ("id", JStr "A-17"); ("dataIngresso", JStr "2024-03-05"); ("checked", JBool false) ].

Definition ok_response (j : json) : reply :=
  Reply (mkresponse 200 [] (Some j) []).

Definition page (records : list json) : json :=
  JObj [ ("dispositivi", JArr []); ("listaMovimenti", JArr records) ].

(** A service with three movements, asked for two at a time. *)
Definition paged_service (n : nat) : reply :=
  match n with
  | O => ok_response (page [JObj march_5; JObj april_1])
  | S O => ok_response (page [JObj empty_entry])
  | _ => NoReply
  end.

(** A service whose login sets both cookies. *)
Definition login_service (n : nat) : reply :=
  match n with
  | O => Reply (mkresponse 200 [("MRHSession", Some "abc");
                                ("LastMRH_Session", Some "def")] None [])
  | _ => NoReply
  end.

(** A service whose login answers without the cookies. *)
Definition refusing_service (n : nat) : reply :=
  match n with
  | O => Reply (mkresponse 200 [("MRHSession", Some "abc")] None [])
  | _ => NoReply
  end.

Definition pdf_service (n : nat) : reply :=
  Reply (mkresponse 200 [] None [Byte.x25; Byte.x50; Byte.x44; Byte.x46]).

Definition the_uuids (n : nat) : string := "uuid-" ++ py_str n.

Definition world (h : gmap loc obj) (service : nat -> reply) : state :=
  mkstate the_client h service [] the_uuids 0 ∅ (fun _ _ => Written).

(** Movements at references 1 and 2, the list of both at 3. *)
Definition two_movements : gmap loc obj :=
  <[3%positive := OList [1%positive; 2%positive]]>
    (<[2%positive := ODict april_1]> (<[1%positive := ODict march_5]> ∅)).

Definition one_movement (d : dict) : gmap loc obj :=
  <[2%positive := OList [1%positive]]> (<[1%positive := ODict d]> ∅).

Definition march_1 : date := mkdate 2024 3 1.
Definition march_31 : date := mkdate 2024 3 31.

End Sample.

(** ** The constructor *)

(** [x[k]] with a [str] key: a dictionary has the key or raises [KeyError];
    nothing else can be subscripted with a string. *)
Definition py_getitem (x : json) (k : string) : result json :=
  match x with
  | JObj o =>
      match dict_get k o with
      | Some v => Ok v
      | None => Raise KeyError
      end
  | _ => Raise TypeError
  end.

(** The attributes as [__init__] leaves them.  The four credentials are
    whatever the configuration document holds under their keys. *)
Record instance : Type := mkinstance {
  new_contract_id : string;
  new_mrh_session : option string;
  new_last_mrh_session : option string;
  new_session_id : string;
  new_movements_client_id : json;
  new_movements_client_secret : json;
  new_pdf_client_id : json;
  new_pdf_client_secret : json
}.

(** [env_config['apiConnect'][section][key]] *)
Definition config_entry (env_config : json) (section key : string) : M json :=
  let* api_connect := lift (py_getitem env_config "apiConnect") in
  let* headers := lift (py_getitem api_connect section) in
  lift (py_getitem headers key).

Definition __init__ (contract_id : string)
    (mrh_session last_mrh_session session_id : option string) : M instance :=
  let* sid :=
    match session_id with
    | Some s => if String.eqb s "" then uuid4 else ret s
    | None => uuid4
    end in
  let* response :=
    requests_send (mkrequest GET (BASE_URL ++ ENV_ENDPOINT) [] [] [] NoBody) in
  let* env_config := response_json response in
  let* movements_id :=
    config_entry env_config "headers_ut_prv_mobility_service" "x-ibm-client-id" in
  let* movements_secret :=
    config_entry env_config "headers_ut_prv_mobility_service" "x-ibm-client-secret" in
  let* pdf_id := config_entry env_config "headers_us" "x-ibm-client-id" in
  let* pdf_secret := config_entry env_config "headers_us" "x-ibm-client-secret" in
  ret (mkinstance contract_id mrh_session last_mrh_session sid
         movements_id movements_secret pdf_id pdf_secret).

(** The value at [apiConnect / section / key] of a configuration document
    made of nested objects. *)
Definition config_lookup (cfg : json) (section key : string) : option json :=
  match cfg with
  | JObj o =>
      match dict_get "apiConnect" o with
      | Some (JObj api) =>
          match dict_get section api with
          | Some (JObj headers) => dict_get key headers
          | _ => None
          end
      | _ => None
      end
  | _ => None
  end.

(** The configuration document of a reply, whatever its status. *)
Definition config_of (r : reply) : option json :=
  match r with
  | Reply resp => resp_json resp
  | NoReply => None
  end.

(** The session id a new client gets: the one passed in, unless it is
    missing or empty. *)
Definition given_session_id (session_id : option string) : option string :=
  match session_id with
  | Some s => if String.eqb s "" then None else Some s
  | None => None
  end.

(** ** More about requests and replies *)

(** The reply is an HTTP error for [raise_for_status]. *)
Definition is_http_error (r : response) : bool :=
  (400 <=? status_code r) && (status_code r <? 600).

(** The value of the header [name] of a request. *)
Fixpoint header (name : string) (hs : list (string * string)) : option string :=
  match hs with
  | [] => None
  | (k, v) :: hs' => if String.eqb name k then Some v else header name hs'
  end.

(** A page with records, and one with none. *)
Definition nonempty_page (r : reply) : Prop :=
  is_page r /\ page_records r <> [].

Definition empty_page (r : reply) : Prop :=
  is_page r /\ page_records r = [].

(** The [i]-th request of a run of [fetch_all_movements] from [st]. *)
Definition page_request (st : state) (batch_size : Z) (interval : string) (i : nat)
  : request :=
  movements_request (self st) (uuids st (drawn st + i)%nat)
    (1 + Z.of_nat i * batch_size) batch_size interval "date-D" "0,1,3,4".

(** ** More about the date filter *)

(** The date values on which the guarded statements raise [TypeError]:
    truthy values that are neither text nor a container holding ["T"]. *)
Definition type_error_date (v : json) : bool :=
  truthy v
  && match v with
     | JStr _ => false
     | JArr l => negb (existsb (is_str "T") l)
     | JObj o => negb (bool_decide (is_Some (dict_get "T" o)))
     | JNull | JBool _ | JInt _ | JFloat _ _ => true
     end.

(** The records whose date field does not make the filter raise. *)
Definition safe_record (d : dict) : Prop := type_error_date (date_field d) = false.

(** ** More sample data *)

Module Demo.

Definition configuration : json :=
  JObj [ ("apiConnect",
          JObj [ ("headers_ut_prv_mobility_service",
                  JObj [ ("x-ibm-client-id", JStr "movements-id");
                         ("x-ibm-client-secret", JStr "movements-secret") ]);
                 ("headers_us",
                  JObj [ ("x-ibm-client-id", JStr "pdf-id");
                         ("x-ibm-client-secret", JStr "pdf-secret") ]) ]) ].

(** The configuration endpoint answers, then the login sets both cookies,
    then the movements come in two pages, then the report. *)
Definition service (n : nat) : reply :=
  match n with
  | 0%nat => Reply (mkresponse 200 [] (Some configuration) [])
  | 1%nat => Sample.login_service 0
  | 2%nat => Sample.paged_service 0
  | 3%nat => Sample.paged_service 1
  | _ => Sample.pdf_service 0
  end.

(** A service whose configuration document is an empty object. *)
Definition bare_service (n : nat) : reply :=
  Reply (mkresponse 200 [] (Some (JObj [])) []).

(** A login answered with both cookies, the first with an empty value. *)
Definition empty_cookie_service (n : nat) : reply :=
  Reply (mkresponse 200 [("MRHSession", Some ""); ("LastMRH_Session", Some "def")]
           None []).

(** A login answered with [LastMRH_Session] set twice, as for two paths. *)
Definition conflicting_service (n : nat) : reply :=
  Reply (mkresponse 200 [ ("MRHSession", Some "abc");
                          ("LastMRH_Session", Some "def");
                          ("LastMRH_Session", Some "ghi") ] None []).


(** A service whose second page has [null] where the movements go. *)
Definition odd_service (n : nat) : reply :=
  match n with
  | O => Sample.ok_response (Sample.page [JObj Sample.march_5; JObj Sample.april_1])
  | _ => Sample.ok_response (JObj [("listaMovimenti", JNull)])
  end.

(** A service that answers every request with status 503. *)
Definition failing_service (n : nat) : reply :=
  Reply (mkresponse 503 [("MRHSession", Some "abc"); ("LastMRH_Session", Some "def")]
           (Some (Sample.page [])) []).

(** Two full pages of two records, then a gateway error. *)
Definition breaking_service (n : nat) : reply :=
  match n with
  | 0%nat | 1%nat => Sample.ok_response (Sample.page [JObj Sample.march_5; JObj Sample.april_1])
  | _ => Reply (mkresponse 502 [] None [])
  end.

(** One record a page for two pages, then an empty page. *)
Definition trickling_service (n : nat) : reply :=
  match n with
  | 0%nat => Sample.ok_response (Sample.page [JObj Sample.march_5])
  | 1%nat => Sample.ok_response (Sample.page [JObj Sample.april_1])
  | _ => Sample.ok_response (Sample.page [])
  end.

(** Three movements at references 1 to 3, the list of them at 4. *)
Definition three_movements : gmap loc obj :=
  <[4%positive := OList [1%positive; 2%positive; 3%positive]]>
    (<[3%positive := ODict Sample.empty_entry]>
       (<[2%positive := ODict Sample.april_1]>
          (<[1%positive := ODict Sample.march_5]> ∅))).

(** A list whose second element is a record with a numeric date. *)
Definition with_numeric_date : gmap loc obj :=
  <[3%positive := OList [1%positive; 2%positive]]>
    (<[2%positive := ODict Sample.numeric_entry]>
       (<[1%positive := ODict Sample.march_5]> ∅)).

End Demo.

(** * Properties *)

Local Open Scope list_scope.

(** ** Dictionaries *)

Lemma dict_get_set_eq (k : string) (v : json) (d : dict) :
  dict_get k (dict_set k v d) = Some v.
Proof.
  induction d as [|[k' v'] d IH]; simpl.
  - now rewrite String.eqb_refl.
  - destruct (String.eqb k k') eqn:E; simpl; rewrite E; auto.
Qed.

Lemma dict_get_set_ne (k k' : string) (v : json) (d : dict) :
  k <> k' -> dict_get k' (dict_set k v d) = dict_get k' d.
Proof.
  intros Hne. induction d as [|[k0 v0] d IH]; simpl.
  - destruct (String.eqb k' k) eqn:E; auto.
    apply String.eqb_eq in E. congruence.
  - destruct (String.eqb k k0) eqn:E; simpl.
    + apply String.eqb_eq in E. subst k0.
      destruct (String.eqb k' k) eqn:E'; auto.
      apply String.eqb_eq in E'. congruence.
    + now rewrite IH.
Qed.

Lemma dict_set_length_present (k : string) (v v0 : json) (d : dict) :
  dict_get k d = Some v0 -> length (dict_set k v d) = length d.
Proof.
  induction d as [|[k' v'] d IH]; simpl; [discriminate|].
  destruct (String.eqb k k'); simpl; auto.
Qed.

(** ** Cookies *)

(** Once a value was seen, the loop returns only if no cookie of the name
    follows. *)
Lemma find_no_duplicates_seen (name : string) (jar : list (string * option string))
    (a : string) (r : option string) :
  find_no_duplicates name jar (Some a) = Ok r
  <-> values_named name jar = [] /\ r = Some a.
Proof.
  unfold values_named. induction jar as [|[k v] jar IH]; simpl.
  - split; [intros [= <-]; auto|intros [_ ->]; reflexivity].
  - destruct (String.eqb k name); simpl; [|exact IH].
    split; [discriminate|intros [H _]; discriminate].
Qed.

(** Before any value was seen, the loop returns the one value that comes
    after the cookies without a value. *)
Lemma find_no_duplicates_fresh (name : string) (jar : list (string * option string))
    (v : string) :
  find_no_duplicates name jar None = Ok (Some v)
  <-> exists n, values_named name jar = repeat None n ++ [Some v].
Proof.
  induction jar as [|[k w] jar IH]; simpl.
  - split; [discriminate|]. intros [[|n] H]; discriminate.
  - unfold values_named in *. simpl. destruct (String.eqb k name); simpl; [|exact IH].
    destruct w as [a|].
    + rewrite find_no_duplicates_seen. unfold values_named. split.
      * intros [-> [= ->]]. exists 0%nat. reflexivity.
      * intros [[|n] H]; simpl in H; [|discriminate].
        injection H as -> H. auto.
    + rewrite IH. split.
      * intros [n H]. exists (S n). simpl. now rewrite H.
      * intros [[|n] H]; simpl in H; [discriminate|].
        injection H as H. now exists n.
Qed.

Lemma jar_getitem_usable (name : string) (jar : list (string * option string))
    (v : string) :
  jar_getitem name jar = Ok v <-> usable_cookie name jar v.
Proof.
  unfold jar_getitem, usable_cookie. rewrite <- find_no_duplicates_fresh.
  destruct (find_no_duplicates name jar None) as [[a|]|e]; simpl.
  - destruct (String.eqb a "") eqn:Ha.
    + apply String.eqb_eq in Ha. subst a. split; [discriminate|].
      intros [Hv [= <-]]. now destruct Hv.
    + apply String.eqb_neq in Ha. split.
      * intros [= <-]. auto.
      * intros [_ [= <-]]. reflexivity.
  - split; [discriminate|intros [_ H]; discriminate].
  - split; [discriminate|intros [_ H]; discriminate].
Qed.

Lemma jar_getitem_found (name : string) (jar : list (string * option string))
    (v : string) :
  jar_getitem name jar = Ok v -> jar_contains name jar = true.
Proof. unfold jar_contains. now intros ->. Qed.

Lemma cookie_named_dec (name : string) (jar : list (string * option string)) :
  (exists v, In (name, v) jar) \/ ~ (exists v, In (name, v) jar).
Proof.
  induction jar as [|[k w] jar [IH|IH]].
  - right. intros [v []].
  - left. destruct IH as [v Hv]. exists v. now right.
  - destruct (String.eqb k name) eqn:Hk.
    + apply String.eqb_eq in Hk. subst k. left. exists w. now left.
    + apply String.eqb_neq in Hk. right. intros [v [[= -> _]|Hv]]; [now destruct Hk|].
      apply IH. now exists v.
Qed.

(** A name that no cookie has is not in the jar. *)
Lemma jar_contains_absent (name : string) (jar : list (string * option string)) :
  ~ (exists v, In (name, v) jar) -> jar_contains name jar = false.
Proof.
  intros Habsent.
  assert (H : forall t, find_no_duplicates name jar t = Ok t).
  { induction jar as [|[k w] jar IH]; intros t; simpl; [reflexivity|].
    destruct (String.eqb k name) eqn:Hk.
    - apply String.eqb_eq in Hk. subst k. exfalso. apply Habsent.
      exists w. now left.
    - apply IH. intros [v Hv]. apply Habsent. exists v. now right. }
  unfold jar_contains, jar_getitem. now rewrite H.
Qed.

(** The lookup raises nothing but a conflict when the name is in the jar. *)
Lemma jar_getitem_contained (name : string) (jar : list (string * option string)) :
  jar_contains name jar = true ->
  (exists v, jar_getitem name jar = Ok v)
  \/ jar_getitem name jar = Raise CookieConflictError.
Proof.
  unfold jar_contains. destruct (jar_getitem name jar) as [v|[]]; eauto; discriminate.
Qed.

(** ** Running computations *)

Lemma bind_ok {A B} (m : M A) (k : A -> M B) (st st' : state) (a : A) :
  m st = (Ok a, st') -> bind m k st = k a st'.
Proof. unfold bind. now intros ->. Qed.

Lemma bind_raise {A B} (m : M A) (k : A -> M B) (st st' : state) (e : exn) :
  m st = (Raise e, st') -> bind m k st = (Raise e, st').
Proof. unfold bind. now intros ->. Qed.

Lemma set_heap_same (st : state) : set_heap (heap st) st = st.
Proof. now destruct st. Qed.

Lemma set_heap_twice (h h' : gmap loc obj) (st : state) :
  set_heap h (set_heap h' st) = set_heap h st.
Proof. reflexivity. Qed.

Lemma same_but_heap_refl (st : state) : same_but_heap st st.
Proof. unfold same_but_heap. now rewrite set_heap_same. Qed.

Lemma same_but_heap_set (h : gmap loc obj) (st st' : state) :
  same_but_heap st st' -> same_but_heap st (set_heap h st').
Proof. unfold same_but_heap. intros ->. reflexivity. Qed.

Lemma same_but_heap_trans (st1 st2 st3 : state) :
  same_but_heap st1 st2 -> same_but_heap st2 st3 -> same_but_heap st1 st3.
Proof. unfold same_but_heap. intros -> ->. reflexivity. Qed.

(** ** Frame rules *)

Lemma preserves_ret {A B} (f : state -> B) (a : A) : preserves f (ret a).
Proof. now intros st. Qed.

Lemma preserves_raise {A B} (f : state -> B) (e : exn) : preserves f (@raise A e).
Proof. now intros st. Qed.

Lemma preserves_lift {A B} (f : state -> B) (r : result A) : preserves f (lift r).
Proof. now intros st. Qed.

Lemma preserves_lift_value {A B} (f : state -> B) (o : option A) :
  preserves f (lift_value o).
Proof. now destruct o; intros st. Qed.

Lemma preserves_bind {A B C} (f : state -> C) (m : M A) (k : A -> M B) :
  preserves f m -> (forall a, preserves f (k a)) -> preserves f (bind m k).
Proof.
  intros Hm Hk st. unfold bind. specialize (Hm st).
  destruct (m st) as [[a|e] st1]; simpl in *.
  - now rewrite Hk.
  - exact Hm.
Qed.

Lemma preserves_try {B} (f : state -> B) (m : M unit) :
  preserves f m -> preserves f (try_except_pass m).
Proof.
  intros Hm st. unfold try_except_pass. specialize (Hm st).
  destruct (m st) as [[a|[]] st1]; simpl in *; exact Hm.
Qed.

Lemma preserves_get_self {B} (f : state -> B) : preserves f get_self.
Proof. now intros st. Qed.

Lemma preserves_read {B} (f : state -> B) (l : loc) : preserves f (read l).
Proof. intros st. unfold read. now destruct (heap st !! l). Qed.

Lemma preserves_raise_for_status {B} (f : state -> B) (r : response) :
  preserves f (raise_for_status r).
Proof. intros st. unfold raise_for_status. now destruct (_ && _). Qed.

Lemma preserves_response_json {B} (f : state -> B) (r : response) :
  preserves f (response_json r).
Proof. apply preserves_lift_value. Qed.

(** The client instance is out of reach of the heap, the network, the UUID
    generator and the file system. *)
Lemma self_alloc (o : obj) : preserves self (alloc o).
Proof. now intros st. Qed.

Lemma self_write (l : loc) (o : obj) : preserves self (write l o).
Proof. now intros st. Qed.

Lemma self_uuid4 : preserves self uuid4.
Proof. now intros st. Qed.

Lemma self_requests_send (r : request) : preserves self (requests_send r).
Proof. intros st. unfold requests_send. now destruct (net st _). Qed.

Lemma self_write_file (name : string) (c : list Byte.byte) :
  preserves self (write_file name c).
Proof. intros st. unfold write_file. now destruct (disk st name c). Qed.

(** The heap is out of reach of the network, the UUID generator and the
    file system. *)
Lemma heap_uuid4 : preserves heap uuid4.
Proof. now intros st. Qed.

Lemma heap_requests_send (r : request) : preserves heap (requests_send r).
Proof. intros st. unfold requests_send. now destruct (net st _). Qed.

Lemma heap_write_file (name : string) (c : list Byte.byte) :
  preserves heap (write_file name c).
Proof. intros st. unfold write_file. now destruct (disk st name c). Qed.

Create HintDb frame.

#[export] Hint Resolve preserves_ret preserves_raise preserves_lift
  preserves_lift_value preserves_try preserves_get_self preserves_read
  preserves_raise_for_status preserves_response_json
  self_alloc self_write self_uuid4 self_requests_send self_write_file
  heap_uuid4 heap_requests_send heap_write_file : frame.

(** Walk through a computation, one bind or one case at a time. *)
Ltac frame_step :=
  match goal with
  | |- preserves _ (bind _ _) => apply preserves_bind; [|intros]
  | |- preserves _ (if ?b then _ else _) => destruct b
  | |- preserves _ (match ?x with _ => _ end) => destruct x
  | |- preserves _ _ => solve [auto with frame]
  end.

Ltac frame := repeat frame_step.

(** ** The session *)

Lemma self_obj_copy (l : loc) : preserves self (obj_copy l).
Proof. unfold obj_copy. frame. Qed.

Lemma self_obj_setitem (l : loc) (k : string) (v : json) :
  preserves self (obj_setitem l k v).
Proof. unfold obj_setitem. frame. Qed.

Lemma self_list_append (l x : loc) : preserves self (list_append l x).
Proof. unfold list_append. frame. Qed.

#[export] Hint Resolve self_obj_copy self_obj_setitem self_list_append : frame.

Lemma self_get_headers (i s : string) (r : option string) :
  preserves self (_get_headers i s r).
Proof. unfold _get_headers. frame. Qed.

Lemma self_get_cookies : preserves self _get_cookies.
Proof. unfold _get_cookies. frame. Qed.

#[export] Hint Resolve self_get_headers self_get_cookies : frame.

Lemma self_fetch_movements (offset limit : Z) (interval order_by payment_status : string) :
  preserves self (fetch_movements offset limit interval order_by payment_status).
Proof. unfold fetch_movements. frame. Qed.

#[export] Hint Resolve self_fetch_movements : frame.

Lemma self_fetch_all_loop (fuel : nat) (b : Z) (interval : string) :
  forall (acc : list json) (offset : Z),
    preserves self (fetch_all_loop fuel b interval acc offset).
Proof.
  induction fuel as [|fuel IH]; intros acc offset; simpl.
  - frame.
  - unfold list_extend. frame; apply IH.
Qed.

Lemma self_pdf_loop (out : loc) (ms : list loc) :
  forall idx, preserves self (pdf_loop out idx ms).
Proof.
  induction ms as [|m ms IH]; intros idx; simpl.
  - frame.
  - frame; apply IH.
Qed.

Lemma self_dump_dicts (ls : list loc) : preserves self (dump_dicts ls).
Proof.
  induction ls as [|l ls IH]; simpl.
  - frame.
  - frame; apply IH.
Qed.

Lemma self_iter_movements (mv : loc) (body : list loc -> M unit) :
  (forall ms, preserves self (body ms)) -> preserves self (iter_movements mv body).
Proof. intros Hb. unfold iter_movements. frame; apply Hb. Qed.

Lemma self_generate_pdf_report (mv : loc) (name : string) (file : option string) :
  preserves self (generate_pdf_report mv name file).
Proof.
  unfold generate_pdf_report, dump_list. frame.
  - apply self_iter_movements. intros. apply self_pdf_loop.
  - apply self_dump_dicts.
Qed.

Lemma self_filter_try {lib : DatetimeLib} (s e : date) (out m : loc) (v : json) :
  preserves self (filter_try s e out m v).
Proof. unfold filter_try, py_strptime_ymd. frame. Qed.

Lemma self_filter_loop {lib : DatetimeLib} (s e : date) (out : loc) (ms : list loc) :
  preserves self (filter_loop s e out ms).
Proof.
  induction ms as [|m ms IH]; simpl.
  - frame.
  - pose proof (self_filter_try s e out m). frame; apply IH.
Qed.

Lemma self_filter_movements_by_date {lib : DatetimeLib} (mv : loc) (s e : date) :
  preserves self (filter_movements_by_date mv s e).
Proof.
  unfold filter_movements_by_date. frame.
  apply self_iter_movements. intros. apply self_filter_loop.
Qed.

(** A login that returns [False] has not touched the session. *)
Lemma login_false_self (username password : string) (st : state) :
  fst (login username password st) = Ok false ->
  self (snd (login username password st)) = self st.
Proof.
  unfold login, bind, uuid4, get_self, requests_send, raise_for_status, lift.
  simpl. destruct (net st _) as [|r]; simpl; [discriminate|].
  destruct (_ && _); simpl; [discriminate|].
  destruct (jar_contains "MRHSession" _ && _) eqn:Hc; simpl; [|reflexivity].
  destruct (jar_getitem "MRHSession" _); simpl; [|discriminate].
  destruct (jar_getitem "LastMRH_Session" _); simpl; discriminate.
Qed.

(** A login that raises anything but a cookie conflict has not touched the
    session. *)
Lemma login_raise_self (username password : string) (st : state) (e : exn) :
  fst (login username password st) = Raise e ->
  e <> CookieConflictError ->
  self (snd (login username password st)) = self st.
Proof.
  unfold login, bind, uuid4, get_self, requests_send, raise_for_status, lift.
  simpl. destruct (net st _) as [|r]; simpl; [reflexivity|].
  destruct (_ && _); simpl; [reflexivity|].
  destruct (jar_contains "MRHSession" _ && _) eqn:Hc; simpl; [|reflexivity].
  apply andb_prop in Hc as [H1 H2].
  destruct (jar_getitem_contained _ _ H1) as [[v1 ->] | ->]; simpl;
    [|intros [= <-] Hne; now destruct Hne].
  destruct (jar_getitem_contained _ _ H2) as [[v2 ->] | ->]; simpl;
    [discriminate|intros [= <-] Hne; now destruct Hne].
Qed.

(** Whatever happens, a login leaves the attributes other than the two
    cookies alone. *)
Lemma login_other_fields (username password : string) (st : state) :
  let c := self st in
  let c' := self (snd (login username password st)) in
  contract_id c' = contract_id c /\ session_id c' = session_id c
  /\ movements_client_id c' = movements_client_id c
  /\ movements_client_secret c' = movements_client_secret c
  /\ pdf_client_id c' = pdf_client_id c
  /\ pdf_client_secret c' = pdf_client_secret c.
Proof.
  unfold login, bind, uuid4, get_self, requests_send, raise_for_status, lift.
  simpl. destruct (net st _) as [|r]; simpl; [repeat split|].
  destruct (_ && _); simpl; [repeat split|].
  destruct (jar_contains "MRHSession" _ && _) eqn:Hc; simpl; [|repeat split].
  destruct (jar_getitem "MRHSession" _); simpl; [|repeat split].
  destruct (jar_getitem "LastMRH_Session" _); simpl; repeat split.
Qed.

(** X20. What holds of the session: fetching one page, fetching all pages,
    filtering and generating the report leave the client instance as it was
    (whether they return or raise); a login that returns [False], and a
    login that raises anything but [CookieConflictError], leave it as it
    was; and no login touches the attributes other than the two cookies. *)
Theorem session_frame (st : state) :
  (forall offset limit interval order_by payment_status,
      self (snd (fetch_movements offset limit interval order_by payment_status st))
      = self st)
  /\ (forall fuel batch_size interval,
         self (snd (fetch_all_movements fuel batch_size interval st)) = self st)
  /\ (forall (lib : DatetimeLib) movements start_date end_date,
         self (snd (filter_movements_by_date movements start_date end_date st))
         = self st)
  /\ (forall movements intestatario output_filename,
         self (snd (generate_pdf_report movements intestatario output_filename st))
         = self st)
  /\ (forall username password,
         fst (login username password st) = Ok false ->
         self (snd (login username password st)) = self st)
  /\ (forall username password e,
         fst (login username password st) = Raise e ->
         e <> CookieConflictError ->
         self (snd (login username password st)) = self st)
  /\ (forall username password,
         let c' := self (snd (login username password st)) in
         contract_id c' = contract_id (self st)
         /\ session_id c' = session_id (self st)
         /\ movements_client_id c' = movements_client_id (self st)
         /\ movements_client_secret c' = movements_client_secret (self st)
         /\ pdf_client_id c' = pdf_client_id (self st)
         /\ pdf_client_secret c' = pdf_client_secret (self st)).
Proof.
  split; [|split; [|split; [|split; [|split; [|split]]]]].
  - intros. apply self_fetch_movements.
  - intros. apply self_fetch_all_loop.
  - intros. apply self_filter_movements_by_date.
  - intros. apply self_generate_pdf_report.
  - intros. now apply login_false_self.
  - intros. now apply login_raise_self with (e := e).
  - intros. apply login_other_fields.
Qed.

Lemma session_frame_witness :
  self (snd (login "user@example.com" "secret"
               (Sample.world ∅ Sample.refusing_service)))
  = Sample.the_client
  /\ self (snd (login "user@example.com" "secret"
                  (Sample.world ∅ Demo.failing_service)))
     = Sample.the_client.
Proof.
  split.
  - apply (proj1 (proj2 (proj2 (proj2 (proj2
             (session_frame (Sample.world ∅ Sample.refusing_service))))))
             "user@example.com" "secret").
    reflexivity.
  - apply (proj1 (proj2 (proj2 (proj2 (proj2 (proj2
             (session_frame (Sample.world ∅ Demo.failing_service)))))))
             "user@example.com" "secret" (HTTPError 503)).
    + reflexivity.
    + discriminate.
Defined.

(** C8, where the code departs from it.  A login that does not succeed can
    change the session: when the response sets [MRHSession] once and
    [LastMRH_Session] twice, both names are in the jar, the first
    assignment stores the new [MRHSession], and the lookup of
    [LastMRH_Session] raises [CookieConflictError]; [login] raises, and
    the client keeps the new [MRHSession] next to the old
    [LastMRH_Session]. *)
Theorem login_stores_cookie_then_raises :
  let st := Sample.world ∅ Demo.conflicting_service in
  let run := login "user@example.com" "secret" st in
  fst run = Raise CookieConflictError
  /\ mrh_session (self st) = None
  /\ mrh_session (self (snd run)) = Some "abc"
  /\ last_mrh_session (self (snd run)) = last_mrh_session (self st).
Proof. repeat split. Qed.

(** ** Login *)

(** On a reply without an HTTP error, login returns [True] exactly when
    both lookups succeed. *)
Lemma login_true_iff_lookups (st : state) (username password : string) (r : response) :
  next_reply st = Reply r ->
  (400 <=? status_code r) && (status_code r <? 600) = false ->
  fst (login username password st) = Ok true
  <-> exists v1 v2,
        jar_getitem "MRHSession" (resp_cookies r) = Ok v1
        /\ jar_getitem "LastMRH_Session" (resp_cookies r) = Ok v2.
Proof.
  intros Hnet Hstatus. unfold next_reply in Hnet.
  unfold login, bind, uuid4, get_self, requests_send, raise_for_status, lift.
  simpl. rewrite Hnet. simpl. rewrite Hstatus. simpl.
  unfold jar_contains.
  destruct (jar_getitem "MRHSession" (resp_cookies r)) as [v1|e1] eqn:H1;
    destruct (jar_getitem "LastMRH_Session" (resp_cookies r)) as [v2|e2] eqn:H2;
    simpl.
  - split; [eauto|reflexivity].
  - split; [destruct e2; simpl; discriminate|intros (? & ? & _ & ?); discriminate].
  - split; [destruct e1; simpl; discriminate|intros (? & ? & ? & _); discriminate].
  - split; [destruct e1, e2; simpl; discriminate|intros (? & ? & ? & _); discriminate].
Qed.

(** C6, as the code has it.  When the login request is answered with a 2xx
    status, [login] returns [True] exactly when the jar of the response has
    a value for [MRHSession] and one for [LastMRH_Session]: for each name,
    one cookie with a value that is not empty, preceded at most by cookies
    of that name without a value.  When no cookie of the response has one
    of the two names, [login] returns [False] and does not raise. *)
Theorem login_true_iff_usable_cookies
    (st : state) (username password : string) (r : response) :
  next_reply st = Reply r ->
  is_2xx r ->
  (fst (login username password st) = Ok true
   <-> exists v1 v2,
         usable_cookie "MRHSession" (resp_cookies r) v1
         /\ usable_cookie "LastMRH_Session" (resp_cookies r) v2)
  /\ (~ both_cookies r -> fst (login username password st) = Ok false).
Proof.
  intros Hnet [Hlo Hhi].
  assert (Hstatus : (400 <=? status_code r) && (status_code r <? 600) = false).
  { apply andb_false_iff. left. apply Z.leb_gt. lia. }
  split.
  - rewrite (login_true_iff_lookups st username password r Hnet Hstatus).
    split; intros (v1 & v2 & H1 & H2); exists v1, v2;
      split; now apply jar_getitem_usable.
  - intros Hmissing.
    assert (Hc : jar_contains "MRHSession" (resp_cookies r)
                 && jar_contains "LastMRH_Session" (resp_cookies r) = false).
    { apply andb_false_iff.
      destruct (jar_contains "MRHSession" (resp_cookies r)) eqn:H1; [|now left].
      destruct (jar_contains "LastMRH_Session" (resp_cookies r)) eqn:H2; [|now right].
      exfalso. apply Hmissing. unfold both_cookies, has_cookie. split.
      - destruct (cookie_named_dec "MRHSession" (resp_cookies r)) as [H|H]; [exact H|].
        rewrite (jar_contains_absent _ _ H) in H1. discriminate.
      - destruct (cookie_named_dec "LastMRH_Session" (resp_cookies r)) as [H|H];
          [exact H|].
        rewrite (jar_contains_absent _ _ H) in H2. discriminate. }
    unfold next_reply in Hnet.
    unfold login, bind, uuid4, get_self, requests_send, raise_for_status, lift.
    simpl. rewrite Hnet. simpl. rewrite Hstatus. simpl. now rewrite Hc.
Qed.

Lemma login_true_iff_usable_cookies_witness :
  fst (login "user@example.com" "secret"
         (Sample.world ∅ Sample.login_service)) = Ok true
  /\ fst (login "user@example.com" "secret"
            (Sample.world ∅ Sample.refusing_service)) = Ok false.
Proof.
  split.
  - apply (proj1 (login_true_iff_usable_cookies (Sample.world ∅ Sample.login_service)
                    "user@example.com" "secret"
                    (mkresponse 200 [("MRHSession", Some "abc");
                                     ("LastMRH_Session", Some "def")] None [])
                    eq_refl ltac:(unfold is_2xx; simpl; lia))).
    exists "abc", "def". split; (split; [discriminate|exists 0%nat; reflexivity]).
  - apply (proj2 (login_true_iff_usable_cookies (Sample.world ∅ Sample.refusing_service)
                    "user@example.com" "secret"
                    (mkresponse 200 [("MRHSession", Some "abc")] None [])
                    eq_refl ltac:(unfold is_2xx; simpl; lia))).
    intros [_ [v Hin]]. simpl in Hin. destruct Hin as [Hin|[]]. discriminate.
Defined.

(** What the claim C6 says to the letter fails on a response that carries
    both cookies, one of them with an empty value: [login] returns
    [False].  It fails as well on a response that sets one of them twice:
    both cookies are there and [login] raises. *)
Lemma login_false_with_both_cookies :
  let empty := mkresponse 200 [("MRHSession", Some ""); ("LastMRH_Session", Some "def")]
                 None [] in
  let twice := mkresponse 200 [ ("MRHSession", Some "abc");
                                ("LastMRH_Session", Some "def");
                                ("LastMRH_Session", Some "ghi") ] None [] in
  let run1 := login "user@example.com" "secret"
                (Sample.world ∅ Demo.empty_cookie_service) in
  let run2 := login "user@example.com" "secret"
                (Sample.world ∅ Demo.conflicting_service) in
  next_reply (Sample.world ∅ Demo.empty_cookie_service) = Reply empty
  /\ is_2xx empty
  /\ both_cookies empty
  /\ fst run1 = Ok false
  /\ ~ (fst run1 = Ok true <-> both_cookies empty)
  /\ next_reply (Sample.world ∅ Demo.conflicting_service) = Reply twice
  /\ is_2xx twice
  /\ both_cookies twice
  /\ fst run2 = Raise CookieConflictError
  /\ ~ (fst run2 = Ok true <-> both_cookies twice).
Proof.
  intros empty twice run1 run2.
  assert (H1 : both_cookies empty).
  { split; [exists (Some "")|exists (Some "def")]; simpl; auto. }
  assert (H2 : both_cookies twice).
  { split; [exists (Some "abc")|exists (Some "def")]; simpl; auto. }
  split; [reflexivity|]. split; [unfold is_2xx; simpl; lia|].
  split; [exact H1|]. split; [reflexivity|].
  split; [intros [_ H]; specialize (H H1); discriminate|].
  split; [reflexivity|]. split; [unfold is_2xx; simpl; lia|].
  split; [exact H2|]. split; [reflexivity|].
  intros [_ H]. specialize (H H2). discriminate.
Qed.

(** ** The heap under [generate_pdf_report] *)

Lemma guards_bind {A B} (h0 : gmap loc obj) (m : M A) (k : A -> M B)
    (Q : A -> Prop) (R : B -> Prop) :
  guards h0 m Q -> (forall a, Q a -> guards h0 (k a) R) -> guards h0 (bind m k) R.
Proof.
  intros Hm Hk st Hsub. unfold bind.
  destruct (Hm st Hsub) as [Hsub' HQ].
  destruct (m st) as [[a|e] st1]; simpl in *.
  - apply (Hk a); auto.
  - split; [exact Hsub'|discriminate].
Qed.

Lemma guards_weaken {A} (h0 : gmap loc obj) (m : M A) (Q R : A -> Prop) :
  guards h0 m Q -> (forall a, Q a -> R a) -> guards h0 m R.
Proof. intros Hm HQR st Hsub. destruct (Hm st Hsub). split; auto. Qed.

Lemma guards_preserves {A} (h0 : gmap loc obj) (m : M A) :
  preserves heap m -> guards h0 m (fun _ => True).
Proof. intros Hm st Hsub. split; [now rewrite Hm|auto]. Qed.

Lemma guards_alloc (h0 : gmap loc obj) (o : obj) :
  guards h0 (alloc o) (fun l => h0 !! l = None).
Proof.
  intros st Hsub. unfold alloc. simpl.
  assert (Hfresh : heap st !! fresh (dom (heap st)) = None).
  { apply not_elem_of_dom. apply is_fresh. }
  assert (Hnew : h0 !! fresh (dom (heap st)) = None).
  { eapply lookup_weaken_None; eauto. }
  split.
  - now apply insert_subseteq_r.
  - intros a [= <-]. exact Hnew.
Qed.

Lemma guards_write (h0 : gmap loc obj) (l : loc) (o : obj) :
  h0 !! l = None -> guards h0 (write l o) (fun _ => True).
Proof.
  intros Hl st Hsub. unfold write. simpl. split; auto.
  now apply insert_subseteq_r.
Qed.

Lemma guards_obj_copy (h0 : gmap loc obj) (l : loc) :
  guards h0 (obj_copy l) (fun c => h0 !! c = None).
Proof.
  unfold obj_copy. eapply guards_bind.
  - apply guards_preserves. apply preserves_read.
  - intros o _. apply guards_alloc.
Qed.

Lemma guards_obj_setitem (h0 : gmap loc obj) (l : loc) (k : string) (v : json) :
  h0 !! l = None -> guards h0 (obj_setitem l k v) (fun _ => True).
Proof.
  intros Hl. unfold obj_setitem. eapply guards_bind.
  - apply guards_preserves. apply preserves_read.
  - intros [d|xs] _.
    + now apply guards_write.
    + apply guards_preserves. apply preserves_raise.
Qed.

Lemma guards_list_append (h0 : gmap loc obj) (l x : loc) :
  h0 !! l = None -> guards h0 (list_append l x) (fun _ => True).
Proof.
  intros Hl. unfold list_append. eapply guards_bind.
  - apply guards_preserves. apply preserves_read.
  - intros [d|xs] _.
    + apply guards_preserves. apply preserves_raise.
    + now apply guards_write.
Qed.

Lemma guards_pdf_loop (h0 : gmap loc obj) (out : loc) (ms : list loc) :
  h0 !! out = None ->
  forall idx, guards h0 (pdf_loop out idx ms) (fun _ => True).
Proof.
  intros Hout. induction ms as [|m ms IH]; intros idx; simpl.
  - apply guards_preserves. apply preserves_ret.
  - eapply guards_bind; [apply guards_obj_copy|].
    intros c Hc. simpl in Hc.
    eapply guards_bind; [now apply guards_obj_setitem|]. intros _ _.
    eapply guards_bind; [now apply guards_obj_setitem|]. intros _ _.
    eapply guards_bind; [now apply guards_list_append|]. intros _ _.
    apply IH.
Qed.

Lemma guards_iter_movements (h0 : gmap loc obj) (mv : loc) (body : list loc -> M unit) :
  (forall ms, guards h0 (body ms) (fun _ => True)) ->
  guards h0 (iter_movements mv body) (fun _ => True).
Proof.
  intros Hb. unfold iter_movements. eapply guards_bind.
  - apply guards_preserves. apply preserves_read.
  - intros [[|kv d]|ms] _; auto;
      apply guards_preserves; auto with frame.
Qed.

Lemma heap_dump_dicts (ls : list loc) : preserves heap (dump_dicts ls).
Proof.
  induction ls as [|l ls IH]; simpl; frame; apply IH.
Qed.

Lemma heap_dump_list (l : loc) : preserves heap (dump_list l).
Proof. unfold dump_list. frame; apply heap_dump_dicts. Qed.

Lemma heap_get_headers (i s : string) (r : option string) :
  preserves heap (_get_headers i s r).
Proof. unfold _get_headers. frame. Qed.

Lemma heap_get_cookies : preserves heap _get_cookies.
Proof. unfold _get_cookies. frame. Qed.

#[export] Hint Resolve heap_dump_list heap_get_headers heap_get_cookies : frame.

Lemma guards_generate_pdf_report (h0 : gmap loc obj) (mv : loc) (name : string)
    (file : option string) :
  guards h0 (generate_pdf_report mv name file) (fun _ => True).
Proof.
  unfold generate_pdf_report.
  eapply guards_bind; [apply guards_preserves; auto with frame|]. intros c _.
  eapply guards_bind; [apply guards_alloc|]. intros out Hout. simpl in Hout.
  eapply guards_bind.
  { apply guards_iter_movements. intros ms. now apply guards_pdf_loop. }
  intros _ _. apply guards_preserves. frame.
Qed.

(** C5. [generate_pdf_report] leaves every object that existed before the
    call as it was, whether it returns or raises; so the input list has the
    same elements after the call, and every record in it is the same
    dictionary: no [checked] or [id] field was added and no field was
    changed. *)
Theorem generate_pdf_report_leaves_input_unchanged
    (st : state) (movements : loc) (intestatario : string)
    (output_filename : option string) :
  let st' := snd (generate_pdf_report movements intestatario output_filename st) in
  (forall l o, heap st !! l = Some o -> heap st' !! l = Some o)
  /\ (forall ms, heap st !! movements = Some (OList ms) ->
        heap st' !! movements = Some (OList ms)
        /\ forall m d, In m ms -> heap st !! m = Some (ODict d) ->
             heap st' !! m = Some (ODict d)).
Proof.
  intros st'.
  assert (Hsub : heap st ⊆ heap st').
  { apply (guards_generate_pdf_report (heap st) movements intestatario
             output_filename st). reflexivity. }
  assert (Hframe : forall l o, heap st !! l = Some o -> heap st' !! l = Some o).
  { intros l o Hl. eapply lookup_weaken; eauto. }
  split; [exact Hframe|].
  intros ms Hms. split; [now apply Hframe|].
  intros m d _ Hm. now apply Hframe.
Qed.

Lemma generate_pdf_report_leaves_input_unchanged_witness :
  let st := Sample.world Sample.two_movements Sample.pdf_service in
  let st' := snd (generate_pdf_report 3%positive "JOHN DOE" (Some "report.pdf") st) in
  heap st' !! 3%positive = Some (OList [1%positive; 2%positive])
  /\ heap st' !! 1%positive = Some (ODict Sample.march_5)
  /\ heap st' !! 2%positive = Some (ODict Sample.april_1).
Proof.
  intros st st'.
  pose proof (generate_pdf_report_leaves_input_unchanged st 3%positive "JOHN DOE"
                (Some "report.pdf")) as [_ H].
  destruct (H [1%positive; 2%positive]) as [Hlist Hrecords]; [reflexivity|].
  split; [exact Hlist|]. split.
  - apply Hrecords; [simpl; auto|reflexivity].
  - apply Hrecords; [simpl; auto|reflexivity].
Defined.

(** ** The payload of [generate_pdf_report] *)

Lemma dicts_at_mono (h h' : gmap loc obj) (ls : list loc) (ds : list dict) :
  (forall l d, h !! l = Some (ODict d) -> h' !! l = Some (ODict d)) ->
  dicts_at h ls ds -> dicts_at h' ls ds.
Proof.
  intros Hmono Hds. induction Hds; constructor; auto.
Qed.

Lemma dicts_at_length (h : gmap loc obj) (ls : list loc) (ds : list dict) :
  dicts_at h ls ds -> length ds = length ls.
Proof. intros H. symmetry. exact (Forall2_length _ _ _ H). Qed.

Lemma stamped_length (ds : list dict) : forall idx, length (stamped idx ds) = length ds.
Proof. induction ds as [|d ds IH]; intros idx; simpl; auto. Qed.

Lemma stamped_lookup (ds : list dict) :
  forall idx i d, ds !! i = Some d -> stamped idx ds !! i = Some (stamp (idx + i) d).
Proof.
  induction ds as [|d0 ds IH]; intros idx i d Hi; [discriminate|].
  destruct i as [|i]; simpl in *.
  - injection Hi as ->. now rewrite Nat.add_0_r.
  - rewrite (IH (S idx) i d Hi). f_equal. f_equal. lia.
Qed.

(** The fields of a stamped movement. *)
Lemma stamp_checked (idx : nat) (d : dict) :
  dict_get "checked" (stamp idx d) = Some (JBool true).
Proof.
  unfold stamp. rewrite dict_get_set_ne by discriminate. apply dict_get_set_eq.
Qed.

Lemma stamp_id (idx : nat) (d : dict) :
  dict_get "id" (stamp idx d) = Some (JStr (py_str idx)).
Proof. unfold stamp. apply dict_get_set_eq. Qed.

Lemma stamp_other (idx : nat) (d : dict) (k : string) :
  k <> "checked" -> k <> "id" -> dict_get k (stamp idx d) = dict_get k d.
Proof.
  intros H1 H2. unfold stamp.
  rewrite dict_get_set_ne by congruence. rewrite dict_get_set_ne by congruence.
  reflexivity.
Qed.

(** One round of the loop: the copy is a new dictionary, stamped, and goes
    last in the new list. *)
Lemma pdf_loop_exact (ms : list loc) :
  forall (ds : list dict) (idx : nat) (st : state) (out : loc)
         (acc : list loc) (accd : list dict),
    dicts_at (heap st) ms ds ->
    heap st !! out = Some (OList acc) ->
    dicts_at (heap st) acc accd ->
    exists st' copies,
      pdf_loop out idx ms st = (Ok tt, st')
      /\ same_but_heap st st'
      /\ heap st' !! out = Some (OList (acc ++ copies))
      /\ dicts_at (heap st') (acc ++ copies) (accd ++ stamped idx ds).
Proof.
  induction ms as [|m ms IH]; intros ds idx st out acc accd Hms Hout Hacc.
  - inversion Hms; subst. exists st, []. simpl. rewrite !app_nil_r.
    repeat split; auto using same_but_heap_refl.
  - inversion Hms as [|? d ? ds' Hm Hms']; subst. simpl in *.
    set (c := fresh (dom (heap st))).
    assert (Hc : heap st !! c = None).
    { apply not_elem_of_dom. apply is_fresh. }
    assert (Hco : c <> out) by congruence.
    set (h1 := <[out := OList (acc ++ [c])]>
                 (<[c := ODict (stamp idx d)]> (heap st))).
    assert (Hmono : forall l d', heap st !! l = Some (ODict d') ->
                                 h1 !! l = Some (ODict d')).
    { intros l d' Hl. unfold h1.
      rewrite lookup_insert_ne by congruence.
      rewrite lookup_insert_ne by congruence. exact Hl. }
    destruct (IH ds' (S idx) (set_heap h1 st) out (acc ++ [c])
                (accd ++ [stamp idx d])) as (st' & copies & Hrun & Hsame & Hout' & Hall).
    + simpl. eapply dicts_at_mono; eauto.
    + simpl. unfold h1. apply lookup_insert_eq.
    + simpl. apply Forall2_app.
      * eapply dicts_at_mono; eauto.
      * constructor; [|constructor]. unfold h1.
        rewrite lookup_insert_ne by congruence. apply lookup_insert_eq.
    + exists st', (c :: copies).
      split; [|split; [|split]].
      * unfold bind, obj_copy, obj_setitem, list_append, bind, read, alloc, write.
        simpl. rewrite Hm. simpl. fold c.
        rewrite lookup_insert_eq. simpl. rewrite lookup_insert_eq. simpl.
        rewrite !insert_insert_eq.
        rewrite lookup_insert_ne by congruence. rewrite Hout. simpl.
        fold (stamp idx d). fold h1. exact Hrun.
      * unfold same_but_heap in *. rewrite Hsame. reflexivity.
      * rewrite Hout'. now rewrite <- app_assoc.
      * rewrite <- !app_assoc in Hall. exact Hall.
Qed.

Lemma dump_dicts_exact (ls : list loc) :
  forall (ds : list dict) (st : state),
    dicts_at (heap st) ls ds -> dump_dicts ls st = (Ok (map JObj ds), st).
Proof.
  induction ls as [|l ls IH]; intros ds st Hds; inversion Hds; subst; simpl.
  - reflexivity.
  - unfold bind, read. rewrite H1. simpl. rewrite (IH _ _ H3). reflexivity.
Qed.

Lemma generate_pdf_report_posts
    (st : state) (movements : loc) (intestatario : string)
    (output_filename : option string) (ms : list loc) (ds : list dict) :
  heap st !! movements = Some (OList ms) ->
  dicts_at (heap st) ms ds ->
  json_bodies_since st
    (snd (generate_pdf_report movements intestatario output_filename st))
  = [ JObj [ ("intestatario", JStr intestatario);
             ("listaMovimenti", JArr (map JObj (stamped 0 ds))) ] ].
Proof.
  intros Hlist Hds. unfold generate_pdf_report.
  rewrite (bind_ok _ _ st st (self st)) by reflexivity.
  set (out := fresh (dom (heap st))).
  assert (Hfresh : heap st !! out = None).
  { apply not_elem_of_dom. apply is_fresh. }
  set (st1 := set_heap (<[out := OList []]> (heap st)) st).
  rewrite (bind_ok _ _ st st1 out) by reflexivity.
  assert (Hmono : forall l o, heap st !! l = Some o -> heap st1 !! l = Some o).
  { intros l o Hl. simpl. rewrite lookup_insert_ne by congruence. exact Hl. }
  destruct (pdf_loop_exact ms ds 0%nat st1 out [] []) as
    (st2 & copies & Hrun & Hsame & Hout & Hcopies).
  { eapply dicts_at_mono; [|exact Hds]. intros; now apply Hmono. }
  { simpl. apply lookup_insert_eq. }
  { constructor. }
  simpl in Hout, Hcopies.
  assert (Hiter : iter_movements movements (pdf_loop out 0) st1 = (Ok tt, st2)).
  { unfold iter_movements.
    rewrite (bind_ok _ _ st1 st1 (OList ms)); [exact Hrun|].
    unfold read. now rewrite (Hmono _ _ Hlist). }
  rewrite (bind_ok _ _ st1 st2 tt) by exact Hiter.
  assert (Hdump : forall st3, heap st3 = heap st2 ->
             dump_list out st3 = (Ok (map JObj (stamped 0 ds)), st3)).
  { intros st3 Hheap. unfold dump_list.
    rewrite (bind_ok _ _ st3 st3 (OList copies)).
    - apply dump_dicts_exact. now rewrite Hheap.
    - unfold read. now rewrite Hheap, Hout. }
  assert (Hsent : sent st2 = sent st).
  { unfold same_but_heap in Hsame. rewrite Hsame. reflexivity. }
  unfold json_bodies_since.
  unfold _get_headers, _get_cookies.
  unfold bind at 1 2 3 4 5. unfold uuid4, get_self, ret. simpl.
  rewrite (bind_ok _ _ _ _ _ (Hdump (set_drawn (S (drawn st2)) st2) eq_refl)).
  unfold bind, requests_send, raise_for_status, write_file, ret, raise.
  simpl.
  destruct (net st2 _) as [|r]; simpl.
  - rewrite Hsent, drop_app_length. reflexivity.
  - destruct (_ && _); simpl.
    + rewrite Hsent, drop_app_length. reflexivity.
    + destruct output_filename as [name|]; simpl;
        [destruct (String.eqb name ""); simpl; [|destruct (disk _ _ _); simpl]|];
        rewrite Hsent, drop_app_length; reflexivity.
Qed.

(** C4. The payload that [generate_pdf_report] posts has a [listaMovimenti]
    list with one entry for each input record, and entry [i] is record [i]
    with [checked] set to [True] and [id] set to [str(i)], everything else
    as in the record: looking up [checked] in the entry gives [True],
    looking up [id] gives [str(i)], and any other key gives what the record
    has for it, or is missing as it is in the record. *)
Theorem generate_pdf_report_payload
    (st : state) (movements : loc) (intestatario : string)
    (output_filename : option string) (ms : list loc) (ds : list dict) :
  heap st !! movements = Some (OList ms) ->
  dicts_at (heap st) ms ds ->
  exists entries,
    json_bodies_since st
      (snd (generate_pdf_report movements intestatario output_filename st))
    = [ JObj [ ("intestatario", JStr intestatario);
               ("listaMovimenti", JArr entries) ] ]
    /\ length entries = length ms
    /\ forall (i : nat) (d : dict), ds !! i = Some d ->
         exists e : dict,
           entries !! i = Some (JObj e)
           /\ e = dict_set "id" (JStr (py_str i)) (dict_set "checked" (JBool true) d)
           /\ dict_get "checked" e = Some (JBool true)
           /\ dict_get "id" e = Some (JStr (py_str i))
           /\ forall k, k <> "checked" -> k <> "id" -> dict_get k e = dict_get k d.
Proof.
  intros Hlist Hds. exists (map JObj (stamped 0 ds)).
  split; [now apply generate_pdf_report_posts with (ms := ms)|].
  split.
  - rewrite length_map, stamped_length. now apply dicts_at_length with (h := heap st).
  - intros i d Hi. exists (stamp i d). split; [|split; [|split; [|split]]].
    + rewrite list_lookup_fmap.
      pose proof (stamped_lookup ds 0 i d Hi) as E. unfold dict in *.
      rewrite E. reflexivity.
    + reflexivity.
    + apply stamp_checked.
    + apply stamp_id.
    + intros k. apply stamp_other.
Qed.

Lemma generate_pdf_report_payload_witness :
  json_bodies_since (Sample.world Sample.two_movements Sample.pdf_service)
    (snd (generate_pdf_report 3%positive "JOHN DOE" None
            (Sample.world Sample.two_movements Sample.pdf_service)))
  = [ JObj [ ("intestatario", JStr "JOHN DOE");
             ("listaMovimenti",
              JArr [ JObj [ ("dataIngresso", JStr "2024-03-05");
                            ("saldo", JStr "2.50");
                            ("checked", JBool true);
                            ("id", JStr "0") ];
                     JObj [ ("dataIngresso", JStr "2024-04-01");
                            ("saldo", JStr "1.10");
                            ("checked", JBool true);
                            ("id", JStr "1") ] ]) ] ].
Proof.
  destruct (generate_pdf_report_payload
              (Sample.world Sample.two_movements Sample.pdf_service)
              3%positive "JOHN DOE" None [1%positive; 2%positive]
              [Sample.march_5; Sample.april_1] eq_refl
              ltac:(repeat constructor))
    as (entries & Hbody & Hlength & Hentries).
  rewrite Hbody.
  destruct entries as [|e0 [|e1 [|e2 entries]]]; try discriminate Hlength.
  destruct (Hentries 0%nat Sample.march_5 eq_refl) as (d0 & [= ->] & -> & _).
  destruct (Hentries 1%nat Sample.april_1 eq_refl) as (d1 & [= ->] & -> & _).
  reflexivity.
Defined.

Lemma generate_pdf_report_frame
    (st : state) (movements : loc) (intestatario : string)
    (output_filename : option string) (l : loc) (o : obj) :
  heap st !! l = Some o ->
  heap (snd (generate_pdf_report movements intestatario output_filename st)) !! l
  = Some o.
Proof.
  intros Hl. eapply lookup_weaken; [exact Hl|].
  apply (guards_generate_pdf_report (heap st) movements intestatario
           output_filename st). reflexivity.
Qed.

(** C10. When record [i] of the input already has a [checked] or an [id]
    field, entry [i] of the posted payload has that field overwritten, with
    [True] and with [str(i)], while the record itself keeps the value it
    had. *)
Theorem generate_pdf_report_overwrites_existing_fields
    (st : state) (movements : loc) (intestatario : string)
    (output_filename : option string) (ms : list loc) (ds : list dict)
    (i : nat) (m : loc) (d : dict) :
  heap st !! movements = Some (OList ms) ->
  dicts_at (heap st) ms ds ->
  ms !! i = Some m ->
  ds !! i = Some d ->
  let st' := snd (generate_pdf_report movements intestatario output_filename st) in
  exists entries entry,
    json_bodies_since st st'
    = [ JObj [ ("intestatario", JStr intestatario);
               ("listaMovimenti", JArr entries) ] ]
    /\ entries !! i = Some (JObj entry)
    /\ (forall v, dict_get "checked" d = Some v ->
          dict_get "checked" entry = Some (JBool true)
          /\ dict_get "checked" <$> dict_at (heap st') m = Some (Some v))
    /\ (forall v, dict_get "id" d = Some v ->
          dict_get "id" entry = Some (JStr (py_str i))
          /\ dict_get "id" <$> dict_at (heap st') m = Some (Some v)).
Proof.
  intros Hlist Hds Hm Hd st'.
  exists (map JObj (stamped 0 ds)), (stamp i d).
  assert (Hmd : heap st !! m = Some (ODict d)).
  { unfold dicts_at in Hds.
    destruct (Forall2_lookup_l _ _ _ _ _ Hds Hm) as (d' & Hd' & Hmd).
    unfold dict in *. congruence. }
  assert (Hkeep : dict_at (heap st') m = Some d).
  { unfold dict_at, st'.
    now rewrite (generate_pdf_report_frame _ _ _ _ _ _ Hmd). }
  split; [now apply generate_pdf_report_posts with (ms := ms)|].
  split.
  { rewrite list_lookup_fmap.
    pose proof (stamped_lookup ds 0 i d Hd) as E. unfold dict in *.
    rewrite E. reflexivity. }
  split.
  - intros v Hv. split; [apply stamp_checked|].
    rewrite Hkeep. simpl. now rewrite Hv.
  - intros v Hv. split; [apply stamp_id|].
    rewrite Hkeep. simpl. now rewrite Hv.
Qed.

Lemma generate_pdf_report_overwrites_existing_fields_witness :
  let st := Sample.world (Sample.one_movement Sample.already_stamped)
              Sample.pdf_service in
  let st' := snd (generate_pdf_report 2%positive "JOHN DOE" None st) in
  exists entries entry,
    json_bodies_since st st'
    = [ JObj [ ("intestatario", JStr "JOHN DOE"); ("listaMovimenti", JArr entries) ] ]
    /\ entries !! 0%nat = Some (JObj entry)
    /\ (forall v, dict_get "checked" Sample.already_stamped = Some v ->
          dict_get "checked" entry = Some (JBool true)
          /\ dict_get "checked" <$> dict_at (heap st') 1%positive = Some (Some v))
    /\ (forall v, dict_get "id" Sample.already_stamped = Some v ->
          dict_get "id" entry = Some (JStr (py_str 0))
          /\ dict_get "id" <$> dict_at (heap st') 1%positive = Some (Some v)).
Proof.
  intros st st'.
  apply (generate_pdf_report_overwrites_existing_fields st 2%positive "JOHN DOE"
           None [1%positive] [Sample.already_stamped] 0 1%positive
           Sample.already_stamped).
  - reflexivity.
  - repeat constructor.
  - reflexivity.
  - reflexivity.
Defined.

(** ** The date filter *)

Section FilterProperties.
Context {lib : DatetimeLib}.
Variables (start_date end_date : date).

Lemma date_leb_refl (a : date) : date_leb a a = true.
Proof.
  unfold date_leb. rewrite !Z.eqb_refl, Z.leb_refl. simpl.
  now rewrite !orb_true_r.
Qed.

(** The expression in the code picks the date field. *)
Lemma movement_date_str_field (d : dict) : movement_date_str d = date_field d.
Proof.
  unfold movement_date_str, date_field, py_or.
  destruct (dict_get "dataIngresso" d) as [v|]; simpl; reflexivity.
Qed.

(** The guarded statements on a date string: the movement is appended when
    the string parses to a date within the range, and nothing else
    happens. *)
Lemma filter_try_text (out m : loc) (s : string) (acc : list loc) (st : state) :
  heap st !! out = Some (OList acc) ->
  try_except_pass (filter_try start_date end_date out m (JStr s)) st
  = (Ok tt,
     if match parse_movement_date s with
        | Some md => in_date_range start_date end_date md
        | None => false
        end
     then appended out m acc st else st).
Proof.
  intros Hout.
  unfold try_except_pass, filter_try, parse_movement_date, in_date_range,
    py_strptime_ymd, list_append, bind, lift, lift_value, read, write, ret, raise.
  simpl.
  destruct (str_contains_char "T" s); simpl.
  - destruct (fromisoformat (str_replace_Z s)) as [dt|]; simpl; [|reflexivity].
    destruct (date_leb start_date (dt_date dt) && date_leb (dt_date dt) end_date);
      simpl; [|reflexivity].
    rewrite Hout. reflexivity.
  - destruct (strptime_ymd s) as [dt|]; simpl; [|reflexivity].
    destruct (date_leb start_date (dt_date dt) && date_leb (dt_date dt) end_date);
      simpl; [|reflexivity].
    rewrite Hout. reflexivity.
Qed.

(** On any value: the state is untouched, or the movement was appended
    and nothing was raised. *)
Lemma filter_try_cases (out m : loc) (v : json) (acc : list loc) (st : state) :
  heap st !! out = Some (OList acc) ->
  snd (try_except_pass (filter_try start_date end_date out m v) st) = st
  \/ try_except_pass (filter_try start_date end_date out m v) st
     = (Ok tt, appended out m acc st).
Proof.
  intros Hout. destruct v as [|b|z|mm ee|s|l|o].
  5: { rewrite (filter_try_text out m s acc st Hout).
       destruct (parse_movement_date s) as [md|];
         [destruct (in_date_range start_date end_date md)|]; auto. }
  all: left; unfold try_except_pass, filter_try, py_strptime_ymd, bind, lift,
         raise; simpl; try reflexivity.
  - destruct (existsb _ l); reflexivity.
  - destruct (bool_decide _); reflexivity.
Qed.

Lemma appended_twice (out m : loc) (acc : list loc) (st : state) (o : obj) :
  set_heap (<[out := o]> (heap (appended out m acc st))) (appended out m acc st)
  = set_heap (<[out := o]> (heap st)) st.
Proof. unfold appended. simpl. now rewrite insert_insert_eq. Qed.

Lemma kept_movements_insert (h : gmap loc obj) (out : loc) (o : obj) (ms : list loc) :
  Forall (fun m => m <> out) ms ->
  kept_movements (<[out := o]> h) start_date end_date ms
  = kept_movements h start_date end_date ms.
Proof.
  intros Hne. unfold kept_movements. induction Hne as [|m ms Hm _ IH]; simpl; auto.
  assert (E : dict_at (<[out := o]> h) m = dict_at h m).
  { unfold dict_at. now rewrite lookup_insert_ne by congruence. }
  rewrite E, IH. reflexivity.
Qed.

(** The loop on records whose date field is text: it returns, and the new
    list has grown by exactly the movements to keep. *)
Lemma filter_loop_exact (out : loc) (ms : list loc) :
  forall (st : state) (acc : list loc),
    heap st !! out = Some (OList acc) ->
    Forall (fun m => exists d, heap st !! m = Some (ODict d) /\ textual_date d) ms ->
    filter_loop start_date end_date out ms st
    = (Ok tt,
       set_heap (<[out := OList (acc ++ kept_movements (heap st) start_date end_date ms)]>
                   (heap st)) st).
Proof.
  induction ms as [|m ms IH]; intros st acc Hout Hms; simpl.
  - rewrite app_nil_r, insert_id by exact Hout. now rewrite set_heap_same.
  - inversion Hms as [|? ? (d & Hm & Htext) Hms']; subst.
    assert (Hne : Forall (fun m' => m' <> out) ms).
    { eapply Forall_impl; [exact Hms'|]. intros m' (d' & Hm' & _). congruence. }
    assert (Hmo : m <> out) by congruence.
    unfold dict_at at 1. rewrite Hm.
    rewrite (bind_ok _ _ st st (ODict d)) by (unfold read; now rewrite Hm).
    rewrite movement_date_str_field.
    unfold keeps, resolved_date. unfold textual_date in Htext.
    destruct (date_field d) as [|b|z|mm ee|s|l|o] eqn:Hfield;
      try (rewrite Htext; rewrite (bind_ok _ _ st st tt) by reflexivity;
           now apply IH).
    unfold truthy. destruct (String.eqb s "") eqn:Hs; simpl.
    { rewrite (bind_ok _ _ st st tt) by reflexivity. now apply IH. }
    rewrite (bind_ok _ _ _ _ tt (filter_try_text out m s acc st Hout)).
    destruct (match parse_movement_date s with
              | Some md => in_date_range start_date end_date md
              | None => false
              end).
    + rewrite (IH (appended out m acc st) (acc ++ [m])).
      * rewrite appended_twice. unfold appended at 1. simpl.
        rewrite kept_movements_insert by exact Hne.
        now rewrite <- app_assoc.
      * simpl. apply lookup_insert_eq.
      * eapply Forall_impl; [exact Hms'|]. intros m' (d' & Hm' & Ht').
        exists d'. split; [|exact Ht']. simpl.
        rewrite lookup_insert_ne by congruence. exact Hm'.
    + now apply IH.
Qed.

(** The loop on any records: whatever the outcome, the new list has grown
    by a subsequence of the movements and nothing else has changed. *)
Lemma filter_loop_sublist (out : loc) (ms : list loc) :
  forall (st : state) (acc : list loc),
    heap st !! out = Some (OList acc) ->
    exists kept,
      sublist kept ms
      /\ snd (filter_loop start_date end_date out ms st)
         = set_heap (<[out := OList (acc ++ kept)]> (heap st)) st.
Proof.
  assert (Hsame : forall (st : state) (acc : list loc),
             heap st !! out = Some (OList acc) ->
             st = set_heap (<[out := OList (acc ++ [])]> (heap st)) st).
  { intros st acc Hout.
    rewrite app_nil_r, insert_id by exact Hout. now rewrite set_heap_same. }
  induction ms as [|m ms IH]; intros st acc Hout; simpl.
  - exists []. split; [constructor|]. now apply Hsame.
  - unfold bind at 1. unfold read.
    destruct (heap st !! m) as [[d|l]|] eqn:Hm; simpl.
    + destruct (truthy (movement_date_str d)).
      * unfold bind at 1.
        destruct (filter_try_cases out m (movement_date_str d) acc st Hout)
          as [Hst|Happ].
        -- destruct (try_except_pass _ st) as [[[]|e] st1]; simpl in Hst; subst st1.
           ++ destruct (IH st acc Hout) as (kept & Hsub & Hrun).
              exists kept. split; [now apply sublist_cons|exact Hrun].
           ++ exists []. split; [apply sublist_nil_l|]. now apply Hsame.
        -- rewrite Happ.
           destruct (IH (appended out m acc st) (acc ++ [m])) as (kept & Hsub & Hrun).
           { simpl. apply lookup_insert_eq. }
           exists (m :: kept). split; [now apply sublist_skip|].
           rewrite Hrun, appended_twice. now rewrite <- app_assoc.
      * unfold bind at 1. simpl.
        destruct (IH st acc Hout) as (kept & Hsub & Hrun).
        exists kept. split; [now apply sublist_cons|exact Hrun].
    + exists []. split; [apply sublist_nil_l|]. now apply Hsame.
    + exists []. split; [apply sublist_nil_l|]. now apply Hsame.
Qed.

End FilterProperties.

Lemma filter_movements_by_date_exact {lib : DatetimeLib}
    (st : state) (movements : loc) (start_date end_date : date) (ms : list loc) :
  heap st !! movements = Some (OList ms) ->
  Forall (fun m => exists d, heap st !! m = Some (ODict d) /\ textual_date d) ms ->
  let out := fresh (dom (heap st)) in
  filter_movements_by_date movements start_date end_date st
  = (Ok out,
     set_heap (<[out := OList (kept_movements (heap st) start_date end_date ms)]>
                 (heap st)) st).
Proof.
  intros Hlist Hms out.
  assert (Hfresh : heap st !! out = None).
  { apply not_elem_of_dom. apply is_fresh. }
  set (st1 := set_heap (<[out := OList []]> (heap st)) st).
  assert (Hne : Forall (fun m => m <> out) ms).
  { eapply Forall_impl; [exact Hms|]. intros m (d & Hm & _). congruence. }
  assert (Hread : read movements st1 = (Ok (OList ms), st1)).
  { unfold read, st1. simpl. rewrite lookup_insert_ne by congruence.
    now rewrite Hlist. }
  assert (Hloop : filter_loop start_date end_date out ms st1
                  = (Ok tt,
                     set_heap (<[out := OList (kept_movements (heap st) start_date
                                                 end_date ms)]> (heap st)) st)).
  { rewrite (filter_loop_exact start_date end_date out ms st1 []).
    - unfold st1. simpl.
      rewrite insert_insert_eq, kept_movements_insert by exact Hne. reflexivity.
    - simpl. apply lookup_insert_eq.
    - eapply Forall_impl; [exact Hms|]. intros m (d & Hm & Ht).
      exists d. split; [|exact Ht]. simpl.
      rewrite lookup_insert_ne by congruence. exact Hm. }
  unfold filter_movements_by_date.
  rewrite (bind_ok _ _ st st1 out) by reflexivity.
  assert (Hiter : iter_movements movements (filter_loop start_date end_date out) st1
                  = (Ok tt,
                     set_heap (<[out := OList (kept_movements (heap st) start_date
                                                 end_date ms)]> (heap st)) st)).
  { unfold iter_movements. now rewrite (bind_ok _ _ _ _ _ Hread). }
  now rewrite (bind_ok _ _ _ _ _ Hiter).
Qed.

(** C1, as the code has it.  On a list of records whose date field is text
    (or falsy), [filter_movements_by_date] returns exactly the records whose
    date field, the entry field or the exit field when the entry field is
    absent or falsy, parses to a date [d] with [start <= d <= end]; the
    bounds are inclusive, so with [start <= end] a record dated [start] or
    [end] is among them. *)
Theorem filter_movements_by_date_keeps_range {lib : DatetimeLib}
    (st : state) (movements : loc) (start_date end_date : date) (ms : list loc) :
  heap st !! movements = Some (OList ms) ->
  Forall (fun m => exists d, heap st !! m = Some (ODict d) /\ textual_date d) ms ->
  filter_output st movements start_date end_date
  = Some (kept_movements (heap st) start_date end_date ms)
  /\ (forall m d,
        In m ms -> heap st !! m = Some (ODict d) ->
        date_leb start_date end_date = true ->
        resolved_date d = Some start_date \/ resolved_date d = Some end_date ->
        In m (kept_movements (heap st) start_date end_date ms)).
Proof.
  intros Hlist Hms. split.
  - unfold filter_output.
    rewrite (filter_movements_by_date_exact st movements start_date end_date ms
               Hlist Hms).
    unfold list_at. simpl. now rewrite lookup_insert_eq.
  - intros m d Hin Hm Hle Hdate. unfold kept_movements.
    apply filter_In. split; [exact Hin|].
    unfold dict_at. rewrite Hm. unfold keeps, in_date_range.
    destruct Hdate as [-> | ->].
    + now rewrite date_leb_refl, Hle.
    + now rewrite date_leb_refl, Hle.
Qed.

Lemma filter_movements_by_date_keeps_range_witness :
  @filter_output CPython (Sample.world Sample.two_movements Sample.pdf_service)
    3%positive Sample.march_1 Sample.march_31
  = Some [1%positive].
Proof.
  apply (proj1 (@filter_movements_by_date_keeps_range CPython
           (Sample.world Sample.two_movements Sample.pdf_service)
           3%positive Sample.march_1 Sample.march_31 [1%positive; 2%positive]
           eq_refl
           ltac:(repeat constructor;
                 [exists Sample.march_5|exists Sample.april_1];
                 split; reflexivity || exact I))).
Defined.

(** What the claim C1 says to the letter fails on a record whose entry field
    is present and empty: the code falls back to the exit field and keeps
    the record, where a fallback on absence alone would drop it. *)
Lemma filter_falls_back_on_empty_entry :
  @filter_output CPython
    (Sample.world (Sample.one_movement Sample.empty_entry) Sample.pdf_service)
    2%positive Sample.march_1 Sample.march_31
  = Some [1%positive]
  /\ @spec_kept_movements CPython (Sample.one_movement Sample.empty_entry)
       Sample.march_1 Sample.march_31 [1%positive]
     = []
  /\ @filter_output CPython
       (Sample.world (Sample.one_movement Sample.empty_entry) Sample.pdf_service)
       2%positive Sample.march_1 Sample.march_31
     <> Some (@spec_kept_movements CPython (Sample.one_movement Sample.empty_entry)
                Sample.march_1 Sample.march_31 [1%positive]).
Proof.
  split; [reflexivity|]. split; [reflexivity|]. discriminate.
Qed.

(** C7, where the code departs from it.  A record whose entry date is a
    number makes [filter_movements_by_date] raise [TypeError]: the test
    ["T" in movement_date_str] is inside the [try], and [TypeError] is not
    among the exceptions the [except] clause catches. *)
Theorem filter_raises_on_numeric_date (lib : DatetimeLib) :
  fst (filter_movements_by_date 2%positive Sample.march_1 Sample.march_31
         (Sample.world (Sample.one_movement Sample.numeric_entry) Sample.pdf_service))
  = Raise TypeError.
Proof. reflexivity. Qed.

(** A timestamp counts for the calendar date written in it, whatever its
    offset; a trailing [Z] is read as [+00:00]. *)
Lemma filter_takes_date_as_written :
  @filter_output CPython
    (Sample.world (Sample.one_movement Sample.past_midnight) Sample.pdf_service)
    2%positive Sample.march_1 Sample.march_31
  = Some [1%positive]
  /\ @filter_output CPython
       (Sample.world (Sample.one_movement Sample.zulu_entry) Sample.pdf_service)
       2%positive Sample.march_1 Sample.march_31
     = Some [1%positive].
Proof. split; reflexivity. Qed.

(** A date string that does not parse is skipped and nothing is raised. *)
Lemma filter_skips_garbled_date :
  @filter_output CPython
    (Sample.world (Sample.one_movement Sample.garbled_entry) Sample.pdf_service)
    2%positive Sample.march_1 Sample.march_31
  = Some [].
Proof. reflexivity. Qed.

(** C9. The list that [filter_movements_by_date] returns is a new list
    whose elements are input records themselves, in the order of the input:
    a subsequence of the input references, and every object that existed
    before the call is unchanged. *)
Theorem filter_movements_by_date_subsequence {lib : DatetimeLib}
    (st st' : state) (movements out : loc) (start_date end_date : date)
    (ms : list loc) :
  heap st !! movements = Some (OList ms) ->
  filter_movements_by_date movements start_date end_date st = (Ok out, st') ->
  exists kept,
    heap st' !! out = Some (OList kept)
    /\ sublist kept ms
    /\ heap st !! out = None
    /\ (forall l o, heap st !! l = Some o -> heap st' !! l = Some o).
Proof.
  intros Hlist Hrun.
  set (out0 := fresh (dom (heap st))).
  assert (Hfresh : heap st !! out0 = None).
  { apply not_elem_of_dom. apply is_fresh. }
  set (st1 := set_heap (<[out0 := OList []]> (heap st)) st).
  unfold filter_movements_by_date in Hrun.
  rewrite (bind_ok _ _ st st1 out0) in Hrun by reflexivity.
  unfold iter_movements in Hrun.
  assert (Hread : read movements st1 = (Ok (OList ms), st1)).
  { unfold read, st1. simpl. rewrite lookup_insert_ne by congruence.
    now rewrite Hlist. }
  unfold bind at 1 in Hrun. rewrite (bind_ok _ _ _ _ _ Hread) in Hrun.
  destruct (filter_loop_sublist start_date end_date out0 ms st1 [])
    as (kept & Hsub & Hst).
  { simpl. apply lookup_insert_eq. }
  destruct (filter_loop start_date end_date out0 ms st1) as [[[]|e] st2];
    [|discriminate].
  simpl in Hst. unfold ret in Hrun. injection Hrun as <- <-.
  exists kept. subst st2. unfold st1. simpl. rewrite insert_insert_eq.
  split; [apply lookup_insert_eq|]. split; [exact Hsub|]. split; [exact Hfresh|].
  intros l o Hl. rewrite lookup_insert_ne by congruence. exact Hl.
Qed.

Lemma filter_movements_by_date_subsequence_witness :
  exists kept,
    heap (snd (@filter_movements_by_date CPython 3%positive Sample.march_1
                 Sample.march_31
                 (Sample.world Sample.two_movements Sample.pdf_service)))
      !! 4%positive = Some (OList kept)
    /\ sublist kept [1%positive; 2%positive]
    /\ heap (Sample.world Sample.two_movements Sample.pdf_service) !! 4%positive
       = None
    /\ (forall l o,
          heap (Sample.world Sample.two_movements Sample.pdf_service) !! l = Some o ->
          heap (snd (@filter_movements_by_date CPython 3%positive Sample.march_1
                       Sample.march_31
                       (Sample.world Sample.two_movements Sample.pdf_service)))
            !! l = Some o).
Proof.
  apply (@filter_movements_by_date_subsequence CPython
           (Sample.world Sample.two_movements Sample.pdf_service)
           _ 3%positive 4%positive Sample.march_1 Sample.march_31
           [1%positive; 2%positive]).
  - reflexivity.
  - reflexivity.
Defined.

(** ** Pagination *)

Lemma fetch_movements_run (offset limit : Z) (interval order_by payment_status : string)
    (st : state) :
  fetch_movements offset limit interval order_by payment_status st
  = (page_outcome (next_reply st),
     after_request st
       (movements_request (self st) (uuids st (drawn st)) offset limit interval
          order_by payment_status)).
Proof.
  unfold fetch_movements, _get_headers, _get_cookies, bind, uuid4, get_self,
    requests_send, raise_for_status, response_json, lift_value, ret, raise,
    page_outcome, next_reply, after_request, movements_request.
  simpl. destruct (net st (length (sent st))) as [|resp]; simpl; [reflexivity|].
  destruct ((400 <=? status_code resp) && (status_code resp <? 600)); simpl;
    [reflexivity|].
  destruct (resp_json resp); reflexivity.
Qed.

Lemma replies_from_after (st : state) (r : request) (n : nat) :
  replies_from st (S n) = next_reply st :: replies_from (after_request st r) n.
Proof.
  unfold replies_from, next_reply, after_request. simpl.
  rewrite length_app. simpl. now rewrite Nat.add_1_r.
Qed.

Lemma next_reply_after (st : state) (r : request) (i : nat) :
  net (after_request st r) (length (sent (after_request st r)) + i)
  = net st (length (sent st) + S i).
Proof.
  unfold after_request. simpl. rewrite length_app. simpl. f_equal. lia.
Qed.

Lemma page_offsets_S (first b : Z) (n : nat) :
  page_offsets first b (S n) = first :: page_offsets (first + b) b n.
Proof.
  unfold page_offsets. simpl. f_equal; [lia|].
  rewrite <- seq_shift, map_map. apply map_ext. intros i. lia.
Qed.

(** A falsy [listaMovimenti] has no records. *)
Lemma falsy_no_items (v : json) :
  truthy v = false ->
  match py_iter v with Ok items => items | Raise _ => [] end = [].
Proof.
  destruct v as [|b|z|m e|s|l|o]; simpl; try reflexivity.
  - destruct s; [reflexivity|discriminate].
  - destruct l; [reflexivity|discriminate].
  - destruct o; [reflexivity|discriminate].
Qed.

Lemma py_len_iter (v : json) (items : list json) :
  py_iter v = Ok items -> py_len v = Ok (Z.of_nat (length items)).
Proof.
  destruct v as [|b|z|m e|s|l|o]; simpl; try discriminate; intros [= <-].
  - rewrite length_map. f_equal. f_equal.
    induction s as [|c s IH]; simpl; auto.
  - reflexivity.
  - now rewrite length_map.
Qed.

(** The records of a reply that [fetch_movements] returned. *)
Lemma page_outcome_records (r : reply) (o : dict) :
  page_outcome r = Ok (JObj o) ->
  page_records r
  = match dict_get "listaMovimenti" o with
    | Some v => match py_iter v with Ok items => items | Raise _ => [] end
    | None => []
    end.
Proof.
  unfold page_outcome, page_records. destruct r as [|resp]; [discriminate|].
  destruct (_ && _); [discriminate|].
  destruct (resp_json resp) as [j|]; [|discriminate].
  now intros [= ->].
Qed.

(** The loop, whenever it returns: the result is what the loop started with
    followed by the records of the pages it fetched, in order. *)
Lemma fetch_all_loop_concat (b : Z) (interval : string) (fuel : nat) :
  forall (acc : list json) (offset : Z) (st st' : state) (res : list json),
    fetch_all_loop fuel b interval acc offset st = (Ok (Some res), st') ->
    exists reqs,
      sent st' = sent st ++ reqs
      /\ net st' = net st
      /\ res = acc ++ concat (map page_records (replies_from st (length reqs))).
Proof.
  induction fuel as [|fuel IH]; intros acc offset st st' res Hrun; [discriminate|].
  simpl in Hrun. unfold bind at 1 in Hrun. rewrite fetch_movements_run in Hrun.
  set (req := movements_request _ _ _ _ _ _ _) in Hrun.
  destruct (page_outcome (next_reply st)) as [response|e] eqn:Hpage; [|discriminate].
  destruct response as [| | | | | |o]; try discriminate.
  pose proof (page_outcome_records _ _ Hpage) as Hrecords.
  unfold bind at 1 in Hrun. simpl in Hrun.
  destruct (truthy (default (JArr []) (dict_get "listaMovimenti" o))) eqn:Htruthy;
    simpl in Hrun.
  - unfold list_extend in Hrun. unfold bind at 1 2 in Hrun. unfold lift at 1 in Hrun.
    destruct (dict_get "listaMovimenti" o) as [v|] eqn:Hget; [|discriminate].
    simpl in Htruthy, Hrun.
    destruct (py_iter v) as [items|e] eqn:Hiter; [|discriminate].
    simpl in Hrun. unfold bind at 1 in Hrun. unfold lift in Hrun.
    rewrite (py_len_iter _ _ Hiter) in Hrun.
    destruct (Z.of_nat (length items) <? b).
    + injection Hrun as <- <-. exists [req].
      split; [reflexivity|]. split; [reflexivity|].
      simpl length. rewrite (replies_from_after st req 0). simpl.
      now rewrite Hrecords, app_nil_r.
    + destruct (IH _ _ _ _ _ Hrun) as (reqs & Hsent & Hnet & Hres).
      exists (req :: reqs). split; [|split].
      * rewrite Hsent. unfold after_request. simpl. now rewrite <- app_assoc.
      * rewrite Hnet. reflexivity.
      * simpl length. rewrite (replies_from_after st req). simpl.
        rewrite Hrecords, Hres. now rewrite <- app_assoc.
  - injection Hrun as <- <-. exists [req].
    split; [reflexivity|]. split; [reflexivity|].
    simpl length. rewrite (replies_from_after st req 0). simpl.
    rewrite Hrecords. rewrite !app_nil_r.
    destruct (dict_get "listaMovimenti" o) as [v|]; [|now rewrite app_nil_r].
    simpl in Htruthy. rewrite (falsy_no_items v) by now destruct (truthy v).
    now rewrite app_nil_r.
Qed.

(** C3. Whenever [fetch_all_movements] returns, the list it returns is the
    concatenation, in order, of the [listaMovimenti] arrays of the pages it
    fetched, the last one included; so its length is the sum of the record
    counts of those pages. *)
Theorem fetch_all_movements_concatenates_pages
    (fuel : nat) (batch_size : Z) (interval : string) (st st' : state)
    (res : list json) :
  fetch_all_movements fuel batch_size interval st = (Ok (Some res), st') ->
  let pages := replies_from st (length (requests_since st st')) in
  res = concat (map page_records pages)
  /\ length res = list_sum (map (fun p => length (page_records p)) pages).
Proof.
  intros Hrun.
  destruct (fetch_all_loop_concat _ _ _ _ _ _ _ _ Hrun) as (reqs & Hsent & _ & Hres).
  unfold requests_since. rewrite Hsent, drop_app_length. simpl in Hres.
  split; [exact Hres|].
  rewrite Hres, length_concat, map_map. reflexivity.
Qed.

Lemma fetch_all_movements_concatenates_pages_witness :
  let st := Sample.world ∅ Sample.paged_service in
  let run := fetch_all_movements 5 2 "ULTIMO_ANNO" st in
  [JObj Sample.march_5; JObj Sample.april_1; JObj Sample.empty_entry]
  = concat (map page_records (replies_from st (length (requests_since st (snd run)))))
  /\ length [JObj Sample.march_5; JObj Sample.april_1; JObj Sample.empty_entry]
     = list_sum (map (fun p => length (page_records p))
                   (replies_from st (length (requests_since st (snd run))))).
Proof.
  intros st run.
  apply (fetch_all_movements_concatenates_pages 5 2 "ULTIMO_ANNO" st (snd run)).
  reflexivity.
Defined.

(** A page gives [fetch_movements] an object whose [listaMovimenti], or the
    default for it, is the array of its records. *)
Lemma page_outcome_page (r : reply) :
  is_page r ->
  exists o,
    page_outcome r = Ok (JObj o)
    /\ default (JArr []) (dict_get "listaMovimenti" o) = JArr (page_records r).
Proof.
  unfold is_page, page_outcome, page_records. destruct r as [|resp]; [tauto|].
  intros [-> Hbody].
  destruct (resp_json resp) as [[| | | | | |o]|]; try tauto.
  exists o. split; [reflexivity|].
  destruct (dict_get "listaMovimenti" o) as [[| | | | |l|]|]; try tauto; reflexivity.
Qed.

Section Pagination.
Variables (b : Z) (interval : string).
Hypothesis b_positive : 1 <= b.

(** One round of the loop on a page. *)
Lemma fetch_all_loop_page (fuel : nat) (acc : list json) (offset : Z) (st : state) :
  is_page (next_reply st) ->
  let recs := page_records (next_reply st) in
  let st1 :=
    after_request st
      (movements_request (self st) (uuids st (drawn st)) offset b interval
         "date-D" "0,1,3,4") in
  fetch_all_loop (S fuel) b interval acc offset st
  = match recs with
    | [] => (Ok (Some acc), st1)
    | _ :: _ =>
        if Z.of_nat (length recs) <? b then (Ok (Some (acc ++ recs)), st1)
        else fetch_all_loop fuel b interval (acc ++ recs) (offset + b) st1
    end.
Proof.
  intros Hpage recs st1.
  destruct (page_outcome_page _ Hpage) as (o & Hout & Hrecords).
  fold recs in Hrecords.
  simpl. unfold bind at 1. rewrite fetch_movements_run, Hout. fold st1.
  unfold bind at 1. simpl. rewrite Hrecords.
  destruct recs as [|x recs']; [reflexivity|].
  unfold list_extend, bind, lift, ret. simpl.
  destruct (_ <? b); reflexivity.
Qed.

(** As long as the pages are full the loop goes on, one request a round
    at offsets that grow by [b]. *)
Lemma fetch_all_loop_running (fuel : nat) :
  forall (acc : list json) (offset : Z) (st : state),
    (forall i, (i < fuel)%nat -> full_page b (net st (length (sent st) + i))) ->
    exists st' reqs,
      fetch_all_loop fuel b interval acc offset st = (Ok None, st')
      /\ sent st' = sent st ++ reqs
      /\ map (int_param "offset") reqs = map Some (page_offsets offset b fuel)
      /\ Forall (fun r => int_param "limite" r = Some b) reqs.
Proof.
  induction fuel as [|fuel IH]; intros acc offset st Hfull.
  - exists st, []. simpl. rewrite app_nil_r. repeat split. constructor.
  - destruct (Hfull 0%nat ltac:(lia)) as [Hpage Hlen].
    rewrite Nat.add_0_r in Hpage, Hlen. fold (next_reply st) in Hpage, Hlen.
    rewrite (fetch_all_loop_page fuel acc offset st Hpage).
    set (req := movements_request _ _ _ _ _ _ _).
    destruct (page_records (next_reply st)) as [|x recs] eqn:Hrecs;
      [simpl in Hlen; lia|].
    destruct (Z.of_nat (length (x :: recs)) <? b) eqn:Hlt;
      [apply Z.ltb_lt in Hlt; lia|].
    destruct (IH (acc ++ x :: recs) (offset + b) (after_request st req))
      as (st' & reqs & Hrun & Hsent & Hoff & Hlim).
    { intros i Hi. rewrite next_reply_after. apply Hfull. lia. }
    exists st', (req :: reqs). split; [exact Hrun|]. split; [|split].
    + rewrite Hsent. unfold after_request. simpl. now rewrite <- app_assoc.
    + rewrite page_offsets_S. simpl. now rewrite Hoff.
    + constructor; [reflexivity|exact Hlim].
Qed.

(** The first page that is not full ends the loop. *)
Lemma fetch_all_loop_stops (k : nat) :
  forall (fuel : nat) (acc : list json) (offset : Z) (st : state),
    (forall i, (i < k)%nat -> full_page b (net st (length (sent st) + i))) ->
    short_page b (net st (length (sent st) + k)) ->
    (k < fuel)%nat ->
    exists res st' reqs,
      fetch_all_loop fuel b interval acc offset st = (Ok (Some res), st')
      /\ sent st' = sent st ++ reqs
      /\ map (int_param "offset") reqs = map Some (page_offsets offset b (S k))
      /\ Forall (fun r => int_param "limite" r = Some b) reqs.
Proof.
  induction k as [|k IH]; intros fuel acc offset st Hfull Hshort Hfuel;
    (destruct fuel as [|fuel]; [lia|]).
  - destruct Hshort as [Hpage Hlen].
    rewrite Nat.add_0_r in Hpage, Hlen. fold (next_reply st) in Hpage, Hlen.
    rewrite (fetch_all_loop_page fuel acc offset st Hpage).
    set (req := movements_request _ _ _ _ _ _ _).
    assert (Hoffsets : map (int_param "offset") [req]
                       = map Some (page_offsets offset b 1)).
    { unfold page_offsets, req, int_param. simpl. do 2 f_equal. lia. }
    destruct (page_records (next_reply st)) as [|x recs] eqn:Hrecs.
    + exists acc, (after_request st req), [req].
      split; [reflexivity|]. split; [reflexivity|]. split; [exact Hoffsets|].
      repeat constructor.
    + destruct (Z.of_nat (length (x :: recs)) <? b) eqn:Hlt;
        [|apply Z.ltb_ge in Hlt; lia].
      exists (acc ++ x :: recs), (after_request st req), [req].
      split; [reflexivity|]. split; [reflexivity|]. split; [exact Hoffsets|].
      repeat constructor.
  - destruct (Hfull 0%nat ltac:(lia)) as [Hpage Hlen].
    rewrite Nat.add_0_r in Hpage, Hlen. fold (next_reply st) in Hpage, Hlen.
    rewrite (fetch_all_loop_page fuel acc offset st Hpage).
    set (req := movements_request _ _ _ _ _ _ _).
    destruct (page_records (next_reply st)) as [|x recs] eqn:Hrecs;
      [simpl in Hlen; lia|].
    destruct (Z.of_nat (length (x :: recs)) <? b) eqn:Hlt;
      [apply Z.ltb_lt in Hlt; lia|].
    destruct (IH fuel (acc ++ x :: recs) (offset + b) (after_request st req))
      as (res & st' & reqs & Hrun & Hsent & Hoff & Hlim).
    { intros i Hi. rewrite next_reply_after. apply Hfull. lia. }
    { rewrite next_reply_after. exact Hshort. }
    { lia. }
    exists res, st', (req :: reqs). split; [exact Hrun|]. split; [|split].
    + rewrite Hsent. unfold after_request. simpl. now rewrite <- app_assoc.
    + rewrite (page_offsets_S offset b (S k)). simpl. now rewrite Hoff.
    + constructor; [reflexivity|exact Hlim].
Qed.

End Pagination.

Lemma full_or_short (b : Z) (r : reply) :
  is_page r -> full_page b r \/ short_page b r.
Proof.
  intros Hpage. unfold full_page, short_page.
  destruct (Z.le_gt_cases b (Z.of_nat (length (page_records r)))); [left|right];
    split; auto; lia.
Qed.

(** Among pages, before a short one there is a first short one. *)
Lemma first_short_page (b : Z) (p : nat -> reply) (n : nat) :
  (forall i, (i < n)%nat -> is_page (p i)) ->
  (forall i, (i < n)%nat -> full_page b (p i))
  \/ exists k, (k < n)%nat /\ short_page b (p k)
               /\ forall i, (i < k)%nat -> full_page b (p i).
Proof.
  induction n as [|n IH]; intros Hpages.
  - left. intros i Hi. lia.
  - destruct IH as [Hfull|(k & Hk & Hshort & Hfull)].
    + intros i Hi. apply Hpages. lia.
    + destruct (full_or_short b (p n)) as [Hn|Hn]; [apply Hpages; lia| |].
      * left. intros i Hi.
        destruct (Nat.eq_dec i n) as [->|Hne]; [exact Hn|apply Hfull; lia].
      * right. exists n. split; [lia|]. split; [exact Hn|exact Hfull].
    + right. exists k. split; [lia|]. split; [exact Hshort|exact Hfull].
Qed.

(** C2. With a batch size [b >= 1], [fetch_all_movements] asks for the
    pages at offsets [1, 1+b, 1+2b, ...], [b] records at a time.  While the
    pages come back with at least [b] records it goes on, and it returns on
    the first page with an empty [listaMovimenti] or fewer than [b] records:
    if page [k] is the first such page, the method returns after exactly
    [k+1] requests.  So when some page is short or empty, the method
    returns. *)
Theorem fetch_all_movements_pagination
    (batch_size : Z) (interval : string) (st : state) :
  1 <= batch_size ->
  (forall fuel,
      (forall i, (i < fuel)%nat ->
                 full_page batch_size (net st (length (sent st) + i))) ->
      exists st',
        fetch_all_movements fuel batch_size interval st = (Ok None, st')
        /\ map (int_param "offset") (requests_since st st')
           = map Some (page_offsets 1 batch_size fuel))
  /\ (forall k fuel,
        (forall i, (i < k)%nat ->
                   full_page batch_size (net st (length (sent st) + i))) ->
        short_page batch_size (net st (length (sent st) + k)) ->
        (k < fuel)%nat ->
        exists res st',
          fetch_all_movements fuel batch_size interval st = (Ok (Some res), st')
          /\ map (int_param "offset") (requests_since st st')
             = map Some (page_offsets 1 batch_size (S k))
          /\ Forall (fun r => int_param "limite" r = Some batch_size)
               (requests_since st st'))
  /\ (forall j,
        (forall i, (i <= j)%nat -> is_page (net st (length (sent st) + i))) ->
        short_page batch_size (net st (length (sent st) + j)) ->
        exists fuel res st',
          fetch_all_movements fuel batch_size interval st = (Ok (Some res), st')).
Proof.
  intros Hb.
  assert (Hstops : forall k fuel,
             (forall i, (i < k)%nat ->
                        full_page batch_size (net st (length (sent st) + i))) ->
             short_page batch_size (net st (length (sent st) + k)) ->
             (k < fuel)%nat ->
             exists res st',
               fetch_all_movements fuel batch_size interval st = (Ok (Some res), st')
               /\ map (int_param "offset") (requests_since st st')
                  = map Some (page_offsets 1 batch_size (S k))
               /\ Forall (fun r => int_param "limite" r = Some batch_size)
                    (requests_since st st')).
  { intros k fuel Hfull Hshort Hfuel.
    destruct (fetch_all_loop_stops batch_size interval Hb k fuel [] 1 st
                Hfull Hshort Hfuel)
      as (res & st' & reqs & Hrun & Hsent & Hoff & Hlim).
    exists res, st'. split; [exact Hrun|].
    unfold requests_since. rewrite Hsent, drop_app_length. now split. }
  split; [|split; [exact Hstops|]].
  - intros fuel Hfull.
    destruct (fetch_all_loop_running batch_size interval Hb fuel [] 1 st Hfull)
      as (st' & reqs & Hrun & Hsent & Hoff & _).
    exists st'. split; [exact Hrun|].
    unfold requests_since. now rewrite Hsent, drop_app_length.
  - intros j Hpages Hshort.
    destruct (first_short_page batch_size
                (fun i => net st (length (sent st) + i)) (S j))
      as [Hfull|(k & Hk & Hks & Hfull)].
    + intros i Hi. apply Hpages. lia.
    + destruct (Hfull j ltac:(lia)) as [_ Hge]. destruct Hshort as [_ Hlt]. lia.
    + destruct (Hstops k (S k) Hfull Hks ltac:(lia)) as (res & st' & Hrun & _).
      exists (S k), res, st'. exact Hrun.
Qed.

Lemma fetch_all_movements_pagination_witness :
  exists res st',
    fetch_all_movements 5 2 "ULTIMO_ANNO" (Sample.world ∅ Sample.paged_service)
    = (Ok (Some res), st')
    /\ map (int_param "offset")
         (requests_since (Sample.world ∅ Sample.paged_service) st')
       = map Some (page_offsets 1 2 2)
    /\ Forall (fun r => int_param "limite" r = Some 2)
         (requests_since (Sample.world ∅ Sample.paged_service) st').
Proof.
  apply (proj1 (proj2 (fetch_all_movements_pagination 2 "ULTIMO_ANNO"
                         (Sample.world ∅ Sample.paged_service) ltac:(lia)))
           1%nat 5%nat).
  - intros i Hi. assert (i = 0%nat) as -> by lia.
    split; [split; [reflexivity|exact I]|simpl; lia].
  - split; [split; [reflexivity|exact I]|simpl; lia].
  - lia.
Defined.

(** * More properties *)

(** ** The constructor *)

Lemma config_entry_found (cfg : json) (section key : string) (v : json) (st : state) :
  config_lookup cfg section key = Some v ->
  config_entry cfg section key st = (Ok v, st).
Proof.
  unfold config_lookup, config_entry, bind, lift, py_getitem.
  destruct cfg as [| | | | | |o]; try discriminate.
  destruct (dict_get "apiConnect" o) as [[| | | | | |api]|]; try discriminate.
  destruct (dict_get section api) as [[| | | | | |headers]|]; try discriminate.
  now intros ->.
Qed.

Lemma config_entry_missing (cfg : json) (section key : string) (st : state) :
  config_lookup cfg section key = None ->
  exists e, config_entry cfg section key st = (Raise e, st).
Proof.
  unfold config_lookup, config_entry, bind, lift, py_getitem.
  destruct cfg as [| | | | | |o]; eauto.
  destruct (dict_get "apiConnect" o) as [[| | | | | |api]|]; eauto.
  destruct (dict_get section api) as [[| | | | | |headers]|]; eauto.
  intros ->. eauto.
Qed.

(** The state after the first two steps of the constructor. *)
Lemma init_prefix (session_id : option string) (st : state) :
  let sid := default (uuids st (drawn st)) (given_session_id session_id) in
  let st1 :=
    set_sent (sent st ++ [mkrequest GET (BASE_URL ++ ENV_ENDPOINT) [] [] [] NoBody])
      (set_drawn (match given_session_id session_id with
                  | Some _ => drawn st
                  | None => S (drawn st)
                  end) st) in
  forall (k : string -> response -> M instance),
    (let* sid :=
       match session_id with
       | Some s => if String.eqb s "" then uuid4 else ret s
       | None => uuid4
       end in
     let* response :=
       requests_send (mkrequest GET (BASE_URL ++ ENV_ENDPOINT) [] [] [] NoBody) in
     k sid response) st
    = match next_reply st with
      | Reply resp => k sid resp st1
      | NoReply => (Raise ConnectionError, st1)
      end.
Proof.
  intros sid st1 k. unfold sid, st1, given_session_id, next_reply.
  destruct session_id as [s|]; [destruct (String.eqb s "")|];
    unfold bind, uuid4, ret, requests_send; simpl;
    destruct (net st (length (sent st))); try reflexivity;
    destruct st; reflexivity.
Qed.

(** The constructor on a complete configuration document. *)
Lemma init_run
    (st : state) (contract_id : string)
    (mrh_session last_mrh_session session_id : option string)
    (resp : response) (cfg v1 v2 v3 v4 : json) :
  next_reply st = Reply resp ->
  resp_json resp = Some cfg ->
  config_lookup cfg "headers_ut_prv_mobility_service" "x-ibm-client-id" = Some v1 ->
  config_lookup cfg "headers_ut_prv_mobility_service" "x-ibm-client-secret" = Some v2 ->
  config_lookup cfg "headers_us" "x-ibm-client-id" = Some v3 ->
  config_lookup cfg "headers_us" "x-ibm-client-secret" = Some v4 ->
  let run := __init__ contract_id mrh_session last_mrh_session session_id st in
  fst run
  = Ok (mkinstance contract_id mrh_session last_mrh_session
          (default (uuids st (drawn st)) (given_session_id session_id))
          v1 v2 v3 v4)
  /\ requests_since st (snd run)
     = [mkrequest GET (BASE_URL ++ ENV_ENDPOINT) [] [] [] NoBody]
  /\ drawn (snd run)
     = match given_session_id session_id with
       | Some _ => drawn st
       | None => S (drawn st)
       end.
Proof.
  intros Hreply Hjson H1 H2 H3 H4 run. unfold run, __init__.
  rewrite init_prefix, Hreply.
  unfold response_json. rewrite Hjson. unfold lift_value.
  rewrite (bind_ok _ _ _ _ cfg) by reflexivity.
  rewrite (bind_ok _ _ _ _ _ (config_entry_found _ _ _ _ _ H1)).
  rewrite (bind_ok _ _ _ _ _ (config_entry_found _ _ _ _ _ H2)).
  rewrite (bind_ok _ _ _ _ _ (config_entry_found _ _ _ _ _ H3)).
  rewrite (bind_ok _ _ _ _ _ (config_entry_found _ _ _ _ _ H4)).
  unfold ret, requests_since. simpl. rewrite drop_app_length. auto.
Qed.

(** X1. When the configuration endpoint answers with a JSON document that
    has the four credentials under [apiConnect], the constructor returns an
    instance with the contract id and the cookies it was given, the four
    credentials of the document, and as session id the one it was given or,
    if that is missing or empty, a new UUID.  It makes one request, a plain
    GET of the configuration document, and the HTTP status of the answer is
    not looked at. *)
Theorem init_reads_configuration
    (st : state) (contract_id : string)
    (mrh_session last_mrh_session session_id : option string)
    (resp : response) (cfg v1 v2 v3 v4 : json) :
  next_reply st = Reply resp ->
  resp_json resp = Some cfg ->
  config_lookup cfg "headers_ut_prv_mobility_service" "x-ibm-client-id" = Some v1 ->
  config_lookup cfg "headers_ut_prv_mobility_service" "x-ibm-client-secret" = Some v2 ->
  config_lookup cfg "headers_us" "x-ibm-client-id" = Some v3 ->
  config_lookup cfg "headers_us" "x-ibm-client-secret" = Some v4 ->
  let run := __init__ contract_id mrh_session last_mrh_session session_id st in
  fst run
  = Ok (mkinstance contract_id mrh_session last_mrh_session
          (default (uuids st (drawn st)) (given_session_id session_id))
          v1 v2 v3 v4)
  /\ requests_since st (snd run)
     = [mkrequest GET (BASE_URL ++ ENV_ENDPOINT) [] [] [] NoBody]
  /\ drawn (snd run)
     = match given_session_id session_id with
       | Some _ => drawn st
       | None => S (drawn st)
       end.
Proof.
  intros Hreply Hjson H1 H2 H3 H4.
  exact (init_run st contract_id mrh_session last_mrh_session session_id resp cfg
           v1 v2 v3 v4 Hreply Hjson H1 H2 H3 H4).
Qed.

Lemma init_reads_configuration_witness :
  fst (__init__ "P000000000" None None None (Sample.world ∅ Demo.service))
  = Ok (mkinstance "P000000000" None None "uuid-0"
          (JStr "movements-id") (JStr "movements-secret")
          (JStr "pdf-id") (JStr "pdf-secret")).
Proof.
  apply (init_reads_configuration (Sample.world ∅ Demo.service) "P000000000"
           None None None (mkresponse 200 [] (Some Demo.configuration) [])
           Demo.configuration
           (JStr "movements-id") (JStr "movements-secret")
           (JStr "pdf-id") (JStr "pdf-secret"));
    reflexivity.
Defined.

(** X2. The constructor returns an instance exactly when the configuration
    endpoint answers with a JSON document in which all four credentials are
    found; otherwise it raises.  A document that is an object without the
    key [apiConnect] makes it raise [KeyError]. *)
Theorem init_succeeds_iff_configuration_complete
    (st : state) (contract_id : string)
    (mrh_session last_mrh_session session_id : option string) :
  let run := __init__ contract_id mrh_session last_mrh_session session_id st in
  ((exists i, fst run = Ok i)
   <-> exists cfg,
         config_of (next_reply st) = Some cfg
         /\ is_Some (config_lookup cfg "headers_ut_prv_mobility_service"
                       "x-ibm-client-id")
         /\ is_Some (config_lookup cfg "headers_ut_prv_mobility_service"
                       "x-ibm-client-secret")
         /\ is_Some (config_lookup cfg "headers_us" "x-ibm-client-id")
         /\ is_Some (config_lookup cfg "headers_us" "x-ibm-client-secret"))
  /\ (forall o, config_of (next_reply st) = Some (JObj o) ->
        dict_get "apiConnect" o = None -> fst run = Raise KeyError).
Proof.
  intros run. split; [split|].
  - intros [i Hi]. unfold run, __init__ in Hi. rewrite init_prefix in Hi.
    destruct (next_reply st) as [|resp] eqn:Hreply; [discriminate|].
    unfold response_json, lift_value in Hi.
    destruct (resp_json resp) as [cfg|] eqn:Hjson; [|discriminate].
    exists cfg. split; [exact Hjson|].
    rewrite (bind_ok _ _ _ _ cfg) in Hi by reflexivity.
    set (st1 := set_sent _ _) in Hi.
    destruct (config_lookup cfg "headers_ut_prv_mobility_service" "x-ibm-client-id")
      as [v1|] eqn:H1.
    2: { destruct (config_entry_missing _ _ _ st1 H1) as [e He].
         rewrite (bind_raise _ _ _ _ _ He) in Hi. discriminate. }
    rewrite (bind_ok _ _ _ _ _ (config_entry_found _ _ _ _ st1 H1)) in Hi.
    destruct (config_lookup cfg "headers_ut_prv_mobility_service"
                "x-ibm-client-secret") as [v2|] eqn:H2.
    2: { destruct (config_entry_missing _ _ _ st1 H2) as [e He].
         rewrite (bind_raise _ _ _ _ _ He) in Hi. discriminate. }
    rewrite (bind_ok _ _ _ _ _ (config_entry_found _ _ _ _ st1 H2)) in Hi.
    destruct (config_lookup cfg "headers_us" "x-ibm-client-id") as [v3|] eqn:H3.
    2: { destruct (config_entry_missing _ _ _ st1 H3) as [e He].
         rewrite (bind_raise _ _ _ _ _ He) in Hi. discriminate. }
    rewrite (bind_ok _ _ _ _ _ (config_entry_found _ _ _ _ st1 H3)) in Hi.
    destruct (config_lookup cfg "headers_us" "x-ibm-client-secret") as [v4|] eqn:H4.
    2: { destruct (config_entry_missing _ _ _ st1 H4) as [e He].
         rewrite (bind_raise _ _ _ _ _ He) in Hi. discriminate. }
    repeat split; eauto.
  - intros (cfg & Hcfg & [v1 H1] & [v2 H2] & [v3 H3] & [v4 H4]).
    unfold config_of in Hcfg.
    destruct (next_reply st) as [|resp] eqn:Hreply; [discriminate|].
    eexists.
    apply (init_run st contract_id mrh_session last_mrh_session
             session_id resp cfg v1 v2 v3 v4 Hreply Hcfg H1 H2 H3 H4).
  - intros o Hcfg Hmissing. unfold run, __init__. rewrite init_prefix.
    unfold config_of in Hcfg.
    destruct (next_reply st) as [|resp]; [discriminate|].
    unfold response_json. rewrite Hcfg. unfold lift_value.
    rewrite (bind_ok _ _ _ _ (JObj o)) by reflexivity.
    unfold config_entry, bind, lift, py_getitem. now rewrite Hmissing.
Qed.

Lemma init_succeeds_iff_configuration_complete_witness :
  fst (__init__ "P000000000" None None (Some "session-7")
         (Sample.world ∅ Demo.bare_service))
  = Raise KeyError.
Proof.
  apply (proj2 (init_succeeds_iff_configuration_complete
                  (Sample.world ∅ Demo.bare_service) "P000000000" None None
                  (Some "session-7")) []);
    reflexivity.
Defined.

(** ** More about login *)

(** The state a successful login leaves. *)
Lemma login_success (st : state) (username password : string) (resp : response)
    (v1 v2 : string) :
  next_reply st = Reply resp ->
  is_http_error resp = false ->
  jar_getitem "MRHSession" (resp_cookies resp) = Ok v1 ->
  jar_getitem "LastMRH_Session" (resp_cookies resp) = Ok v2 ->
  exists req,
    login username password st
    = (Ok true,
       set_self (mkclient (contract_id (self st)) (Some v1) (Some v2)
                   (session_id (self st)) (movements_client_id (self st))
                   (movements_client_secret (self st)) (pdf_client_id (self st))
                   (pdf_client_secret (self st)))
         (after_request st req))
    /\ req_method req = POST
    /\ req_url req = (BASE_URL ++ LOGIN_ENDPOINT)%string
    /\ req_body req = FormBody [("username", username); ("password", password)]
    /\ req_cookies req = []
    /\ header "x-ibm-client-id" (req_headers req) = None
    /\ header "x-ibm-client-secret" (req_headers req) = None.
Proof.
  intros Hreply Hstatus H1 H2.
  unfold next_reply in Hreply. unfold is_http_error in Hstatus.
  eexists. split.
  - unfold login, bind, uuid4, get_self, requests_send, raise_for_status, lift.
    simpl. rewrite Hreply. simpl. rewrite Hstatus. simpl.
    rewrite (jar_getitem_found _ _ _ H1), (jar_getitem_found _ _ _ H2). simpl.
    rewrite H1. simpl. rewrite H2. simpl. reflexivity.
  - repeat split; reflexivity.
Qed.

(** X3. When the login is answered without an HTTP error and the jar of
    the response has a value for each of the two cookies (for each name,
    one cookie with a value that is not empty, preceded at most by cookies
    of that name without a value), [login] returns [True] and stores the
    two values; every page request made afterwards carries exactly these
    two values as [MRHSession] and [LastMRH_Session], next to
    [isLogged=true]. *)
Theorem login_cookies_are_sent_with_requests
    (st : state) (username password : string) (resp : response) (v1 v2 : string)
    (offset limit : Z) (interval order_by payment_status : string) :
  next_reply st = Reply resp ->
  is_http_error resp = false ->
  usable_cookie "MRHSession" (resp_cookies resp) v1 ->
  usable_cookie "LastMRH_Session" (resp_cookies resp) v2 ->
  let st1 := snd (login username password st) in
  let st2 := snd (fetch_movements offset limit interval order_by payment_status st1) in
  fst (login username password st) = Ok true
  /\ mrh_session (self st1) = Some v1
  /\ last_mrh_session (self st1) = Some v2
  /\ map req_cookies (requests_since st1 st2)
     = [[ ("MRHSession", Some v1); ("LastMRH_Session", Some v2);
          ("isLogged", Some "true") ]].
Proof.
  intros Hreply Hstatus H1 H2 st1 st2.
  apply jar_getitem_usable in H1, H2.
  destruct (login_success st username password resp v1 v2 Hreply Hstatus H1 H2)
    as (req & Hrun & _).
  unfold st2, st1. rewrite Hrun. simpl.
  repeat split; try reflexivity.
  rewrite fetch_movements_run. unfold requests_since, after_request. simpl.
  rewrite drop_app_length. reflexivity.
Qed.

Lemma login_cookies_are_sent_with_requests_witness :
  let st := Sample.world ∅ Sample.login_service in
  let st1 := snd (login "user@example.com" "secret" st) in
  let st2 := snd (fetch_movements 1 100 "ULTIMO_ANNO" "date-D" "0,1,3,4" st1) in
  fst (login "user@example.com" "secret" st) = Ok true
  /\ mrh_session (self st1) = Some "abc"
  /\ last_mrh_session (self st1) = Some "def"
  /\ map req_cookies (requests_since st1 st2)
     = [[ ("MRHSession", Some "abc"); ("LastMRH_Session", Some "def");
          ("isLogged", Some "true") ]].
Proof.
  apply (login_cookies_are_sent_with_requests (Sample.world ∅ Sample.login_service)
           "user@example.com" "secret"
           (mkresponse 200 [("MRHSession", Some "abc"); ("LastMRH_Session", Some "def")]
              None [])
           "abc" "def" 1 100 "ULTIMO_ANNO" "date-D" "0,1,3,4");
    try reflexivity;
    (split; [discriminate|exists 0%nat; reflexivity]).
Defined.

(** X4. The login request is a POST of the form fields [username] and
    [password] to the login endpoint, with no cookie and without the
    [x-ibm-client-id] and [x-ibm-client-secret] headers, whatever the
    outcome.  When the answer has a 4xx or 5xx status, [login] raises
    [HTTPError] with that status, even if the answer sets both cookies, and
    when the transport fails it raises [ConnectionError]; in both cases the
    client is left as it was. *)
Theorem login_request_and_failures (st : state) (username password : string) :
  let run := login username password st in
  (exists req,
      requests_since st (snd run) = [req]
      /\ req_method req = POST
      /\ req_url req = (BASE_URL ++ LOGIN_ENDPOINT)%string
      /\ req_body req = FormBody [("username", username); ("password", password)]
      /\ req_cookies req = []
      /\ header "x-ibm-client-id" (req_headers req) = None
      /\ header "x-ibm-client-secret" (req_headers req) = None)
  /\ (forall resp, next_reply st = Reply resp -> is_http_error resp = true ->
        fst run = Raise (HTTPError (status_code resp)) /\ self (snd run) = self st)
  /\ (next_reply st = NoReply ->
      fst run = Raise ConnectionError /\ self (snd run) = self st).
Proof.
  intros run. unfold run, next_reply, is_http_error.
  unfold login, bind, uuid4, get_self, requests_send, raise_for_status, lift,
    requests_since.
  simpl. split; [|split].
  - eexists. split.
    + destruct (net st (length (sent st))) as [|resp]; simpl.
      { now rewrite drop_app_length. }
      destruct (_ && _); simpl.
      { now rewrite drop_app_length. }
      destruct (jar_contains "MRHSession" _ && _); simpl.
      * destruct (jar_getitem "MRHSession" _); simpl;
          [destruct (jar_getitem "LastMRH_Session" _); simpl|];
          now rewrite drop_app_length.
      * now rewrite drop_app_length.
    + repeat split; reflexivity.
  - intros resp -> Hstatus. simpl. rewrite Hstatus. simpl. auto.
  - intros ->. simpl. auto.
Qed.

Lemma login_request_and_failures_witness :
  fst (login "user@example.com" "secret" (Sample.world ∅ Demo.failing_service))
  = Raise (HTTPError 503)
  /\ self (snd (login "user@example.com" "secret"
                  (Sample.world ∅ Demo.failing_service)))
     = Sample.the_client.
Proof.
  apply (proj1 (proj2 (login_request_and_failures
                         (Sample.world ∅ Demo.failing_service)
                         "user@example.com" "secret"))
           (mkresponse 503 [("MRHSession", Some "abc"); ("LastMRH_Session", Some "def")]
              (Some (Sample.page [])) []));
    reflexivity.
Defined.

(** ** More about pagination *)

(** One round of the loop on a reply that [fetch_movements] raises on. *)
Lemma fetch_all_loop_failure (b : Z) (interval : string) (fuel : nat)
    (acc : list json) (offset : Z) (st : state) (e : exn) :
  page_outcome (next_reply st) = Raise e ->
  fetch_all_loop (S fuel) b interval acc offset st
  = (Raise e,
     after_request st
       (movements_request (self st) (uuids st (drawn st)) offset b interval
          "date-D" "0,1,3,4")).
Proof.
  intros Hout. simpl. unfold bind at 1. now rewrite fetch_movements_run, Hout.
Qed.

Lemma fetch_all_loop_aborts (b : Z) (interval : string) (e : exn) :
  1 <= b ->
  forall (k fuel : nat) (acc : list json) (offset : Z) (st : state),
    (forall i, (i < k)%nat -> full_page b (net st (length (sent st) + i))) ->
    page_outcome (net st (length (sent st) + k)) = Raise e ->
    (k < fuel)%nat ->
    exists st' reqs,
      fetch_all_loop fuel b interval acc offset st = (Raise e, st')
      /\ sent st' = sent st ++ reqs
      /\ length reqs = S k.
Proof.
  intros Hb. induction k as [|k IH]; intros fuel acc offset st Hfull Hbad Hfuel;
    (destruct fuel as [|fuel]; [lia|]).
  - rewrite Nat.add_0_r in Hbad. fold (next_reply st) in Hbad.
    rewrite (fetch_all_loop_failure _ _ _ _ _ _ _ Hbad).
    eexists _, [_]. repeat split.
  - destruct (Hfull 0%nat ltac:(lia)) as [Hpage Hlen].
    rewrite Nat.add_0_r in Hpage, Hlen. fold (next_reply st) in Hpage, Hlen.
    rewrite (fetch_all_loop_page b interval fuel acc offset st Hpage).
    set (req := movements_request _ _ _ _ _ _ _).
    destruct (page_records (next_reply st)) as [|x recs] eqn:Hrecs;
      [simpl in Hlen; lia|].
    destruct (Z.of_nat (length (x :: recs)) <? b) eqn:Hlt;
      [apply Z.ltb_lt in Hlt; lia|].
    destruct (IH fuel (acc ++ x :: recs) (offset + b) (after_request st req))
      as (st' & reqs & Hrun & Hsent & Hn).
    { intros i Hi. rewrite next_reply_after. apply Hfull. lia. }
    { rewrite next_reply_after. exact Hbad. }
    { lia. }
    exists st', (req :: reqs). split; [exact Hrun|]. split.
    + rewrite Hsent. unfold after_request. simpl. now rewrite <- app_assoc.
    + simpl. now rewrite Hn.
Qed.

(** X5. A failed page aborts the whole of [fetch_all_movements]: if, after
    [k] pages with at least [b] records each, the service answers with an
    HTTP error, does not answer, or answers with a body that is not JSON,
    the method raises that error after [k+1] requests and returns nothing
    of what the earlier pages held. *)
Theorem fetch_all_movements_aborts_on_failed_page
    (batch_size : Z) (interval : string) (st : state) (k fuel : nat) (e : exn) :
  1 <= batch_size ->
  (forall i, (i < k)%nat -> full_page batch_size (net st (length (sent st) + i))) ->
  page_outcome (net st (length (sent st) + k)) = Raise e ->
  (k < fuel)%nat ->
  let run := fetch_all_movements fuel batch_size interval st in
  fst run = Raise e /\ length (requests_since st (snd run)) = S k.
Proof.
  intros Hb Hfull Hbad Hfuel run.
  destruct (fetch_all_loop_aborts batch_size interval e Hb k fuel [] 1 st
              Hfull Hbad Hfuel) as (st' & reqs & Hrun & Hsent & Hn).
  unfold run, fetch_all_movements, requests_since. rewrite Hrun. simpl.
  now rewrite Hsent, drop_app_length.
Qed.

Lemma fetch_all_movements_aborts_on_failed_page_witness :
  let run := fetch_all_movements 10 2 "ULTIMO_ANNO"
               (Sample.world ∅ Demo.breaking_service) in
  fst run = Raise (HTTPError 502)
  /\ length (requests_since (Sample.world ∅ Demo.breaking_service) (snd run)) = 3%nat.
Proof.
  apply (fetch_all_movements_aborts_on_failed_page 2 "ULTIMO_ANNO"
           (Sample.world ∅ Demo.breaking_service) 2 10 (HTTPError 502)).
  - lia.
  - intros i Hi.
    assert (i = 0 \/ i = 1)%nat as [-> | ->] by lia;
      (split; [split; [reflexivity|exact I]|simpl; lia]).
  - reflexivity.
  - lia.
Defined.

(** With a batch size of zero or less no page is ever short: the loop goes
    on as long as the pages have records. *)
Lemma fetch_all_loop_nonpositive_running (b : Z) (interval : string) :
  b <= 0 ->
  forall (fuel : nat) (acc : list json) (offset : Z) (st : state),
    (forall i, (i < fuel)%nat -> nonempty_page (net st (length (sent st) + i))) ->
    exists st' reqs,
      fetch_all_loop fuel b interval acc offset st = (Ok None, st')
      /\ sent st' = sent st ++ reqs
      /\ map (int_param "offset") reqs = map Some (page_offsets offset b fuel).
Proof.
  intros Hb. induction fuel as [|fuel IH]; intros acc offset st Hpages.
  - exists st, []. simpl. rewrite app_nil_r. auto.
  - destruct (Hpages 0%nat ltac:(lia)) as [Hpage Hne].
    rewrite Nat.add_0_r in Hpage, Hne. fold (next_reply st) in Hpage, Hne.
    rewrite (fetch_all_loop_page b interval fuel acc offset st Hpage).
    set (req := movements_request _ _ _ _ _ _ _).
    destruct (page_records (next_reply st)) as [|x recs] eqn:Hrecs; [congruence|].
    destruct (Z.of_nat (length (x :: recs)) <? b) eqn:Hlt;
      [apply Z.ltb_lt in Hlt; lia|].
    destruct (IH (acc ++ x :: recs) (offset + b) (after_request st req))
      as (st' & reqs & Hrun & Hsent & Hoff).
    { intros i Hi. rewrite next_reply_after. apply Hpages. lia. }
    exists st', (req :: reqs). split; [exact Hrun|]. split.
    + rewrite Hsent. unfold after_request. simpl. now rewrite <- app_assoc.
    + rewrite page_offsets_S. simpl. now rewrite Hoff.
Qed.

Lemma fetch_all_loop_nonpositive_stops (b : Z) (interval : string) :
  b <= 0 ->
  forall (k fuel : nat) (acc : list json) (offset : Z) (st : state),
    (forall i, (i < k)%nat -> nonempty_page (net st (length (sent st) + i))) ->
    empty_page (net st (length (sent st) + k)) ->
    (k < fuel)%nat ->
    exists res st' reqs,
      fetch_all_loop fuel b interval acc offset st = (Ok (Some res), st')
      /\ sent st' = sent st ++ reqs
      /\ map (int_param "offset") reqs = map Some (page_offsets offset b (S k)).
Proof.
  intros Hb. induction k as [|k IH]; intros fuel acc offset st Hpages Hempty Hfuel;
    (destruct fuel as [|fuel]; [lia|]).
  - destruct Hempty as [Hpage Hnone].
    rewrite Nat.add_0_r in Hpage, Hnone. fold (next_reply st) in Hpage, Hnone.
    rewrite (fetch_all_loop_page b interval fuel acc offset st Hpage), Hnone.
    eexists acc, _, [_]. split; [reflexivity|]. split; [reflexivity|].
    unfold page_offsets, int_param. simpl. do 2 f_equal. lia.
  - destruct (Hpages 0%nat ltac:(lia)) as [Hpage Hne].
    rewrite Nat.add_0_r in Hpage, Hne. fold (next_reply st) in Hpage, Hne.
    rewrite (fetch_all_loop_page b interval fuel acc offset st Hpage).
    set (req := movements_request _ _ _ _ _ _ _).
    destruct (page_records (next_reply st)) as [|x recs] eqn:Hrecs; [congruence|].
    destruct (Z.of_nat (length (x :: recs)) <? b) eqn:Hlt;
      [apply Z.ltb_lt in Hlt; lia|].
    destruct (IH fuel (acc ++ x :: recs) (offset + b) (after_request st req))
      as (res & st' & reqs & Hrun & Hsent & Hoff).
    { intros i Hi. rewrite next_reply_after. apply Hpages. lia. }
    { rewrite next_reply_after. exact Hempty. }
    { lia. }
    exists res, st', (req :: reqs). split; [exact Hrun|]. split.
    + rewrite Hsent. unfold after_request. simpl. now rewrite <- app_assoc.
    + rewrite (page_offsets_S offset b (S k)). simpl. now rewrite Hoff.
Qed.

(** X6. With a batch size of zero or less, a page with records never ends
    [fetch_all_movements], however few records it has: the method goes on
    while the pages have records, asking at offsets [1, 1+b, 1+2b, ...]
    that do not advance, and returns only on the first page without
    records. *)
Theorem fetch_all_movements_nonpositive_batch
    (batch_size : Z) (interval : string) (st : state) :
  batch_size <= 0 ->
  (forall fuel,
      (forall i, (i < fuel)%nat ->
                 nonempty_page (net st (length (sent st) + i))) ->
      exists st',
        fetch_all_movements fuel batch_size interval st = (Ok None, st')
        /\ map (int_param "offset") (requests_since st st')
           = map Some (page_offsets 1 batch_size fuel))
  /\ (forall k fuel,
        (forall i, (i < k)%nat ->
                   nonempty_page (net st (length (sent st) + i))) ->
        empty_page (net st (length (sent st) + k)) ->
        (k < fuel)%nat ->
        exists res st',
          fetch_all_movements fuel batch_size interval st = (Ok (Some res), st')
          /\ map (int_param "offset") (requests_since st st')
             = map Some (page_offsets 1 batch_size (S k)))
  /\ (forall n, Forall (fun o => o <= 1) (page_offsets 1 batch_size n)).
Proof.
  intros Hb. split; [|split].
  - intros fuel Hpages.
    destruct (fetch_all_loop_nonpositive_running batch_size interval Hb fuel [] 1 st
                Hpages) as (st' & reqs & Hrun & Hsent & Hoff).
    exists st'. split; [exact Hrun|].
    unfold requests_since. now rewrite Hsent, drop_app_length.
  - intros k fuel Hpages Hempty Hfuel.
    destruct (fetch_all_loop_nonpositive_stops batch_size interval Hb k fuel [] 1 st
                Hpages Hempty Hfuel) as (res & st' & reqs & Hrun & Hsent & Hoff).
    exists res, st'. split; [exact Hrun|].
    unfold requests_since. now rewrite Hsent, drop_app_length.
  - intros n. unfold page_offsets. apply List.Forall_forall. intros o Hin.
    apply in_map_iff in Hin as (i & <- & _). nia.
Qed.

Lemma fetch_all_movements_nonpositive_batch_witness :
  exists res st',
    fetch_all_movements 10 0 "ULTIMO_ANNO" (Sample.world ∅ Demo.trickling_service)
    = (Ok (Some res), st')
    /\ map (int_param "offset")
         (requests_since (Sample.world ∅ Demo.trickling_service) st')
       = map Some (page_offsets 1 0 3).
Proof.
  apply (proj1 (proj2 (fetch_all_movements_nonpositive_batch 0 "ULTIMO_ANNO"
                         (Sample.world ∅ Demo.trickling_service) ltac:(lia)))
           2%nat 10%nat).
  - intros i Hi.
    assert (i = 0 \/ i = 1)%nat as [-> | ->] by lia;
      (split; [split; [reflexivity|exact I]|discriminate]).
  - split; [split; [reflexivity|exact I]|reflexivity].
  - lia.
Defined.

(** Whatever the service answers, the requests of the loop are page
    requests that differ in the offset and in the request id only. *)
Lemma fetch_all_loop_requests (b : Z) (interval : string) (fuel : nat) :
  forall (acc : list json) (offset : Z) (st st' : state)
         (r : result (option (list json))),
    fetch_all_loop fuel b interval acc offset st = (r, st') ->
    exists n,
      (n <= fuel)%nat
      /\ sent st'
         = sent st
           ++ map (fun i => movements_request (self st) (uuids st (drawn st + i)%nat)
                              (offset + Z.of_nat i * b) b interval "date-D" "0,1,3,4")
                  (seq 0 n)
      /\ drawn st' = (drawn st + n)%nat.
Proof.
  induction fuel as [|fuel IH]; intros acc offset st st' r Hrun.
  - injection Hrun as <- <-. exists 0%nat. simpl. rewrite app_nil_r.
    split; [lia|]. split; [reflexivity|lia].
  - set (req := movements_request (self st) (uuids st (drawn st)) offset b interval
                  "date-D" "0,1,3,4").
    assert (Hone : forall r0, (r0, after_request st req) = (r, st') ->
               exists n,
                 (n <= S fuel)%nat
                 /\ sent st'
                    = sent st
                      ++ map (fun i => movements_request (self st)
                                         (uuids st (drawn st + i)%nat)
                                         (offset + Z.of_nat i * b) b interval
                                         "date-D" "0,1,3,4") (seq 0 n)
                 /\ drawn st' = (drawn st + n)%nat).
    { intros r0 [= <- <-]. exists 1%nat. split; [lia|]. simpl.
      rewrite Nat.add_0_r, Z.add_0_r. split; [reflexivity|lia]. }
    simpl fetch_all_loop in Hrun. unfold bind at 1 in Hrun.
    rewrite fetch_movements_run in Hrun. fold req in Hrun.
    destruct (page_outcome (next_reply st)) as [response|e];
      [|exact (Hone _ Hrun)].
    unfold bind at 1, lift at 1 in Hrun.
    destruct (py_get response "listaMovimenti" (JArr [])) as [movements|e];
      [|exact (Hone _ Hrun)].
    destruct (negb (truthy movements)); [exact (Hone _ Hrun)|].
    unfold list_extend, bind, lift, ret in Hrun.
    destruct (py_iter movements) as [items|e]; [|exact (Hone _ Hrun)].
    destruct (py_len movements) as [n|e]; [|exact (Hone _ Hrun)].
    destruct (n <? b); [exact (Hone _ Hrun)|].
    destruct (IH _ _ _ _ _ Hrun) as (n' & Hn' & Hsent & Hdrawn).
    exists (S n'). split; [lia|]. split.
    + rewrite Hsent. unfold after_request at 1. simpl sent.
      rewrite <- app_assoc. f_equal. simpl. unfold req.
      rewrite Nat.add_0_r, Z.add_0_r. f_equal.
      rewrite <- seq_shift, map_map. apply map_ext. intros i.
      unfold after_request. simpl. f_equal; [f_equal|]; lia.
    + rewrite Hdrawn. unfold after_request. simpl. lia.
Qed.

(** X7. Whatever the service answers, the requests that
    [fetch_all_movements] makes are page requests for the same contract,
    with the same credentials, session id and cookies, limit [b], order
    [date-D] and payment states [0,1,3,4]; the [i]-th asks at offset
    [1 + i*b] and carries the [i]-th UUID drawn.  The method makes at most
    one request a round and draws one UUID for each. *)
Theorem fetch_all_movements_requests
    (fuel : nat) (batch_size : Z) (interval : string) (st : state) :
  let st' := snd (fetch_all_movements fuel batch_size interval st) in
  exists n,
    (n <= fuel)%nat
    /\ requests_since st st' = map (page_request st batch_size interval) (seq 0 n)
    /\ drawn st' = (drawn st + n)%nat.
Proof.
  intros st'.
  destruct (fetch_all_loop_requests batch_size interval fuel [] 1 st st'
              (fst (fetch_all_movements fuel batch_size interval st)))
    as (n & Hn & Hsent & Hdrawn).
  { unfold st', fetch_all_movements.
    now destruct (fetch_all_loop fuel batch_size interval [] 1 st). }
  exists n. split; [exact Hn|]. split; [|exact Hdrawn].
  unfold requests_since. rewrite Hsent, drop_app_length. reflexivity.
Qed.

(** After [k] pages that have records, at least [b] each, the loop is
    where it started, [k] rounds on: the records of these pages are
    accumulated, the offset has moved by [k] batches and the next reply is
    the one after these pages. *)
Lemma fetch_all_loop_after_full_pages (b : Z) (interval : string) :
  forall (k fuel : nat) (acc : list json) (offset : Z) (st : state),
    (forall i, (i < k)%nat ->
       full_page b (net st (length (sent st) + i))
       /\ page_records (net st (length (sent st) + i)) <> []) ->
    exists st',
      fetch_all_loop (k + fuel) b interval acc offset st
      = fetch_all_loop fuel b interval
          (acc ++ concat (map page_records (replies_from st k)))
          (offset + Z.of_nat k * b) st'
      /\ next_reply st' = net st (length (sent st) + k).
Proof.
  induction k as [|k IH]; intros fuel acc offset st Hfull.
  - exists st. simpl. rewrite app_nil_r, Z.add_0_r. split; [reflexivity|].
    unfold next_reply. now rewrite Nat.add_0_r.
  - destruct (Hfull 0%nat ltac:(lia)) as [[Hpage Hlen] Hsome].
    rewrite Nat.add_0_r in Hpage, Hlen, Hsome.
    fold (next_reply st) in Hpage, Hlen, Hsome.
    change (S k + fuel)%nat with (S (k + fuel)).
    rewrite (fetch_all_loop_page b interval (k + fuel) acc offset st Hpage).
    set (req := movements_request _ _ _ _ _ _ _).
    rewrite (replies_from_after st req k). simpl concat.
    destruct (page_records (next_reply st)) as [|x recs] eqn:Hrecs;
      [now destruct Hsome|].
    destruct (Z.of_nat (length (x :: recs)) <? b) eqn:Hlt;
      [apply Z.ltb_lt in Hlt; lia|].
    destruct (IH fuel (acc ++ x :: recs) (offset + b) (after_request st req))
      as (st' & Hrun & Hnext).
    { intros i Hi. rewrite next_reply_after. apply Hfull. lia. }
    exists st'. split.
    + rewrite Hrun. rewrite <- app_assoc. f_equal. lia.
    + rewrite Hnext. apply next_reply_after.
Qed.

(** X8. Pages that are not what the client expects, wherever they come:
    after [k] pages that have records, at least [batch_size] each ([k] may
    be zero, and [batch_size] is any number), a body that is
    JSON but not an object makes [fetch_all_movements] raise
    [AttributeError]; a [listaMovimenti] that is falsy ([null], [0], [""],
    [{}], [false]) ends the loop like an empty list, and the method returns
    the records of the [k] pages before; one that is truthy but cannot be
    iterated (a number, [true]) makes it raise [TypeError].  So the records
    of the pages before are in the result only when the method returns. *)
Theorem fetch_all_movements_unexpected_page
    (fuel k : nat) (batch_size : Z) (interval : string) (st : state) (j : json) :
  (forall i, (i < k)%nat ->
     full_page batch_size (net st (length (sent st) + i))
     /\ page_records (net st (length (sent st) + i)) <> []) ->
  page_outcome (net st (length (sent st) + k)) = Ok j ->
  (k < fuel)%nat ->
  let run := fetch_all_movements fuel batch_size interval st in
  (match j with JObj _ => False | _ => True end -> fst run = Raise AttributeError)
  /\ (forall o v, j = JObj o -> dict_get "listaMovimenti" o = Some v ->
        truthy v = false ->
        fst run = Ok (Some (concat (map page_records (replies_from st k)))))
  /\ (forall o v e, j = JObj o -> dict_get "listaMovimenti" o = Some v ->
        truthy v = true -> py_iter v = Raise e -> fst run = Raise TypeError).
Proof.
  intros Hfull Hout Hfuel run.
  destruct (fetch_all_loop_after_full_pages batch_size interval k (fuel - k) [] 1
              st Hfull) as (st' & Hpages & Hnext).
  replace (k + (fuel - k))%nat with fuel in Hpages by lia.
  destruct (fuel - k)%nat as [|rest] eqn:Hrest; [lia|].
  rewrite <- Hnext in Hout.
  assert (Hrun : forall (f : json -> M (option (list json))) offset,
             bind (fetch_movements offset batch_size interval "date-D" "0,1,3,4") f st'
             = f j (after_request st'
                      (movements_request (self st') (uuids st' (drawn st')) offset
                         batch_size interval "date-D" "0,1,3,4"))).
  { intros f offset. unfold bind. now rewrite fetch_movements_run, Hout. }
  unfold run, fetch_all_movements. rewrite Hpages. simpl. rewrite Hrun.
  split; [|split].
  - intros Hj. destruct j; try reflexivity. destruct Hj.
  - intros o v -> Hget Hv. unfold bind, lift. simpl. rewrite Hget. simpl.
    now rewrite Hv.
  - intros o v e -> Hget Hv Hiter. unfold bind, lift, list_extend, bind, lift.
    simpl. rewrite Hget. simpl. rewrite Hv. simpl.
    destruct v; simpl in Hiter; try discriminate; reflexivity.
Qed.

Lemma fetch_all_movements_unexpected_page_witness :
  fst (fetch_all_movements 5 2 "ULTIMO_ANNO" (Sample.world ∅ Demo.odd_service))
  = Ok (Some [JObj Sample.march_5; JObj Sample.april_1])
  /\ fst (fetch_all_movements 5 100 "ULTIMO_ANNO"
            (Sample.world ∅ (fun _ => Sample.ok_response (JArr []))))
     = Raise AttributeError.
Proof.
  split.
  - apply (proj1 (proj2 (fetch_all_movements_unexpected_page 5 1 2 "ULTIMO_ANNO"
                           (Sample.world ∅ Demo.odd_service)
                           (JObj [("listaMovimenti", JNull)])
                           ltac:(intros i Hi; assert (i = 0)%nat as -> by lia;
                                 split; [split; [split; [reflexivity|exact I]
                                                |simpl; lia]
                                        |discriminate])
                           eq_refl ltac:(lia)))
             [("listaMovimenti", JNull)] JNull);
      reflexivity.
  - apply (proj1 (fetch_all_movements_unexpected_page 5 0 100 "ULTIMO_ANNO"
                    (Sample.world ∅ (fun _ => Sample.ok_response (JArr [])))
                    (JArr []) ltac:(intros i Hi; lia) eq_refl ltac:(lia))).
    exact I.
Defined.

(** ** More about the report *)

(** What the service's reply makes of [generate_pdf_report] on a list of
    dictionaries: the result, and the file system afterwards. *)
Lemma generate_pdf_report_outcome
    (st : state) (movements : loc) (intestatario : string)
    (output_filename : option string) (ms : list loc) (ds : list dict) :
  heap st !! movements = Some (OList ms) ->
  dicts_at (heap st) ms ds ->
  let run := generate_pdf_report movements intestatario output_filename st in
  match next_reply st with
  | NoReply => fst run = Raise ConnectionError /\ files (snd run) = files st
  | Reply resp =>
      if is_http_error resp
      then fst run = Raise (HTTPError (status_code resp))
           /\ files (snd run) = files st
      else match output_filename with
           | Some name =>
               if String.eqb name ""
               then fst run = Ok (resp_content resp) /\ files (snd run) = files st
               else match disk st name (resp_content resp) with
                    | Written =>
                        fst run = Ok (resp_content resp)
                        /\ files (snd run) = <[name := resp_content resp]> (files st)
                    | Refused =>
                        fst run = Raise OSError /\ files (snd run) = files st
                    | Broken stored =>
                        fst run = Raise OSError
                        /\ files (snd run) = <[name := stored]> (files st)
                    end
           | None => fst run = Ok (resp_content resp) /\ files (snd run) = files st
           end
  end.
Proof.
  intros Hlist Hds run.
  assert (E : run = generate_pdf_report movements intestatario output_filename st)
    by reflexivity.
  clearbody run. unfold generate_pdf_report in E.
  rewrite (bind_ok _ _ st st (self st)) in E by reflexivity.
  set (out := fresh (dom (heap st))) in *.
  assert (Hfresh : heap st !! out = None).
  { apply not_elem_of_dom. apply is_fresh. }
  set (st1 := set_heap (<[out := OList []]> (heap st)) st).
  rewrite (bind_ok _ _ st st1 out) in E by reflexivity.
  assert (Hmono : forall l o, heap st !! l = Some o -> heap st1 !! l = Some o).
  { intros l o Hl. simpl. rewrite lookup_insert_ne by congruence. exact Hl. }
  destruct (pdf_loop_exact ms ds 0%nat st1 out [] []) as
    (st2 & copies & Hrun & Hsame & Hout & Hcopies).
  { eapply dicts_at_mono; [|exact Hds]. intros; now apply Hmono. }
  { simpl. apply lookup_insert_eq. }
  { constructor. }
  simpl in Hout, Hcopies.
  assert (Hiter : iter_movements movements (pdf_loop out 0) st1 = (Ok tt, st2)).
  { unfold iter_movements.
    rewrite (bind_ok _ _ st1 st1 (OList ms)); [exact Hrun|].
    unfold read. now rewrite (Hmono _ _ Hlist). }
  rewrite (bind_ok _ _ st1 st2 tt) in E by exact Hiter.
  assert (Hdump : forall st3, heap st3 = heap st2 ->
             dump_list out st3 = (Ok (map JObj (stamped 0 ds)), st3)).
  { intros st3 Hheap. unfold dump_list.
    rewrite (bind_ok _ _ st3 st3 (OList copies)).
    - apply dump_dicts_exact. now rewrite Hheap.
    - unfold read. now rewrite Hheap, Hout. }
  assert (Hst2 : sent st2 = sent st /\ net st2 = net st /\ files st2 = files st
                 /\ disk st2 = disk st).
  { unfold same_but_heap in Hsame. rewrite Hsame. repeat split. }
  destruct Hst2 as (Hsent & Hnet & Hfiles & Hdisk).
  unfold _get_headers, _get_cookies in E.
  unfold bind at 1 2 3 4 5 in E. unfold uuid4, get_self, ret in E. simpl in E.
  rewrite (bind_ok _ _ _ _ _ (Hdump (set_drawn (S (drawn st2)) st2) eq_refl)) in E.
  unfold bind, requests_send, raise_for_status, write_file, ret, raise in E.
  simpl in E. rewrite Hnet, Hsent in E.
  unfold next_reply, is_http_error.
  destruct (net st (length (sent st))) as [|resp]; simpl in E.
  { subst run. simpl. now rewrite Hfiles. }
  destruct ((400 <=? status_code resp) && (status_code resp <? 600)); simpl in E.
  { subst run. simpl. now rewrite Hfiles. }
  destruct output_filename as [name|]; simpl in E.
  - destruct (String.eqb name ""); simpl in E.
    + subst run. simpl. now rewrite Hfiles.
    + rewrite Hdisk in E.
      destruct (disk st name (resp_content resp)); simpl in E;
        subst run; simpl; now rewrite Hfiles.
  - subst run. simpl. now rewrite Hfiles.
Qed.



(** X10. On a list of dictionaries, when the service answers the report
    request with a 4xx or 5xx status, [generate_pdf_report] raises
    [HTTPError] with that status, and when the transport fails it raises
    [ConnectionError]; in both cases no file is written, even if a file
    name was given, and the body of the answer is not returned. *)
Theorem generate_pdf_report_failure_writes_nothing
    (st : state) (movements : loc) (intestatario : string)
    (output_filename : option string) (ms : list loc) (ds : list dict) :
  heap st !! movements = Some (OList ms) ->
  dicts_at (heap st) ms ds ->
  let run := generate_pdf_report movements intestatario output_filename st in
  (forall resp, next_reply st = Reply resp -> is_http_error resp = true ->
     fst run = Raise (HTTPError (status_code resp)) /\ files (snd run) = files st)
  /\ (next_reply st = NoReply ->
      fst run = Raise ConnectionError /\ files (snd run) = files st).
Proof.
  intros Hlist Hds.
  pose proof (generate_pdf_report_outcome st movements intestatario output_filename
                ms ds Hlist Hds) as H.
  simpl in *. split.
  - intros resp Hreply Hstatus. rewrite Hreply, Hstatus in H. exact H.
  - intros Hreply. rewrite Hreply in H. exact H.
Qed.

Lemma generate_pdf_report_failure_writes_nothing_witness :
  let st := Sample.world Sample.two_movements Demo.failing_service in
  let run := generate_pdf_report 3%positive "JOHN DOE" (Some "report.pdf") st in
  fst run = Raise (HTTPError 503) /\ files (snd run) = ∅.
Proof.
  apply (proj1 (generate_pdf_report_failure_writes_nothing
                  (Sample.world Sample.two_movements Demo.failing_service)
                  3%positive "JOHN DOE" (Some "report.pdf") [1%positive; 2%positive]
                  [Sample.march_5; Sample.april_1] eq_refl
                  ltac:(repeat constructor))
           (mkresponse 503 [("MRHSession", Some "abc"); ("LastMRH_Session", Some "def")]
              (Some (Sample.page [])) []));
    reflexivity.
Defined.

(** [str] of a number reads back as the number: two positions never get
    the same identifier. *)
Lemma py_str_inj (n n' : nat) : py_str n = py_str n' -> n = n'.
Proof.
  unfold py_str. intros H.
  assert (Hnonnil : forall k, Nat.to_uint k <> Decimal.Nil).
  { intros k Hk.
    pose proof (DecimalNat.Unsigned.to_of (Nat.to_uint k)) as E.
    rewrite DecimalNat.Unsigned.of_to, Hk in E.
    symmetry in E. revert E. apply DecimalFacts.unorm_nonnil. }
  assert (E : NilZero.uint_of_string (NilZero.string_of_uint (Nat.to_uint n))
              = NilZero.uint_of_string (NilZero.string_of_uint (Nat.to_uint n')))
    by now rewrite H.
  rewrite !NilZero.usu in E by apply Hnonnil.
  injection E as E. now apply DecimalNat.Unsigned.to_uint_inj.
Qed.

(** X11. The positional identifiers in the payload of
    [generate_pdf_report] are pairwise distinct: two entries with the same
    [id] are the same entry. *)
Theorem generate_pdf_report_ids_distinct
    (st : state) (movements : loc) (intestatario : string)
    (output_filename : option string) (ms : list loc) (ds : list dict) :
  heap st !! movements = Some (OList ms) ->
  dicts_at (heap st) ms ds ->
  exists entries,
    json_bodies_since st
      (snd (generate_pdf_report movements intestatario output_filename st))
    = [ JObj [ ("intestatario", JStr intestatario);
               ("listaMovimenti", JArr entries) ] ]
    /\ forall (i j : nat) (di dj : dict),
         entries !! i = Some (JObj di) ->
         entries !! j = Some (JObj dj) ->
         dict_get "id" di = dict_get "id" dj ->
         i = j.
Proof.
  intros Hlist Hds. exists (map JObj (stamped 0 ds)).
  split; [now apply generate_pdf_report_posts with (ms := ms)|].
  intros i j di dj Hi Hj Hid.
  assert (Hentry : forall k dk, map JObj (stamped 0 ds) !! k = Some (JObj dk) ->
             dict_get "id" dk = Some (JStr (py_str k))).
  { intros k dk Hk. rewrite list_lookup_fmap in Hk.
    destruct (ds !! k) as [d|] eqn:Hd.
    - pose proof (stamped_lookup ds 0 k d Hd) as E. unfold dict in *.
      rewrite E in Hk. simpl in Hk. injection Hk as <-. apply stamp_id.
    - apply lookup_ge_None in Hd.
      assert (Hnone : stamped 0 ds !! k = None).
      { apply lookup_ge_None. now rewrite stamped_length. }
      unfold dict in *. rewrite Hnone in Hk. discriminate. }
  rewrite (Hentry i di Hi), (Hentry j dj Hj) in Hid.
  injection Hid as Hid. now apply py_str_inj.
Qed.

Lemma generate_pdf_report_ids_distinct_witness :
  exists entries,
    json_bodies_since (Sample.world Demo.three_movements Sample.pdf_service)
      (snd (generate_pdf_report 4%positive "JOHN DOE" None
              (Sample.world Demo.three_movements Sample.pdf_service)))
    = [ JObj [ ("intestatario", JStr "JOHN DOE"); ("listaMovimenti", JArr entries) ] ]
    /\ forall (i j : nat) (di dj : dict),
         entries !! i = Some (JObj di) ->
         entries !! j = Some (JObj dj) ->
         dict_get "id" di = dict_get "id" dj ->
         i = j.
Proof.
  apply (generate_pdf_report_ids_distinct
           (Sample.world Demo.three_movements Sample.pdf_service)
           4%positive "JOHN DOE" None [1%positive; 2%positive; 3%positive]
           [Sample.march_5; Sample.april_1; Sample.empty_entry]).
  - reflexivity.
  - repeat constructor.
Defined.

(** The request log is out of reach of the heap and of the UUID
    generator. *)
Lemma sent_alloc (o : obj) : preserves sent (alloc o).
Proof. now intros st. Qed.

Lemma sent_write (l : loc) (o : obj) : preserves sent (write l o).
Proof. now intros st. Qed.

Lemma sent_uuid4 : preserves sent uuid4.
Proof. now intros st. Qed.

#[export] Hint Resolve sent_alloc sent_write sent_uuid4 : frame.

Lemma sent_pdf_loop (out : loc) (ms : list loc) :
  forall idx, preserves sent (pdf_loop out idx ms).
Proof.
  induction ms as [|m ms IH]; intros idx; simpl;
    unfold obj_copy, obj_setitem, list_append; frame; apply IH.
Qed.

Lemma sent_iter_movements (mv : loc) (body : list loc -> M unit) :
  (forall ms, preserves sent (body ms)) -> preserves sent (iter_movements mv body).
Proof. intros Hb. unfold iter_movements. frame; apply Hb. Qed.

Lemma sent_dump_dicts (ls : list loc) : preserves sent (dump_dicts ls).
Proof. induction ls as [|l ls IH]; simpl; frame; apply IH. Qed.

Lemma sent_dump_list (l : loc) : preserves sent (dump_list l).
Proof. unfold dump_list. frame; apply sent_dump_dicts. Qed.

Lemma self_dump_list (l : loc) : preserves self (dump_list l).
Proof. unfold dump_list. frame; apply self_dump_dicts. Qed.

Lemma requests_since_same (st st' : state) :
  sent st' = sent st -> requests_since st st' = [].
Proof. intros H. unfold requests_since. rewrite H. apply drop_all. Qed.

(** X12. Whatever its input and whatever the service answers,
    [generate_pdf_report] makes at most one request, and none unless every
    movement was copied and stamped.  The request is a POST to the report
    endpoint of the contract, with the credentials of the report API, the
    session id and the session cookies of the client. *)
Theorem generate_pdf_report_one_request
    (st : state) (movements : loc) (intestatario : string)
    (output_filename : option string) :
  let run := generate_pdf_report movements intestatario output_filename st in
  (requests_since st (snd run) = []
   /\ exists e, fst run = Raise e /\ e <> ConnectionError
                /\ forall s, e <> HTTPError s)
  \/ exists req,
       requests_since st (snd run) = [req]
       /\ req_method req = POST
       /\ req_url req = (BASE_URL ++ PDF_ENDPOINT (contract_id (self st)))%string
       /\ header "x-ibm-client-id" (req_headers req) = Some (pdf_client_id (self st))
       /\ header "x-ibm-client-secret" (req_headers req)
          = Some (pdf_client_secret (self st))
       /\ header "X-UNIPOL-SESSIONID" (req_headers req) = Some (session_id (self st))
       /\ req_cookies req
          = [ ("MRHSession", mrh_session (self st));
              ("LastMRH_Session", last_mrh_session (self st));
              ("isLogged", Some "true") ].
Proof.
  intros run.
  assert (E : run = generate_pdf_report movements intestatario output_filename st)
    by reflexivity.
  clearbody run. unfold generate_pdf_report in E.
  rewrite (bind_ok _ _ st st (self st)) in E by reflexivity.
  set (out := fresh (dom (heap st))) in *.
  set (st1 := set_heap (<[out := OList []]> (heap st)) st).
  rewrite (bind_ok _ _ st st1 out) in E by reflexivity.
  pose proof (sent_iter_movements movements (pdf_loop out 0)
                (fun ms => sent_pdf_loop out ms 0) st1) as Hsent2.
  pose proof (self_iter_movements movements (pdf_loop out 0)
                (fun ms => self_pdf_loop out ms 0) st1) as Hself2.
  assert (Hloop_exn : forall e,
             fst (iter_movements movements (pdf_loop out 0) st1) = Raise e ->
             e <> ConnectionError /\ forall s, e <> HTTPError s).
  { intros e He. unfold iter_movements, bind, read in He.
    destruct (heap st1 !! movements) as [[[|kv d]|ms]|]; simpl in He;
      try (injection He as <-; split; [discriminate|intros; discriminate]);
      try discriminate.
    clear -He. revert He. generalize 0%nat as idx. generalize st1 as s0.
    induction ms as [|m ms IH]; intros s0 idx He; simpl in He; [discriminate|].
    unfold bind at 1, obj_copy, bind at 1, read in He.
    destruct (heap s0 !! m) as [o|]; simpl in He;
      [|injection He as <-; split; [discriminate|intros; discriminate]].
    unfold bind at 1, obj_setitem, bind at 1, read in He. simpl in He.
    rewrite lookup_insert_eq in He. simpl in He.
    destruct o as [d|l]; simpl in He;
      [|injection He as <-; split; [discriminate|intros; discriminate]].
    unfold bind at 1, bind at 1, read in He. simpl in He.
    rewrite lookup_insert_eq in He. simpl in He.
    unfold bind at 1, list_append, bind at 1, read in He. simpl in He.
    destruct (_ !! out) as [[d'|l']|]; simpl in He;
      try (injection He as <-; split; [discriminate|intros; discriminate]).
    eapply IH. exact He. }
  destruct (iter_movements movements (pdf_loop out 0) st1) as [[[]|e] st2] eqn:Hiter;
    simpl in Hsent2, Hself2.
  2: { rewrite (bind_raise _ _ _ _ _ Hiter) in E. subst run. simpl. left.
       split; [now apply requests_since_same|].
       exists e. split; [reflexivity|]. now apply Hloop_exn. }
  rewrite (bind_ok _ _ _ _ _ Hiter) in E.
  unfold _get_headers, _get_cookies in E.
  unfold bind at 1 2 3 4 5 in E. unfold uuid4, get_self, ret in E. simpl in E.
  set (st3 := set_drawn (S (drawn st2)) st2) in E.
  pose proof (sent_dump_list out st3) as Hsent4.
  pose proof (self_dump_list out st3) as Hself4.
  assert (Hdump_exn : forall e, fst (dump_list out st3) = Raise e ->
             e <> ConnectionError /\ forall s, e <> HTTPError s).
  { intros e He. unfold dump_list, bind, read in He.
    destruct (heap st3 !! out) as [[d|ls]|]; simpl in He;
      try (injection He as <-; split; [discriminate|intros; discriminate]).
    clear -He. revert e He. induction ls as [|l ls IH]; intros e He; simpl in He;
      [discriminate|].
    unfold bind, read in He.
    destruct (heap st3 !! l) as [[d|ls']|]; simpl in He;
      try (injection He as <-; split; [discriminate|intros; discriminate]).
    unfold bind in IH.
    destruct (dump_dicts ls st3) as [[js|e'] s']; simpl in *;
      [discriminate|].
    injection He as <-. now apply IH. }
  destruct (dump_list out st3) as [[lista|e] st4] eqn:Hdump;
    simpl in Hsent4, Hself4.
  2: { rewrite (bind_raise _ _ _ _ _ Hdump) in E. subst run. simpl. left.
       split; [apply requests_since_same; now rewrite Hsent4|].
       exists e. split; [reflexivity|]. now apply Hdump_exn. }
  rewrite (bind_ok _ _ _ _ _ Hdump) in E.
  right. eexists. split.
  - unfold bind, requests_send, raise_for_status, write_file, ret, raise in E.
    simpl in E. unfold requests_since.
    assert (Hs : sent st4 = sent st) by (rewrite Hsent4; exact Hsent2).
    destruct (net st4 (length (sent st4))) as [|resp]; simpl in E.
    { subst run. simpl. rewrite Hs, drop_app_length. reflexivity. }
    destruct (_ && _); simpl in E.
    { subst run. simpl. rewrite Hs, drop_app_length. reflexivity. }
    destruct output_filename as [name|]; simpl in E;
      [destruct (String.eqb name ""); simpl in E;
       [|destruct (disk _ _ _); simpl in E]|];
      subst run; simpl; rewrite Hs, drop_app_length; reflexivity.
  - simpl. rewrite Hself2. repeat split; reflexivity.
Qed.

(** ** More about the date filter *)

Section FilterMore.
Context {lib : DatetimeLib}.
Variables (start_date end_date : date).

(** The guarded statements on any truthy value: [TypeError] on the values
    of [type_error_date]; otherwise nothing is raised, and the movement is
    appended when the value is text that parses to a date in the range. *)
Lemma filter_try_value (out m : loc) (v : json) (acc : list loc) (st : state) :
  heap st !! out = Some (OList acc) ->
  truthy v = true ->
  try_except_pass (filter_try start_date end_date out m v) st
  = if type_error_date v then (Raise TypeError, st)
    else (Ok tt,
          if match v with
             | JStr s =>
                 match parse_movement_date s with
                 | Some md => in_date_range start_date end_date md
                 | None => false
                 end
             | _ => false
             end
          then appended out m acc st else st).
Proof.
  intros Hout Hv. unfold type_error_date. rewrite Hv. simpl.
  destruct v as [|b|z|mm ee|s|l|o]; try discriminate; try reflexivity.
  - now apply filter_try_text.
  - unfold try_except_pass, filter_try, py_strptime_ymd, bind, lift, raise. simpl.
    destruct (existsb (is_str "T") l); reflexivity.
  - unfold try_except_pass, filter_try, py_strptime_ymd, bind, lift, raise. simpl.
    destruct (bool_decide (is_Some (dict_get "T" o))); reflexivity.
Qed.

(** One record in the loop. *)
Lemma filter_loop_cons (out m : loc) (ms : list loc) (d : dict) (acc : list loc)
    (st : state) :
  heap st !! out = Some (OList acc) ->
  heap st !! m = Some (ODict d) ->
  filter_loop start_date end_date out (m :: ms) st
  = if type_error_date (date_field d) then (Raise TypeError, st)
    else if keeps start_date end_date d
         then filter_loop start_date end_date out ms (appended out m acc st)
         else filter_loop start_date end_date out ms st.
Proof.
  intros Hout Hm. simpl.
  rewrite (bind_ok _ _ st st (ODict d)) by (unfold read; now rewrite Hm).
  rewrite movement_date_str_field. unfold keeps, resolved_date.
  destruct (truthy (date_field d)) eqn:Hv.
  - unfold bind at 1. rewrite (filter_try_value out m _ acc st Hout Hv).
    destruct (type_error_date (date_field d)); [reflexivity|].
    destruct (date_field d) as [|b|z|mm ee|s|l|o]; try reflexivity.
    simpl in Hv. destruct (String.eqb s ""); [discriminate|].
    destruct (parse_movement_date s) as [md|]; [|reflexivity].
    destruct (in_date_range start_date end_date md); reflexivity.
  - unfold type_error_date. rewrite Hv. simpl. unfold bind at 1, ret.
    destruct (date_field d) as [|b|z|mm ee|s|l|o]; try reflexivity.
    simpl in Hv. destruct (String.eqb s ""); [reflexivity|discriminate].
Qed.

Lemma kept_movements_cons (h : gmap loc obj) (m : loc) (ms : list loc) (d : dict) :
  h !! m = Some (ODict d) ->
  kept_movements h start_date end_date (m :: ms)
  = if keeps start_date end_date d
    then m :: kept_movements h start_date end_date ms
    else kept_movements h start_date end_date ms.
Proof. intros Hm. unfold kept_movements, dict_at. simpl. now rewrite Hm. Qed.

(** The loop on records that are all safe returns, with exactly the
    movements to keep. *)
Lemma filter_loop_safe (out : loc) (ms : list loc) :
  forall (ds : list dict) (st : state) (acc : list loc),
    heap st !! out = Some (OList acc) ->
    dicts_at (heap st) ms ds ->
    Forall safe_record ds ->
    filter_loop start_date end_date out ms st
    = (Ok tt,
       set_heap (<[out := OList (acc ++ kept_movements (heap st) start_date end_date ms)]>
                   (heap st)) st).
Proof.
  induction ms as [|m ms IH]; intros ds st acc Hout Hds Hsafe.
  - simpl. rewrite app_nil_r, insert_id by exact Hout. now rewrite set_heap_same.
  - inversion Hds as [|? d ? ds' Hm Hds']; subst.
    inversion Hsafe as [|? ? Hd Hsafe']; subst.
    assert (Hne : Forall (fun m' => m' <> out) ms).
    { clear -Hds' Hout. induction Hds'; constructor; auto. congruence. }
    rewrite (filter_loop_cons out m ms d acc st Hout Hm).
    rewrite (kept_movements_cons _ _ _ _ Hm).
    unfold safe_record in Hd. rewrite Hd.
    destruct (keeps start_date end_date d).
    + rewrite (IH ds' (appended out m acc st) (acc ++ [m])).
      * rewrite appended_twice. unfold appended at 1. simpl.
        rewrite kept_movements_insert by exact Hne.
        now rewrite <- app_assoc.
      * simpl. apply lookup_insert_eq.
      * eapply dicts_at_mono; [|exact Hds']. intros l d' Hl. simpl.
        rewrite lookup_insert_ne by congruence. exact Hl.
      * exact Hsafe'.
    + now apply (IH ds').
Qed.

(** The loop raises [TypeError] at the first record that is not safe. *)
Lemma filter_loop_unsafe (out : loc) (ms : list loc) :
  forall (ds : list dict) (st : state) (acc : list loc),
    heap st !! out = Some (OList acc) ->
    dicts_at (heap st) ms ds ->
    Exists (fun d => type_error_date (date_field d) = true) ds ->
    fst (filter_loop start_date end_date out ms st) = Raise TypeError.
Proof.
  induction ms as [|m ms IH]; intros ds st acc Hout Hds Hbad.
  - inversion Hds; subst. inversion Hbad.
  - inversion Hds as [|? d ? ds' Hm Hds']; subst.
    rewrite (filter_loop_cons out m ms d acc st Hout Hm).
    destruct (type_error_date (date_field d)) eqn:Hd; [reflexivity|].
    inversion Hbad as [? ? Hhere|? ? Hlater]; subst; [congruence|].
    assert (Hne : forall l d', heap st !! l = Some (ODict d') -> l <> out)
      by (intros; congruence).
    destruct (keeps start_date end_date d).
    + apply (IH ds' _ (acc ++ [m])); [simpl; apply lookup_insert_eq| |exact Hlater].
      eapply dicts_at_mono; [|exact Hds']. intros l d' Hl. simpl.
      rewrite lookup_insert_ne by (apply not_eq_sym; eapply Hne; eauto). exact Hl.
    + now apply (IH ds' _ acc).
Qed.

(** The whole method on a list of dictionaries. *)
Lemma filter_movements_by_date_safe (st : state) (movements : loc) (ms : list loc)
    (ds : list dict) :
  heap st !! movements = Some (OList ms) ->
  dicts_at (heap st) ms ds ->
  Forall safe_record ds ->
  let out := fresh (dom (heap st)) in
  filter_movements_by_date movements start_date end_date st
  = (Ok out,
     set_heap (<[out := OList (kept_movements (heap st) start_date end_date ms)]>
                 (heap st)) st).
Proof.
  intros Hlist Hds Hsafe out.
  assert (Hfresh : heap st !! out = None).
  { apply not_elem_of_dom. apply is_fresh. }
  set (st1 := set_heap (<[out := OList []]> (heap st)) st).
  assert (Hne : Forall (fun m => m <> out) ms).
  { clear -Hds Hfresh. induction Hds; constructor; auto. congruence. }
  assert (Hread : read movements st1 = (Ok (OList ms), st1)).
  { unfold read, st1. simpl. rewrite lookup_insert_ne by congruence.
    now rewrite Hlist. }
  assert (Hloop : filter_loop start_date end_date out ms st1
                  = (Ok tt,
                     set_heap (<[out := OList (kept_movements (heap st) start_date
                                                 end_date ms)]> (heap st)) st)).
  { rewrite (filter_loop_safe out ms ds st1 []).
    - unfold st1. simpl.
      rewrite insert_insert_eq, kept_movements_insert by exact Hne. reflexivity.
    - simpl. apply lookup_insert_eq.
    - eapply dicts_at_mono; [|exact Hds]. intros l d Hl. simpl.
      rewrite lookup_insert_ne by congruence. exact Hl.
    - exact Hsafe. }
  unfold filter_movements_by_date.
  rewrite (bind_ok _ _ st st1 out) by reflexivity.
  assert (Hiter : iter_movements movements (filter_loop start_date end_date out) st1
                  = (Ok tt,
                     set_heap (<[out := OList (kept_movements (heap st) start_date
                                                 end_date ms)]> (heap st)) st)).
  { unfold iter_movements. now rewrite (bind_ok _ _ _ _ _ Hread). }
  now rewrite (bind_ok _ _ _ _ _ Hiter).
Qed.

End FilterMore.

(** X13. On a list of dictionaries, [filter_movements_by_date] raises
    exactly when some record has a date field that is truthy and is neither
    text nor a list or dictionary that holds ["T"], and what it raises then
    is [TypeError]; otherwise it returns exactly the records whose date
    field is text that parses to a date within the range.  So a list with
    ["T"] in it, a dictionary with the key ["T"], and text that does not
    parse are skipped silently, where a number is an error. *)
Theorem filter_movements_by_date_raises_iff {lib : DatetimeLib}
    (st : state) (movements : loc) (start_date end_date : date)
    (ms : list loc) (ds : list dict) :
  heap st !! movements = Some (OList ms) ->
  dicts_at (heap st) ms ds ->
  (Forall safe_record ds ->
   filter_output st movements start_date end_date
   = Some (kept_movements (heap st) start_date end_date ms))
  /\ (Exists (fun d => type_error_date (date_field d) = true) ds ->
      fst (filter_movements_by_date movements start_date end_date st)
      = Raise TypeError).
Proof.
  intros Hlist Hds. split.
  - intros Hsafe. unfold filter_output.
    rewrite (filter_movements_by_date_safe start_date end_date st movements ms ds
               Hlist Hds Hsafe).
    unfold list_at. simpl. now rewrite lookup_insert_eq.
  - intros Hbad.
    set (out := fresh (dom (heap st))).
    assert (Hfresh : heap st !! out = None).
    { apply not_elem_of_dom. apply is_fresh. }
    set (st1 := set_heap (<[out := OList []]> (heap st)) st).
    unfold filter_movements_by_date.
    rewrite (bind_ok _ _ st st1 out) by reflexivity.
    unfold iter_movements.
    assert (Hread : read movements st1 = (Ok (OList ms), st1)).
    { unfold read, st1. simpl. rewrite lookup_insert_ne by congruence.
      now rewrite Hlist. }
    unfold bind at 1. rewrite (bind_ok _ _ _ _ _ Hread).
    assert (Hloop : fst (filter_loop start_date end_date out ms st1) = Raise TypeError).
    { apply (filter_loop_unsafe start_date end_date out ms ds st1 []);
        [simpl; apply lookup_insert_eq| |exact Hbad].
      eapply dicts_at_mono; [|exact Hds]. intros l d Hl. simpl.
      rewrite lookup_insert_ne by congruence. exact Hl. }
    destruct (filter_loop start_date end_date out ms st1) as [[[]|e] st2];
      simpl in Hloop; [discriminate|].
    injection Hloop as ->. reflexivity.
Qed.

Lemma filter_movements_by_date_raises_iff_witness :
  fst (@filter_movements_by_date CPython 3%positive Sample.march_1 Sample.march_31
         (Sample.world Demo.with_numeric_date Sample.pdf_service))
  = Raise TypeError.
Proof.
  apply (proj2 (@filter_movements_by_date_raises_iff CPython
                  (Sample.world Demo.with_numeric_date Sample.pdf_service)
                  3%positive Sample.march_1 Sample.march_31
                  [1%positive; 2%positive] [Sample.march_5; Sample.numeric_entry]
                  eq_refl ltac:(repeat constructor))).
  apply Exists_cons_tl. apply Exists_cons_hd. reflexivity.
Defined.

Lemma date_leb_trans (a b c : date) :
  date_leb a b = true -> date_leb b c = true -> date_leb a c = true.
Proof.
  unfold date_leb.
  rewrite !orb_true_iff, !andb_true_iff, !orb_true_iff, !andb_true_iff,
    !Z.ltb_lt, !Z.eqb_eq, !Z.leb_le.
  lia.
Qed.

Lemma dicts_at_not_list (h : gmap loc obj) (ls : list loc) (ds : list dict)
    (out : loc) (xs : list loc) :
  dicts_at h ls ds -> h !! out = Some (OList xs) -> Forall (fun m => m <> out) ls.
Proof.
  intros Hds Hout. induction Hds; constructor; auto. congruence.
Qed.

Section FilterComposition.
Context {lib : DatetimeLib}.
Variables (start_date end_date : date).

Lemma keeps_needs_range (d : dict) :
  date_leb start_date end_date = false -> keeps start_date end_date d = false.
Proof.
  intros Hrange. unfold keeps, in_date_range.
  destruct (resolved_date d) as [md|]; [|reflexivity].
  destruct (date_leb start_date md) eqn:H1; [|reflexivity].
  destruct (date_leb md end_date) eqn:H2; [|reflexivity].
  rewrite (date_leb_trans _ _ _ H1 H2) in Hrange. discriminate.
Qed.

Lemma dicts_at_kept (h : gmap loc obj) (ms : list loc) (ds : list dict) :
  dicts_at h ms ds ->
  dicts_at h (kept_movements h start_date end_date ms)
    (List.filter (keeps start_date end_date) ds).
Proof.
  intros Hds. induction Hds as [|m d ms ds Hm Hds IH]; [constructor|].
  rewrite (kept_movements_cons start_date end_date h m ms d Hm). simpl.
  destruct (keeps start_date end_date d); [constructor|]; auto.
Qed.

Lemma kept_movements_twice (h : gmap loc obj) (ms : list loc) :
  kept_movements h start_date end_date (kept_movements h start_date end_date ms)
  = kept_movements h start_date end_date ms.
Proof.
  unfold kept_movements. induction ms as [|m ms IH]; [reflexivity|]. simpl.
  destruct (match dict_at h m with Some d => keeps start_date end_date d | None => false end)
    eqn:Hk; [|exact IH].
  simpl. rewrite Hk. now rewrite IH.
Qed.

Lemma safe_record_filter (f : dict -> bool) (ds : list dict) :
  Forall safe_record ds -> Forall safe_record (List.filter f ds).
Proof.
  intros H. induction H as [|d ds Hd _ IH]; [constructor|]. simpl.
  destruct (f d); [constructor|]; auto.
Qed.

End FilterComposition.

(** X14. With an end date before the start date, the filter keeps nothing:
    on a list of dictionaries none of which makes it raise,
    [filter_movements_by_date] returns an empty list. *)
Theorem filter_movements_by_date_empty_range {lib : DatetimeLib}
    (st : state) (movements : loc) (start_date end_date : date)
    (ms : list loc) (ds : list dict) :
  heap st !! movements = Some (OList ms) ->
  dicts_at (heap st) ms ds ->
  Forall safe_record ds ->
  date_leb start_date end_date = false ->
  filter_output st movements start_date end_date = Some [].
Proof.
  intros Hlist Hds Hsafe Hrange. unfold filter_output.
  rewrite (filter_movements_by_date_safe start_date end_date st movements ms ds
             Hlist Hds Hsafe).
  unfold list_at. simpl. rewrite lookup_insert_eq. f_equal.
  unfold kept_movements. clear -Hrange.
  induction ms as [|m ms IH]; [reflexivity|]. simpl.
  destruct (dict_at (heap st) m) as [d|]; [|exact IH].
  now rewrite (keeps_needs_range start_date end_date d Hrange).
Qed.

Lemma filter_movements_by_date_empty_range_witness :
  @filter_output CPython (Sample.world Sample.two_movements Sample.pdf_service)
    3%positive Sample.march_31 Sample.march_1
  = Some [].
Proof.
  apply (@filter_movements_by_date_empty_range CPython
           (Sample.world Sample.two_movements Sample.pdf_service)
           3%positive Sample.march_31 Sample.march_1 [1%positive; 2%positive]
           [Sample.march_5; Sample.april_1]).
  - reflexivity.
  - repeat constructor.
  - repeat constructor.
  - reflexivity.
Defined.

(** X15. Filtering is idempotent: on a list of dictionaries none of which
    makes it raise, filtering the list that [filter_movements_by_date]
    returned, with the same dates, returns a list with the same records in
    the same order. *)
Theorem filter_movements_by_date_idempotent {lib : DatetimeLib}
    (st : state) (movements : loc) (start_date end_date : date)
    (ms : list loc) (ds : list dict) :
  heap st !! movements = Some (OList ms) ->
  dicts_at (heap st) ms ds ->
  Forall safe_record ds ->
  exists out st1 kept,
    filter_movements_by_date movements start_date end_date st = (Ok out, st1)
    /\ list_at (heap st1) out = Some kept
    /\ filter_output st1 out start_date end_date = Some kept.
Proof.
  intros Hlist Hds Hsafe.
  set (out := fresh (dom (heap st))).
  assert (Hfresh : heap st !! out = None).
  { apply not_elem_of_dom. apply is_fresh. }
  set (kept := kept_movements (heap st) start_date end_date ms).
  set (st1 := set_heap (<[out := OList kept]> (heap st)) st).
  exists out, st1, kept.
  split; [now apply filter_movements_by_date_safe with (ds := ds)|].
  assert (Hout : heap st1 !! out = Some (OList kept)).
  { simpl. apply lookup_insert_eq. }
  split; [unfold list_at; now rewrite Hout|].
  assert (Hkd : dicts_at (heap st1) kept (List.filter (keeps start_date end_date) ds)).
  { eapply dicts_at_mono; [|apply dicts_at_kept; exact Hds].
    intros l d Hl. simpl. rewrite lookup_insert_ne by congruence. exact Hl. }
  assert (Hne : Forall (fun m => m <> out) kept).
  { eapply dicts_at_not_list; [exact Hkd|exact Hout]. }
  unfold filter_output.
  rewrite (filter_movements_by_date_safe start_date end_date st1 out kept _
             Hout Hkd (safe_record_filter _ _ Hsafe)).
  unfold list_at. simpl. rewrite lookup_insert_eq. f_equal.
  rewrite kept_movements_insert by exact Hne.
  apply kept_movements_twice.
Qed.

Lemma filter_movements_by_date_idempotent_witness :
  exists out st1 kept,
    @filter_movements_by_date CPython 4%positive Sample.march_1 Sample.march_31
      (Sample.world Demo.three_movements Sample.pdf_service)
    = (Ok out, st1)
    /\ list_at (heap st1) out = Some kept
    /\ @filter_output CPython st1 out Sample.march_1 Sample.march_31 = Some kept.
Proof.
  apply (@filter_movements_by_date_idempotent CPython
           (Sample.world Demo.three_movements Sample.pdf_service)
           4%positive Sample.march_1 Sample.march_31
           [1%positive; 2%positive; 3%positive]
           [Sample.march_5; Sample.april_1; Sample.empty_entry]).
  - reflexivity.
  - repeat constructor.
  - repeat constructor.
Defined.

(** X16. [filter_movements_by_date] is local: whatever its input and
    whether it returns or raises, it makes no request, draws no UUID,
    writes no file and leaves the client and every existing object as they
    were; its only effect is one new list, at a reference that was not in
    use. *)
Theorem filter_movements_by_date_is_local {lib : DatetimeLib}
    (st : state) (movements : loc) (start_date end_date : date) :
  let st' := snd (filter_movements_by_date movements start_date end_date st) in
  let out := fresh (dom (heap st)) in
  heap st !! out = None
  /\ exists kept, st' = set_heap (<[out := OList kept]> (heap st)) st.
Proof.
  intros st' out.
  assert (Hfresh : heap st !! out = None).
  { apply not_elem_of_dom. apply is_fresh. }
  split; [exact Hfresh|].
  assert (E : st' = snd (filter_movements_by_date movements start_date end_date st))
    by reflexivity.
  clearbody st'. unfold filter_movements_by_date in E.
  set (st1 := set_heap (<[out := OList []]> (heap st)) st).
  rewrite (bind_ok _ _ st st1 out) in E by reflexivity.
  unfold iter_movements, bind, read, ret, raise in E.
  destruct (heap st1 !! movements) as [[[|kv d]|ms]|]; simpl in E;
    try (exists []; exact E).
  destruct (filter_loop_sublist start_date end_date out ms st1 [])
    as (kept & _ & Hst).
  { simpl. apply lookup_insert_eq. }
  exists kept.
  destruct (filter_loop start_date end_date out ms st1) as [[[]|e] st2];
    simpl in E, Hst; subst st' st2; unfold st1; simpl;
    now rewrite insert_insert_eq.
Qed.

(** ** The pipeline *)

(** X17. Filtering and then reporting: on a list of dictionaries none of
    which makes the filter raise, the report generated from the list that
    [filter_movements_by_date] returned carries exactly the records in the
    date range, in their order, and numbers them from ["0"] by their
    position among the kept records, not by their position in the list
    that was filtered. *)
Theorem filter_then_report_renumbers {lib : DatetimeLib}
    (st : state) (movements : loc) (start_date end_date : date)
    (intestatario : string) (output_filename : option string)
    (ms : list loc) (ds : list dict) :
  heap st !! movements = Some (OList ms) ->
  dicts_at (heap st) ms ds ->
  Forall safe_record ds ->
  exists out st1,
    filter_movements_by_date movements start_date end_date st = (Ok out, st1)
    /\ json_bodies_since st1
         (snd (generate_pdf_report out intestatario output_filename st1))
       = [ JObj [ ("intestatario", JStr intestatario);
                  ("listaMovimenti",
                   JArr (map JObj
                           (stamped 0 (List.filter (keeps start_date end_date) ds)))) ] ].
Proof.
  intros Hlist Hds Hsafe.
  set (out := fresh (dom (heap st))).
  assert (Hfresh : heap st !! out = None).
  { apply not_elem_of_dom. apply is_fresh. }
  set (kept := kept_movements (heap st) start_date end_date ms).
  set (st1 := set_heap (<[out := OList kept]> (heap st)) st).
  exists out, st1.
  split; [now apply filter_movements_by_date_safe with (ds := ds)|].
  apply generate_pdf_report_posts with (ms := kept).
  - simpl. apply lookup_insert_eq.
  - eapply dicts_at_mono; [|apply dicts_at_kept; exact Hds].
    intros l d Hl. simpl. rewrite lookup_insert_ne by congruence. exact Hl.
Qed.

Lemma filter_then_report_renumbers_witness :
  exists out st1,
    @filter_movements_by_date CPython 3%positive (mkdate 2024 4 1) (mkdate 2024 4 30)
      (Sample.world Sample.two_movements Sample.pdf_service)
    = (Ok out, st1)
    /\ json_bodies_since st1 (snd (generate_pdf_report out "JOHN DOE" None st1))
       = [ JObj [ ("intestatario", JStr "JOHN DOE");
                  ("listaMovimenti",
                   JArr [ JObj [ ("dataIngresso", JStr "2024-04-01");
                                 ("saldo", JStr "1.10");
                                 ("checked", JBool true);
                                 ("id", JStr "0") ] ]) ] ].
Proof.
  apply (@filter_then_report_renumbers CPython
           (Sample.world Sample.two_movements Sample.pdf_service)
           3%positive (mkdate 2024 4 1) (mkdate 2024 4 30) "JOHN DOE" None
           [1%positive; 2%positive] [Sample.march_5; Sample.april_1]).
  - reflexivity.
  - repeat constructor.
  - repeat constructor.
Defined.

(** ** One page *)

(** X18. [fetch_movements] makes exactly one request, whatever the answer:
    a GET of the movements of the contract with the five query parameters
    it was given, the credentials of the movements API and the referer of
    the movements page.  It raises [HTTPError] exactly on a 4xx or 5xx
    status; on any other status, a 3xx included, it returns the decoded
    body, or raises [ValueError] when the body is not JSON. *)
Theorem fetch_movements_request_and_outcome
    (st : state) (offset limit : Z) (interval order_by payment_status : string) :
  let run := fetch_movements offset limit interval order_by payment_status st in
  (exists req,
      requests_since st (snd run) = [req]
      /\ req_method req = GET
      /\ req_url req = (BASE_URL ++ MOVEMENTS_ENDPOINT (contract_id (self st)))%string
      /\ req_params req
         = [ ("offset", JInt offset); ("limite", JInt limit);
             ("intervallo", JStr interval); ("ordinaPer", JStr order_by);
             ("statoPagamento", JStr payment_status) ]
      /\ header "x-ibm-client-id" (req_headers req)
         = Some (movements_client_id (self st))
      /\ header "x-ibm-client-secret" (req_headers req)
         = Some (movements_client_secret (self st))
      /\ header "X-UNIPOL-REQUESTID" (req_headers req) = Some (uuids st (drawn st))
      /\ header "Referer" (req_headers req) = Some MOVEMENTS_REFERER)
  /\ (forall resp, next_reply st = Reply resp ->
        (is_http_error resp = true ->
         fst run = Raise (HTTPError (status_code resp)))
        /\ (is_http_error resp = false ->
            fst run = match resp_json resp with
                      | Some j => Ok j
                      | None => Raise ValueError
                      end))
  /\ (next_reply st = NoReply -> fst run = Raise ConnectionError).
Proof.
  intros run. unfold run. rewrite fetch_movements_run. simpl.
  split; [|split].
  - eexists. split.
    + unfold requests_since, after_request. simpl. now rewrite drop_app_length.
    + repeat split; reflexivity.
  - intros resp ->. unfold page_outcome, is_http_error. split; intros ->; reflexivity.
  - now intros ->.
Qed.

Lemma fetch_movements_request_and_outcome_witness :
  fst (fetch_movements 1 100 "ULTIMO_ANNO" "date-D" "0,1,3,4"
         (Sample.world ∅ Demo.failing_service))
  = Raise (HTTPError 503).
Proof.
  apply (proj1 (proj1 (proj2 (fetch_movements_request_and_outcome
                                (Sample.world ∅ Demo.failing_service)
                                1 100 "ULTIMO_ANNO" "date-D" "0,1,3,4"))
                  _ eq_refl)).
  reflexivity.
Defined.

(** ** Empty input *)

(** X19. On an empty list of movements nothing is raised:
    [filter_movements_by_date] returns a new empty list, and
    [generate_pdf_report] still asks the service for a report, with an
    empty [listaMovimenti]. *)
Theorem empty_list_of_movements {lib : DatetimeLib}
    (st : state) (movements : loc) (start_date end_date : date)
    (intestatario : string) (output_filename : option string) :
  heap st !! movements = Some (OList []) ->
  filter_output st movements start_date end_date = Some []
  /\ json_bodies_since st
       (snd (generate_pdf_report movements intestatario output_filename st))
     = [ JObj [ ("intestatario", JStr intestatario); ("listaMovimenti", JArr []) ] ].
Proof.
  intros Hlist. split.
  - unfold filter_output.
    rewrite (filter_movements_by_date_safe start_date end_date st movements [] []
               Hlist ltac:(constructor) ltac:(constructor)).
    unfold list_at. simpl. now rewrite lookup_insert_eq.
  - apply (generate_pdf_report_posts st movements intestatario output_filename [] []
             Hlist). constructor.
Qed.

Lemma empty_list_of_movements_witness :
  @filter_output CPython
    (Sample.world (<[1%positive := OList []]> ∅) Sample.pdf_service)
    1%positive Sample.march_1 Sample.march_31
  = Some []
  /\ json_bodies_since (Sample.world (<[1%positive := OList []]> ∅) Sample.pdf_service)
       (snd (generate_pdf_report 1%positive "JOHN DOE" None
               (Sample.world (<[1%positive := OList []]> ∅) Sample.pdf_service)))
     = [ JObj [ ("intestatario", JStr "JOHN DOE"); ("listaMovimenti", JArr []) ] ].
Proof.
  apply (@empty_list_of_movements CPython
           (Sample.world (<[1%positive := OList []]> ∅) Sample.pdf_service)
           1%positive Sample.march_1 Sample.march_31 "JOHN DOE" None).
  reflexivity.
Defined.
